(** * Janseva Tracker: priority scoring and duplicate detection

    A shallow embedding of the AI service ([services/ai.service.js]), of the
    complaint API routes that call it and of the part of the Complaint schema
    they rely on, followed by the properties the specification states about
    them.

    JavaScript numbers are IEEE-754 binary64 values.  They are modelled with
    the executable specification of floating-point arithmetic of the standard
    library ([SpecFloat]) at precision 53 and maximal exponent 1024, so that
    every arithmetic step of the source rounds here as it rounds there.

    An awaited call is modelled by its result, a value or a raised error;
    the classifiers, the embedding library and the collection are
    collaborators of the routes.  A complaint's category is a string, or
    absent; strings are compared and lower-cased on the ASCII range. *)

From Stdlib Require Import ZArith List String Ascii Bool Lia.
From Stdlib Require Import Floats.SpecFloat.
From Stdlib Require Import Permutation Sorted.
Import ListNotations.

Local Open Scope Z_scope.

(** ** JavaScript numbers *)

Module Num.

Definition number : Type := spec_float.

Definition prec : Z := 53.
Definition emax : Z := 1024.

Definition NaN : number := S754_nan.

Definition add : number -> number -> number := SFadd prec emax.
Definition mul : number -> number -> number := SFmul prec emax.
Definition div : number -> number -> number := SFdiv prec emax.
Definition sqrt : number -> number := SFsqrt prec emax.

(** An integer as a number (exact below 2^53, rounded to nearest above). *)
Definition of_Z (z : Z) : number := binary_normalize prec emax z 0 false.

(** The decimal literal [n / d]: the binary64 value nearest to the
    quotient, which is what the correctly rounded division returns. *)
Definition lit (n d : Z) : number := div (of_Z n) (of_Z d).

(** [x < y], [x > y], [x >= y]; each is false when an operand is NaN. *)
Definition lt (x y : number) : bool := SFltb x y.
Definition gt (x y : number) : bool := SFltb y x.
Definition ge (x y : number) : bool := SFleb y x.

Definition is_nan (x : number) : bool :=
  match x with S754_nan => true | _ => false end.

(** ToBoolean on a number: zero (of either sign) and NaN are falsy. *)
Definition truthy (x : number) : bool :=
  match x with
  | S754_zero _ | S754_nan => false
  | _ => true
  end.

(** [x || d] for a number [x]. *)
Definition or_default (x d : number) : number :=
  if truthy x then x else d.

(** [Math.min(x, y)]: NaN when an operand is NaN, and -0 below +0. *)
Definition min (x y : number) : number :=
  match SFcompare x y with
  | None => NaN
  | Some Lt => x
  | Some Gt => y
  | Some Eq =>
      match x with
      | S754_zero true => x
      | _ => y
      end
  end.

(** [Math.round(x)]: floor(x + 1/2) computed exactly, keeping NaN, the
    infinities and the zeros, and the sign of a negative [x] that rounds to
    zero. *)
Definition round (x : number) : number :=
  match x with
  | S754_finite s m e =>
      if 0 <=? e then x
      else
        let v := if s then Z.neg m else Z.pos m in
        let k := Z.shiftr (2 * v + 2 ^ (- e)) (- e + 1) in
        if k =? 0 then S754_zero s else of_Z k
  | _ => x
  end.

(** The position of a number that is not NaN in the order of numbers: a
    class, then an exponent, then a mantissa, compared lexicographically. *)
Definition key (x : number) : Z * Z * Z :=
  match x with
  | S754_nan => (0, 0, 0)
  | S754_zero _ => (0, 0, 0)
  | S754_infinity true => (-2, 0, 0)
  | S754_infinity false => (2, 0, 0)
  | S754_finite true m e => (-1, - e, Z.neg m)
  | S754_finite false m e => (1, e, Z.pos m)
  end.

Definition lex (a b : Z * Z * Z) : comparison :=
  let '(a1, a2, a3) := a in
  let '(b1, b2, b3) := b in
  match a1 ?= b1 with
  | Eq => match a2 ?= b2 with Eq => a3 ?= b3 | c => c end
  | c => c
  end.

(** The order as a proposition on keys. *)
Definition klt (a b : Z * Z * Z) : Prop :=
  let '(a1, a2, a3) := a in
  let '(b1, b2, b3) := b in
  a1 < b1 \/ (a1 = b1 /\ (a2 < b2 \/ (a2 = b2 /\ a3 < b3))).

Definition kle (a b : Z * Z * Z) : Prop := klt a b \/ a = b.

End Num.

Import Num.

Definition n0 : number := Eval vm_compute in of_Z 0.
Definition n1 : number := Eval vm_compute in of_Z 1.
Definition n2 : number := Eval vm_compute in of_Z 2.
Definition n10 : number := Eval vm_compute in of_Z 10.
Definition n40 : number := Eval vm_compute in of_Z 40.
Definition n50 : number := Eval vm_compute in of_Z 50.
Definition n60 : number := Eval vm_compute in of_Z 60.
Definition n80 : number := Eval vm_compute in of_Z 80.
Definition n100 : number := Eval vm_compute in of_Z 100.
Definition n0_3 : number := Eval vm_compute in lit 3 10.
Definition n0_4 : number := Eval vm_compute in lit 4 10.
Definition n0_85 : number := Eval vm_compute in lit 85 100.
Definition n0_9 : number := Eval vm_compute in lit 9 10.
Definition n1_1 : number := Eval vm_compute in lit 11 10.
Definition n1_2 : number := Eval vm_compute in lit 12 10.
Definition n1_3 : number := Eval vm_compute in lit 13 10.
Definition n1_5 : number := Eval vm_compute in lit 15 10.

(** ** Strings *)

Module Str.

Definition lower_char (c : ascii) : ascii :=
  let n := nat_of_ascii c in
  if andb (65 <=? n)%nat (n <=? 90)%nat then ascii_of_nat (n + 32) else c.

(** [s.toLowerCase()] on the ASCII range: the letters A to Z change, every
    other character is kept. *)
Fixpoint toLowerCase (s : string) : string :=
  match s with
  | EmptyString => EmptyString
  | String c rest => String (lower_char c) (toLowerCase rest)
  end.

(** [s.includes(word)]: [word] occurs in [s] as a contiguous substring. *)
Fixpoint includes (s word : string) : bool :=
  if String.prefix word s then true
  else match s with
       | EmptyString => false
       | String _ rest => includes rest word
       end.

End Str.

(** ** JavaScript values and object lookup *)

Inductive value : Type :=
| VUndefined
| VNum (x : number)
| VStr (s : string)
| VObject (what : string).   (* a function or another object *)

(** ToBoolean. *)
Definition truthy_value (v : value) : bool :=
  match v with
  | VUndefined => false
  | VNum x => truthy x
  | VStr s => negb (String.eqb s "")
  | VObject _ => true
  end.

(** ToNumber, on the values that reach an arithmetic operator here: a
    function or a plain object converts through its string form, which is
    not a numeric literal. *)
Definition to_number (v : value) : number :=
  match v with
  | VNum x => x
  | _ => NaN
  end.

(** [a || b]. *)
Definition js_or (a b : value) : value := if truthy_value a then a else b.

Fixpoint assoc (key : string) (props : list (string * value)) : option value :=
  match props with
  | [] => None
  | (k, v) :: rest => if String.eqb k key then Some v else assoc key rest
  end.

(** What every object literal inherits from [Object.prototype]. *)
Definition Object_prototype : list (string * value) :=
  [ ("constructor", VObject "function Object");
    ("hasOwnProperty", VObject "function hasOwnProperty");
    ("isPrototypeOf", VObject "function isPrototypeOf");
    ("propertyIsEnumerable", VObject "function propertyIsEnumerable");
    ("toLocaleString", VObject "function toLocaleString");
    ("toString", VObject "function toString");
    ("valueOf", VObject "function valueOf");
    ("__proto__", VObject "Object.prototype");
    ("__defineGetter__", VObject "function __defineGetter__");
    ("__defineSetter__", VObject "function __defineSetter__");
    ("__lookupGetter__", VObject "function __lookupGetter__");
    ("__lookupSetter__", VObject "function __lookupSetter__") ]%string.

(** [obj[key]] for an object literal with own properties [own]: the own
    property when there is one, else the inherited one, else undefined. *)
Definition get (own : list (string * value)) (key : string) : value :=
  match assoc key own with
  | Some v => v
  | None =>
      match assoc key Object_prototype with
      | Some v => v
      | None => VUndefined
      end
  end.

(** The property key an optional string is converted to. *)
Definition property_key (k : option string) : string :=
  match k with
  | Some s => s
  | None => "undefined"%string
  end.

(** The result of an awaited call: a value, or a raised error. *)
Inductive outcome (A : Type) : Type :=
| Returned (a : A)
| Thrown (message : string).
Arguments Returned {A} a.
Arguments Thrown {A} message.

(** ** The Complaint model (models/complaint.js) *)

(** A vector as JavaScript passes it: absent (null or undefined) or an
    array of numbers. *)
Definition vec : Type := option (list number).

Record Breakdown : Type := {
  complaintCountScore : number;
  timePendingScore : number;
  areaWeightScore : number;
  categoryMultiplier : value
}.

Record StoredDuplicateCheck : Type := {
  sd_isDuplicate : bool;
  sd_similarity : number;
  sd_matchingComplaintId : option nat;
  sd_matchedField : option string
}.

(** A template literal, kept as its pieces. *)
Inductive piece : Type :=
| Text (s : string)
| Interp (v : value).

Record ImageClassification : Type := {
  predictedLabel : option string;
  ic_confidence : number;
  mappedCategory : option string;
  allPredictions : list (string * number)
}.

Record TextClassification : Type := {
  predictedCategory : option string;
  tc_confidence : number;
  scores : list (string * number)
}.

Record Complaint : Type := {
  _id : nat;
  image : option string;
  category : string;
  description : string;
  location : string;
  createdBy : string;
  imageClassification : ImageClassification;
  textClassification : TextClassification;
  embedding : vec;
  aiDuplicateCheck : StoredDuplicateCheck;
  priorityScore : number;
  priorityBreakdown : Breakdown;
  aiSeverityLevel : string;
  aiReasoning : list piece;
  createdAt : Z
}.

(** ** The AI service (services/ai.service.js) *)

Local Open Scope string_scope.

Record DuplicateCheck : Type := {
  isDuplicate : bool;
  similarity : number;
  matchingComplaint : option nat;
  matchedField : option string
}.

(** Fallback duplicate detection (no embedding). *)
Definition fallbackDetectDuplicate : DuplicateCheck :=
  {| isDuplicate := false; similarity := n0;
     matchingComplaint := None; matchedField := None |}.

(** The loop of [cosineSimilarity]: one step per index, on two arrays of the
    same length. *)
Fixpoint cosine_loop (a b : list number) (acc : number * number * number)
  : number * number * number :=
  match a, b with
  | x :: a', y :: b' =>
      let '(dotProduct, normA, normB) := acc in
      cosine_loop a' b'
        (add dotProduct (mul x y), add normA (mul x x), add normB (mul y y))
  | _, _ => acc
  end.

Definition cosineSimilarity (vecA vecB : vec) : number :=
  match vecA, vecB with
  | Some a, Some b =>
      if negb (Nat.eqb (List.length a) (List.length b)) then n0
      else
        let '(dotProduct, normA, normB) := cosine_loop a b (n0, n0, n0) in
        div dotProduct (mul (sqrt normA) (sqrt normB))
  | _, _ => n0
  end.

Record BestMatch : Type := {
  bm_similarity : number;
  bm_complaint : option Complaint
}.

(** [!complaint.embedding || complaint.embedding.length === 0]. *)
Definition no_embedding (c : Complaint) : bool :=
  match embedding c with
  | None => true
  | Some e => Nat.eqb (List.length e) 0
  end.

(** One iteration of the loop over the recent complaints. *)
Definition scan_step (newEmbedding : vec) (bestMatch : BestMatch) (complaint : Complaint)
  : BestMatch :=
  if no_embedding complaint then bestMatch
  else
    let similarity := cosineSimilarity newEmbedding (embedding complaint) in
    if gt similarity (bm_similarity bestMatch)
    then {| bm_similarity := similarity; bm_complaint := Some complaint |}
    else bestMatch.

Definition scan (newEmbedding : vec) (recentComplaints : list Complaint)
  (bestMatch : BestMatch) : BestMatch :=
  fold_left (scan_step newEmbedding) recentComplaints bestMatch.

Definition DUPLICATE_THRESHOLD : number := n0_85.

(** [detectDuplicate] once the embedding of the new complaint and the recent
    complaints (last 7 days, at most 50) have been obtained. *)
Definition detectDuplicate_window (newEmbedding : vec) (recentComplaints : list Complaint)
  : DuplicateCheck :=
  if Nat.eqb (List.length recentComplaints) 0 then
    {| isDuplicate := false; similarity := n0;
       matchingComplaint := None; matchedField := None |}
  else
    let bestMatch :=
      scan newEmbedding recentComplaints
        {| bm_similarity := n0; bm_complaint := None |} in
    {| isDuplicate := gt (bm_similarity bestMatch) DUPLICATE_THRESHOLD;
       similarity := bm_similarity bestMatch;
       matchingComplaint := option_map _id (bm_complaint bestMatch);
       matchedField := Some "text" |}.

(** [detectDuplicate].  [transformers] is what [safeRequire] returned: nothing,
    or the library, seen as the extractor it builds; [recentComplaints] is the
    result of the query on the collection.  Every error raised on the way is
    caught and answered with the fallback. *)
Definition detectDuplicate
  (transformers : option (option string -> outcome vec))
  (recentComplaints : outcome (list Complaint))
  (newComplaint_description : option string) : DuplicateCheck :=
  match transformers with
  | None => fallbackDetectDuplicate
  | Some extractor =>
      match extractor newComplaint_description with
      | Thrown _ => fallbackDetectDuplicate
      | Returned newEmbedding =>
          match recentComplaints with
          | Thrown _ => fallbackDetectDuplicate
          | Returned recent => detectDuplicate_window newEmbedding recent
          end
      end
  end.

(** *** Priority scoring *)

Record FallbackPriority : Type := {
  fb_score : number;
  fb_breakdown : Breakdown
}.

(** Fallback priority scoring (simple rules).  [category] is
    [complaint.category], absent when the complaint has none. *)
Definition fallbackCalculatePriority (category : option string) : FallbackPriority :=
  let category :=
    match category with
    | Some c => Str.toLowerCase c
    | None => ""
    end in
  let with_multiplier (m : number) :=
    {| complaintCountScore := n50; timePendingScore := n50;
       areaWeightScore := n50; categoryMultiplier := VNum m |} in
  if Str.includes category "drainage" || Str.includes category "sewage" then
    {| fb_score := of_Z 85; fb_breakdown := with_multiplier n1_5 |}
  else if Str.includes category "garbage" then
    {| fb_score := of_Z 70; fb_breakdown := with_multiplier n1_2 |}
  else if Str.includes category "water" then
    {| fb_score := of_Z 65; fb_breakdown := with_multiplier n1_1 |}
  else if Str.includes category "road" || Str.includes category "pothole" then
    {| fb_score := n60; fb_breakdown := with_multiplier n1 |}
  else if Str.includes category "light" then
    {| fb_score := of_Z 55; fb_breakdown := with_multiplier n0_9 |}
  else
    {| fb_score := n50; fb_breakdown := with_multiplier n1 |}.

Record Options : Type := {
  hoursPending : option number;
  areaWeight : option number
}.

(** [options = {}]. *)
Definition no_options : Options := {| hoursPending := None; areaWeight := None |}.

(** [options.field || d]. *)
Definition option_or (field : option number) (d : number) : number :=
  match field with
  | Some x => or_default x d
  | None => d
  end.

Record PriorityResult : Type := {
  score : number;
  breakdown : Breakdown;
  severityLevel : string;
  reasoning : list piece
}.

Definition categoryMultipliers : list (string * value) :=
  [ ("Drainage", VNum n1_5);
    ("Garbage", VNum n1_3);
    ("Water Leakage", VNum n1_2);
    ("Road Damage", VNum n1_1);
    ("Streetlight Issue", VNum n1) ].

(** The severity chosen on the main path: a variable set to "low" and then
    overwritten by the first test that holds. *)
Definition severity_of_final (finalScore : number) : string :=
  if ge finalScore n80 then "critical"
  else if ge finalScore n60 then "high"
  else if ge finalScore n40 then "medium"
  else "low".

(** The severity chosen on the fallback path: a chain of conditionals. *)
Definition severity_of_fallback (score : number) : string :=
  if ge score n80 then "critical"
  else if ge score n60 then "high"
  else if ge score n40 then "medium"
  else "low".

Definition category_value (category : option string) : value :=
  match category with
  | Some c => VStr c
  | None => VUndefined
  end.

(** [calculatePriority(complaint, options)].  [category] is
    [complaint.category]; [sameLocationCount] is the result of counting the
    other complaints at the same location, or the error the query raised. *)
Definition calculatePriority (category : option string)
  (sameLocationCount : outcome N) (options : Options) : PriorityResult :=
  match sameLocationCount with
  | Returned sameLocationCount =>
      let count := of_Z (Z.of_N sameLocationCount) in
      let complaintCountScore := min (add (mul count n10) n50) n100 in
      let hoursPending := option_or (hoursPending options) n0 in
      let timePendingScore := min (add (mul hoursPending n2) n50) n100 in
      let areaWeightScore := option_or (areaWeight options) n50 in
      let categoryMultiplier :=
        js_or (get categoryMultipliers (property_key category)) (VNum n1) in
      let rawScore :=
        add (add (mul complaintCountScore n0_4) (mul timePendingScore n0_3))
            (mul areaWeightScore n0_3) in
      let finalScore :=
        min (round (mul rawScore (to_number categoryMultiplier))) n100 in
      {| score := finalScore;
         breakdown :=
           {| complaintCountScore := complaintCountScore;
              timePendingScore := timePendingScore;
              areaWeightScore := areaWeightScore;
              categoryMultiplier := categoryMultiplier |};
         severityLevel := severity_of_final finalScore;
         reasoning :=
           [ Text "Score: "; Interp (VNum finalScore); Text "/100. ";
             Text "Location complaints: "; Interp (VNum count); Text ", ";
             Text "Category: "; Interp (category_value category); Text ", ";
             Text "Multiplier: "; Interp categoryMultiplier; Text "x" ] |}
  | Thrown _ =>
      let fallback := fallbackCalculatePriority category in
      {| score := fb_score fallback;
         breakdown := fb_breakdown fallback;
         severityLevel := severity_of_fallback (fb_score fallback);
         reasoning := [ Text "Default assessment (AI disabled)" ] |}
  end.

(** [generateEmbedding(complaint)]: null when the library is missing or the
    extractor fails, else the extracted vector as an array. *)
Definition generateEmbedding
  (transformers : option (option string -> outcome vec))
  (complaint_description : option string) : vec :=
  match transformers with
  | None => None
  | Some extractor =>
      match extractor complaint_description with
      | Thrown _ => None
      | Returned embedding => embedding
      end
  end.

(** ** The complaint API routes *)

(** The object handed to [Complaint.create]. *)
Record ComplaintInput : Type := {
  in_image : option string;
  in_category : string;
  in_description : option string;
  in_location : option string;
  in_createdBy : string;
  in_imageClassification : ImageClassification;
  in_textClassification : TextClassification;
  in_embedding : vec;
  in_aiDuplicateCheck : StoredDuplicateCheck;
  in_priorityScore : number;
  in_priorityBreakdown : Breakdown;
  in_aiSeverityLevel : string;
  in_aiReasoning : list piece
}.

Record Body : Type := {
  body_category : option string;
  body_description : option string;
  body_location : option string;
  body_image : option string;
  body_createdBy : option string
}.

Record AiInsights : Type := {
  ins_imageClassification : ImageClassification;
  ins_textClassification : TextClassification;
  ins_duplicateCheck : option (bool * number);
  ins_priority : PriorityResult
}.

Inductive Json : Type :=
| DuplicateWarning (message : string) (similarity : number)
    (matchingComplaint : option nat) (aiInsights : AiInsights)
| Submitted (message : string) (complaint : Complaint) (aiInsights : AiInsights)
| Failure (message : string) (error : string).

Record Response : Type := {
  status : nat;
  json : Json
}.

(** [a || b] on optional strings: an absent or empty string is falsy. *)
Definition str_or (a b : option string) : option string :=
  match a with
  | Some s => if String.eqb s "" then b else a
  | None => b
  end.

Definition str_or_default (a : option string) (d : string) : string :=
  match str_or a (Some d) with
  | Some s => s
  | None => d
  end.

Definition is_some {A : Type} (o : option A) : bool :=
  match o with Some _ => true | None => false end.

(** The image classification a request starts from, when it has no image. *)
Definition no_image : ImageClassification :=
  {| predictedLabel := None; ic_confidence := n0;
     mappedCategory := None; allPredictions := [] |}.

(** The object the route hands to [Complaint.create]. *)
Definition new_complaint (body : Body)
  (imageClassification : ImageClassification)
  (textClassification : TextClassification)
  (duplicateCheck : DuplicateCheck) (priorityResult : PriorityResult)
  (embedding : vec) : ComplaintInput :=
  let finalCategory :=
    str_or_default
      (str_or (body_category body) (predictedCategory textClassification)) "Other" in
  {| in_image := body_image body;
     in_category := finalCategory;
     in_description := body_description body;
     in_location := body_location body;
     in_createdBy := str_or_default (body_createdBy body) "Anonymous";
     in_imageClassification := imageClassification;
     in_textClassification := textClassification;
     in_embedding := embedding;
     in_aiDuplicateCheck :=
       {| sd_isDuplicate := isDuplicate duplicateCheck;
          sd_similarity := round (mul (similarity duplicateCheck) n100);
          sd_matchingComplaintId := matchingComplaint duplicateCheck;
          sd_matchedField := matchedField duplicateCheck |};
     in_priorityScore := score priorityResult;
     in_priorityBreakdown := breakdown priorityResult;
     in_aiSeverityLevel := severityLevel priorityResult;
     in_aiReasoning := reasoning priorityResult |}.

Section ComplaintRoutes.

(** The collaborators of the routes: the two classifiers, the optional
    sentence-embedding library, and the collection of complaints with the
    two queries and the insertion the routes use. *)
Variable classifyImage : string -> outcome ImageClassification.
Variable classifyText : option string -> outcome TextClassification.
Variable transformers : option (option string -> outcome vec).
Variable find_recent : list Complaint -> outcome (list Complaint).
Variable countDocuments : list Complaint -> option string -> outcome N.
Variable create : list Complaint -> ComplaintInput -> outcome Complaint.

(** Step 1 of the route: the image is classified when the request names
    one. *)
Definition classify_image (body : Body) : outcome ImageClassification :=
  if is_some (str_or (body_image body) None)
  then classifyImage (str_or_default (body_image body) "")
  else Returned no_image.

(** Steps 3 to 5 of the route. *)
Definition check_duplicate (body : Body) (store : list Complaint) : DuplicateCheck :=
  detectDuplicate transformers (find_recent store) (body_description body).

Definition score_priority (body : Body) (textClassification : TextClassification)
  (store : list Complaint) : PriorityResult :=
  calculatePriority
    (str_or (body_category body) (predictedCategory textClassification))
    (countDocuments store (body_location body)) no_options.

(** POST /api/complaints on the collection [store]: the response, and the
    collection afterwards. *)
Definition post_complaint (body : Body) (store : list Complaint)
  : Response * list Complaint :=
  let failure message :=
    ({| status := 500; json := Failure "Error creating complaint" message |}, store) in
  match classify_image body with
  | Thrown message => failure message
  | Returned imageClassification =>
  match classifyText (body_description body) with
  | Thrown message => failure message
  | Returned textClassification =>
      let duplicateCheck := check_duplicate body store in
      let priorityResult := score_priority body textClassification store in
      let embedding := generateEmbedding transformers (body_description body) in
      if isDuplicate duplicateCheck && gt (similarity duplicateCheck) n0_85 then
        ({| status := 409;
            json :=
              DuplicateWarning "Potential duplicate complaint detected"
                (round (mul (similarity duplicateCheck) n100))
                (matchingComplaint duplicateCheck)
                {| ins_imageClassification := imageClassification;
                   ins_textClassification := textClassification;
                   ins_duplicateCheck := None;
                   ins_priority := priorityResult |} |}, store)
      else
        match
          create store
            (new_complaint body imageClassification textClassification
               duplicateCheck priorityResult embedding)
        with
        | Thrown message => failure message
        | Returned complaint =>
            ({| status := 201;
                json :=
                  Submitted "Complaint submitted successfully" complaint
                    {| ins_imageClassification := imageClassification;
                       ins_textClassification := textClassification;
                       ins_duplicateCheck :=
                         Some (isDuplicate duplicateCheck,
                               round (mul (similarity duplicateCheck) n100));
                       ins_priority := priorityResult |} |},
             (store ++ [complaint])%list)
        end
  end
  end.

End ComplaintRoutes.

(** GET /api/complaints/priority, from the complaints the query returned:
    the four groups of the response. *)
Record Grouped : Type := {
  g_critical : list Complaint;
  g_high : list Complaint;
  g_medium : list Complaint;
  g_low : list Complaint
}.

Definition group_by_severity (complaints : list Complaint) : Grouped :=
  {| g_critical := filter (fun c => ge (priorityScore c) n80) complaints;
     g_high :=
       filter (fun c => ge (priorityScore c) n60 && lt (priorityScore c) n80) complaints;
     g_medium :=
       filter (fun c => ge (priorityScore c) n40 && lt (priorityScore c) n60) complaints;
     g_low := filter (fun c => lt (priorityScore c) n40) complaints |}.

(** The group of the listing that carries a severity name. *)
Definition group_named (g : Grouped) (level : string) : list Complaint :=
  if String.eqb level "critical" then g_critical g
  else if String.eqb level "high" then g_high g
  else if String.eqb level "medium" then g_medium g
  else if String.eqb level "low" then g_low g
  else [].

Local Close Scope string_scope.
Local Open Scope Z_scope.

(** ** What the schema validates (models/complaint.js)

    [Complaint.create] casts the object to the types of the schema,
    validates it and inserts it.  Modelled here: the cast of the [Number]
    paths, and the constraints the schema declares, that is the [required]
    paths, the two [enum]s and the bounds of [priorityScore]. *)

Definition category_enum : list string :=
  [ "Garbage"; "Road Damage"; "Streetlight Issue"; "Water Leakage";
    "Drainage"; "Other" ]%string.

Definition severity_enum : list string :=
  [ "low"; "medium"; "high"; "critical" ]%string.

Definition one_of (allowed : list string) (s : string) : bool :=
  existsb (String.eqb s) allowed.

(** [required: true] on a string path: present and not empty. *)
Definition required (s : option string) : bool := is_some (str_or s None).

(** The cast of a [Number] path: NaN is refused, the infinities pass. *)
Definition cast_number (x : number) : bool := negb (is_nan x).

(** The cast of a value that is not known to be a number.  An absent value
    takes the default of the path; a function or another object has no
    number to give and is refused; a string is cast through [Number(...)],
    which is not modelled beyond the empty string (it is stored as null):
    no string reaches a [Number] path. *)
Definition cast_value (v : value) : bool :=
  match v with
  | VUndefined => true
  | VNum x => cast_number x
  | VStr s => String.eqb s ""
  | VObject _ => false
  end.

(** The [Number] paths below [textClassification.scores]; any other key of
    the object is dropped, not cast. *)
Definition score_paths : list string :=
  [ "Garbage"; "Road Damage"; "Streetlight Issue"; "Water Leakage";
    "Drainage" ]%string.

(** The property of [scores] at a key, when it has one. *)
Fixpoint score_at (scores : list (string * number)) (path : string) : option number :=
  match scores with
  | [] => None
  | (k, v) :: rest => if String.eqb k path then Some v else score_at rest path
  end.

(** Every [Number] path of the schema casts. *)
Definition cast_numbers (input : ComplaintInput) : bool :=
  cast_number (ic_confidence (in_imageClassification input))
  && forallb (fun p => cast_number (snd p))
       (allPredictions (in_imageClassification input))
  && cast_number (tc_confidence (in_textClassification input))
  && forallb
       (fun path =>
          match score_at (scores (in_textClassification input)) path with
          | Some v => cast_number v
          | None => true
          end)
       score_paths
  && match in_embedding input with
     | Some numbers => forallb cast_number numbers
     | None => true
     end
  && cast_number (sd_similarity (in_aiDuplicateCheck input))
  && cast_number (in_priorityScore input)
  && cast_number (complaintCountScore (in_priorityBreakdown input))
  && cast_number (timePendingScore (in_priorityBreakdown input))
  && cast_number (areaWeightScore (in_priorityBreakdown input))
  && cast_value (categoryMultiplier (in_priorityBreakdown input)).

Definition schema_valid (input : ComplaintInput) : bool :=
  cast_numbers input
  && one_of category_enum (in_category input)
  && required (in_description input)
  && required (in_location input)
  && ge (in_priorityScore input) n0
  && ge n100 (in_priorityScore input)
  && one_of severity_enum (in_aiSeverityLevel input).

Definition fresh_id (store : list Complaint) : nat :=
  S (fold_right Nat.max 0%nat (map _id store)).

(** [Complaint.create] at time [now]: the stored document, or the
    validation error. *)
Definition schema_create (now : Z) (store : list Complaint) (input : ComplaintInput)
  : outcome Complaint :=
  if schema_valid input then
    Returned
      {| _id := fresh_id store;
         image := in_image input;
         category := in_category input;
         description := str_or_default (in_description input) "";
         location := str_or_default (in_location input) "";
         createdBy := in_createdBy input;
         imageClassification := in_imageClassification input;
         textClassification := in_textClassification input;
         embedding := in_embedding input;
         aiDuplicateCheck := in_aiDuplicateCheck input;
         priorityScore := in_priorityScore input;
         priorityBreakdown := in_priorityBreakdown input;
         aiSeverityLevel := in_aiSeverityLevel input;
         aiReasoning := in_aiReasoning input;
         createdAt := now |}
  else Thrown "Complaint validation failed".

(** ** Vocabulary of the specification *)

(** A window entry with a usable (present, non-empty) embedding. *)
Definition usable (c : Complaint) : bool := negb (no_embedding c).

(** The similarity of a window entry to the candidate. *)
Definition similarity_to (newEmbedding : vec) (c : Complaint) : number :=
  cosineSimilarity newEmbedding (embedding c).

(** [best] is the best similarity over the window: some entry with an
    embedding attains it, and it is at least the similarity of every entry
    with an embedding. *)
Definition best_similarity (newEmbedding : vec) (recent : list Complaint)
  (best : number) : Prop :=
  (exists c, In c recent /\ usable c = true /\ similarity_to newEmbedding c = best) /\
  (forall c, In c recent -> usable c = true ->
             ge best (similarity_to newEmbedding c) = true).

(** The result the specification gives for a window without a match. *)
Definition no_match : DuplicateCheck :=
  {| isDuplicate := false; similarity := n0;
     matchingComplaint := None; matchedField := None |}.

(** The result for a window that is not empty and has no match. *)
Definition no_text_match : DuplicateCheck :=
  {| isDuplicate := false; similarity := n0;
     matchingComplaint := None; matchedField := Some "text"%string |}.

(** An absent vector, an empty one, and two arrays of different lengths. *)
Definition absent (v : vec) : Prop := v = None.
Definition empty (v : vec) : Prop := v = Some [].
Definition lengths_differ (vecA vecB : vec) : Prop :=
  match vecA, vecB with
  | Some a, Some b => List.length a <> List.length b
  | _, _ => False
  end.

(** The best match the scan starts from. *)
Definition start : BestMatch := {| bm_similarity := n0; bm_complaint := None |}.

(** The test the priority listing applies to a score to put a complaint in
    the group named [level]. *)
Definition in_level (level : string) (s : number) : bool :=
  if String.eqb level "critical" then ge s n80
  else if String.eqb level "high" then ge s n60 && lt s n80
  else if String.eqb level "medium" then ge s n40 && lt s n60
  else if String.eqb level "low" then lt s n40
  else false.

(** A property name that an object literal inherits. *)
Definition inherited (key : string) : bool := is_some (assoc key Object_prototype).

(** The multiplier table in the words of the specification: Drainage 1.5,
    Garbage 1.3, Water Leakage 1.2, Road Damage 1.1, Streetlight Issue 1.0,
    any other or unknown category 1.0. *)
Definition spec_multiplier (category : option string) : number :=
  match category with
  | Some c =>
      if String.eqb c "Drainage" then n1_5
      else if String.eqb c "Garbage" then n1_3
      else if String.eqb c "Water Leakage" then n1_2
      else if String.eqb c "Road Damage" then n1_1
      else if String.eqb c "Streetlight Issue" then n1
      else n1
  | None => n1
  end.

(** The raw score of a breakdown: the weighted sum of its three scores. *)
Definition raw_score (b : Breakdown) : number :=
  add (add (mul (complaintCountScore b) n0_4) (mul (timePendingScore b) n0_3))
      (mul (areaWeightScore b) n0_3).

(** The lower-cased category the fallback scorer looks keywords up in. *)
Definition fallback_key (category : option string) : string :=
  match category with
  | Some c => Str.toLowerCase c
  | None => ""%string
  end.

(** The lower-cased category contains the keyword. *)
Definition mentions (category : option string) (word : string) : bool :=
  Str.includes (fallback_key category) word.

(** ** Examples *)

(** A stored complaint that carries the given embedding and nothing else of
    interest. *)
Definition complaint_with (id : nat) (e : vec) : Complaint :=
  {| _id := id; image := None; category := "Other"; description := "";
     location := ""; createdBy := "Anonymous";
     imageClassification :=
       {| predictedLabel := None; ic_confidence := n0;
          mappedCategory := None; allPredictions := [] |};
     textClassification :=
       {| predictedCategory := None; tc_confidence := n0; scores := [] |};
     embedding := e;
     aiDuplicateCheck :=
       {| sd_isDuplicate := false; sd_similarity := n0;
          sd_matchingComplaintId := None; sd_matchedField := None |};
     priorityScore := n50;
     priorityBreakdown :=
       {| complaintCountScore := n0; timePendingScore := n0;
          areaWeightScore := n0; categoryMultiplier := VNum n1 |};
     aiSeverityLevel := "medium"; aiReasoning := []; createdAt := 0 |}%string.

(** An extractor that answers every text with the same vector. *)
Definition constant_extractor (v : vec) : option string -> outcome vec :=
  fun _ => Returned v.

(** A window whose only entry is at similarity exactly 0.85 from the
    candidate: 17 / (1 * 20). *)
Definition candidate_e1 : vec := Some [n1; n0; n0; n0; n0].
Definition window_at_threshold : list Complaint :=
  [complaint_with 7 (Some [of_Z 17; n10; of_Z 3; n1; n1])].

(** A window whose only entry has no embedding, and one whose only entry
    points away from the candidate. *)
Definition window_without_embedding : list Complaint := [complaint_with 3 None].
Definition candidate_1 : vec := Some [n1].
Definition window_opposite : list Complaint :=
  [complaint_with 4 (Some [of_Z (-1)])].

(** A window with a tie: the second and third entries are at similarity 1
    from [candidate_1], the first has no embedding. *)
Definition window_tie_before : list Complaint := [complaint_with 1 None].
Definition window_tie_first : Complaint := complaint_with 2 (Some [n2]).
Definition window_tie_after : list Complaint := [complaint_with 3 (Some [n1])].

(** The options of the example of the specification: [hoursPending = 0] and
    [areaWeight = 50]. *)
Definition example_options : Options :=
  {| hoursPending := Some n0; areaWeight := Some n50 |}.

(** Collaborators and requests: classifiers that return nothing of
    interest, a collection that answers its queries, and two requests, one
    complete and one without a location. *)
Definition plain_text : TextClassification :=
  {| predictedCategory := None; tc_confidence := n0; scores := [] |}.

Definition classifyImage_plain : string -> outcome ImageClassification :=
  fun _ => Returned no_image.

Definition classifyText_plain : option string -> outcome TextClassification :=
  fun _ => Returned plain_text.

Definition find_all : list Complaint -> outcome (list Complaint) :=
  fun store => Returned store.

Definition count_none : list Complaint -> option string -> outcome N :=
  fun _ _ => Returned 0%N.

Definition body_complete : Body :=
  {| body_category := Some "Garbage"; body_description := Some "bins overflow";
     body_location := Some "Ward 4"; body_image := None;
     body_createdBy := None |}%string.

Definition body_without_location : Body :=
  {| body_category := Some "Garbage"; body_description := Some "bins overflow";
     body_location := None; body_image := None; body_createdBy := None |}%string.

(** ** Rounding to binary64, read on integers

    The positive dyadic number [M * 2^E] rounds to the mantissa and exponent
    [rnd M E]; [to_float] turns the pair into a number.  The arithmetic of
    [SpecFloat] on positive numbers is proved below to compute exactly this,
    which is what makes its monotonicity provable. *)

(** Round to nearest, ties to even, of the quotient [N / D]. *)
Definition rne (N D : Z) : Z :=
  let q := N / D in
  match 2 * (N mod D) ?= D with
  | Lt => q
  | Eq => if Z.even q then q else q + 1
  | Gt => q + 1
  end.

(** A shift record holds the quotient of [N] by [D], with the position of
    the remainder against half of [D] in its two bits. *)
Definition enc (N D : Z) (mrs : shr_record) : Prop :=
  let m := shr_m mrs in
  let rem := N - D * m in
  0 <= m /\ 0 <= rem < D /\
  (shr_r mrs = true <-> D <= 2 * rem) /\
  (shr_s mrs = true <-> (rem <> 0 /\ 2 * rem <> D)).

(** The number of binary digits of a positive integer. *)
Definition LD (M : Z) : Z := Z.log2 M + 1.

(** The exponent of the binary64 format for a number of magnitude [d]. *)
Definition fx (d : Z) : Z := Z.max (d - 53) (-1074).

(** A mantissa rounded up to [2^53] moves to the next exponent. *)
Definition carry (m e : Z) : Z * Z :=
  if m =? 2 ^ 53 then (2 ^ 52, e + 1) else (m, e).

Definition rnd (M E : Z) : Z * Z :=
  let e := fx (LD M + E) in
  let b := Z.min E e in
  carry (rne (M * 2 ^ (E - b)) (2 ^ (e - b))) e.

Definition to_float (me : Z * Z) : spec_float :=
  match fst me with
  | Z0 => S754_zero false
  | Zpos m =>
      if snd me <=? 971 then S754_finite false m (snd me)
      else S754_infinity false
  | Zneg _ => S754_nan
  end.

(** A valid positive finite number; a valid positive number, finite or
    infinite; a valid number that is not negative; and a valid positive
    finite number with a full mantissa. *)
Definition pos_finite (x : number) : Prop :=
  match x with
  | S754_finite false m e => bounded prec emax m e = true
  | _ => False
  end.

Definition positive_number (x : number) : Prop :=
  match x with
  | S754_infinity false => True
  | S754_finite false m e => bounded prec emax m e = true
  | _ => False
  end.

Definition nonneg (x : number) : Prop :=
  match x with
  | S754_zero false => True
  | S754_infinity false => True
  | S754_finite false m e => bounded prec emax m e = true
  | _ => False
  end.

Definition normal (w : number) : Prop :=
  match w with
  | S754_finite false m e => bounded prec emax m e = true /\ 53 <= LD (Z.pos m)
  | _ => False
  end.

(** ** The classifiers (services/ai.service.js) *)

Local Open Scope string_scope.

Definition n0_2 : number := Eval vm_compute in lit 2 10.
Definition n85 : number := Eval vm_compute in of_Z 85.

(** Maps MobileNet predictions to civic categories. *)
Definition CATEGORY_MAPPING : list (string * list string) :=
  [ ("Garbage",
     ["garbage"; "trash"; "litter"; "dumpster"; "ashcan"; "wastebin"; "dustbin"]);
    ("Road Damage",
     ["pothole"; "road"; "highway"; "street"; "asphalt"; "concrete"; "gravel"]);
    ("Streetlight Issue",
     ["lamp"; "light"; "streetlight"; "lantern"; "torch"; "flashlight"]);
    ("Water Leakage", ["faucet"; "tap"; "water"; "pipe"; "plumbing"; "hydrant"]);
    ("Drainage", ["sewer"; "drain"; "sewage"; "gutter"; "storm"; "drainage"]) ].

Definition fallbackImageClassification : ImageClassification :=
  {| predictedLabel := Some "unknown"; ic_confidence := n0;
     mappedCategory := Some "Other"; allPredictions := [] |}.

(** The keywords of [fallbackTextClassification], in the order of the
    object literal. *)
Definition keywords : list (string * list string) :=
  [ ("Garbage", ["garbage"; "trash"; "waste"; "litter"; "dirty"; "smell"]);
    ("Road Damage", ["pothole"; "road"; "crack"; "broken"; "damage"; "hole"]);
    ("Streetlight Issue", ["light"; "streetlight"; "dark"; "lamp"; "no light"]);
    ("Water Leakage", ["water"; "leak"; "pipe"; "tap"; "overflow"]);
    ("Drainage", ["drain"; "sewer"; "clog"; "flood"; "water logging"]) ].

Definition initial_scores : list (string * number) :=
  [ ("Garbage", n0); ("Road Damage", n0); ("Streetlight Issue", n0);
    ("Water Leakage", n0); ("Drainage", n0) ].

(** [scores[category]]: a missing property reads as undefined, which
    arithmetic turns into NaN. *)
Fixpoint score_of (scores : list (string * number)) (category : string) : number :=
  match scores with
  | [] => NaN
  | (k, v) :: rest => if String.eqb k category then v else score_of rest category
  end.

(** [scores[category] += x]. *)
Fixpoint add_to (scores : list (string * number)) (category : string) (x : number)
  : list (string * number) :=
  match scores with
  | [] => [(category, add NaN x)]
  | (k, v) :: rest =>
      if String.eqb k category then (k, add v x) :: rest
      else (k, v) :: add_to rest category x
  end.

(** The inner loop of [fallbackTextClassification]. *)
Definition count_words (lowerText category : string)
  (scores : list (string * number)) (words : list string) : list (string * number) :=
  fold_left
    (fun scores word =>
       if Str.includes lowerText word then add_to scores category n0_2 else scores)
    words scores.

Record Tally : Type := {
  tally_scores : list (string * number);
  maxScore : number;
  maxCategory : string
}.

(** One iteration of the outer loop. *)
Definition tally_step (lowerText : string) (t : Tally) (entry : string * list string)
  : Tally :=
  let '(category, words) := entry in
  let scores := count_words lowerText category (tally_scores t) words in
  if gt (score_of scores category) (maxScore t)
  then {| tally_scores := scores;
          maxScore := score_of scores category;
          maxCategory := category |}
  else {| tally_scores := scores;
          maxScore := maxScore t;
          maxCategory := maxCategory t |}.

(** Fallback text classification (keyword-based).  [text] is absent when the
    caller passed undefined, and [text.toLowerCase()] then raises. *)
Definition fallbackTextClassification (text : option string)
  : outcome TextClassification :=
  match text with
  | None => Thrown "Cannot read properties of undefined (reading 'toLowerCase')"
  | Some text =>
      let lowerText := Str.toLowerCase text in
      let t :=
        fold_left (tally_step lowerText) keywords
          {| tally_scores := initial_scores; maxScore := n0; maxCategory := "Other" |} in
      Returned
        {| predictedCategory :=
             Some (if gt (maxScore t) n0 then maxCategory t else "Other");
           tc_confidence := min (maxScore t) n1;
           scores := tally_scores t |}
  end.

(** [scores[label] = v] on an object: an own property is overwritten in
    place, a new one is added last. *)
Fixpoint put (scores : list (string * number)) (label : string) (v : number)
  : list (string * number) :=
  match scores with
  | [] => [(label, v)]
  | (k, w) :: rest =>
      if String.eqb k label then (k, v) :: rest else (k, w) :: put rest label v
  end.

(** What the zero-shot pipeline answers for the five candidate labels: the
    labels with their scores, best first. *)
Definition ZeroShot : Type := ((string * number) * list (string * number))%type.

(** [classifyText(text)].  [transformers] is what [safeRequire] returned:
    nothing, or the library, seen as the zero-shot classifier it builds. *)
Definition classifyText
  (transformers : option (option string -> outcome ZeroShot))
  (text : option string) : outcome TextClassification :=
  match transformers with
  | None => fallbackTextClassification text
  | Some classifier =>
      match classifier text with
      | Thrown _ => fallbackTextClassification text
      | Returned (first, others) =>
          Returned
            {| predictedCategory := Some (fst first);
               tc_confidence := snd first;
               scores :=
                 fold_left (fun scores '(label, v) => put scores label v)
                   (first :: others) [] |}
      end
  end.

Record Prediction : Type := {
  className : string;
  probability : number
}.

Record ImageMatch : Type := {
  im_category : string;
  im_confidence : number;
  im_label : string
}.

(** The loop over the keywords of one category: the first keyword the label
    includes decides, and ends the loop. *)
Fixpoint match_keywords (pred : Prediction) (lowerLabel category : string)
  (keywords : list string) (bestMatch : ImageMatch) : ImageMatch :=
  match keywords with
  | [] => bestMatch
  | keyword :: rest =>
      if Str.includes lowerLabel keyword then
        if gt (probability pred) (im_confidence bestMatch)
        then {| im_category := category;
                im_confidence := probability pred;
                im_label := className pred |}
        else bestMatch
      else match_keywords pred lowerLabel category rest bestMatch
  end.

(** The loop over the categories, for one prediction. *)
Definition match_prediction (bestMatch : ImageMatch) (pred : Prediction) : ImageMatch :=
  let lowerLabel := Str.toLowerCase (className pred) in
  fold_left
    (fun bestMatch '(category, keywords) =>
       match_keywords pred lowerLabel category keywords bestMatch)
    CATEGORY_MAPPING bestMatch.

(** [predictions[0]?.className || "unknown"]. *)
Definition first_label (predictions : list Prediction) : string :=
  match predictions with
  | [] => "unknown"
  | p :: _ => if String.eqb (className p) "" then "unknown" else className p
  end.

Definition map_predictions (predictions : list Prediction) : ImageClassification :=
  let bestMatch :=
    fold_left match_prediction predictions
      {| im_category := "Other"; im_confidence := n0;
         im_label := first_label predictions |} in
  {| predictedLabel := Some (im_label bestMatch);
     ic_confidence := im_confidence bestMatch;
     mappedCategory := Some (im_category bestMatch);
     allPredictions := map (fun p => (className p, probability p)) predictions |}.

(** [classifyImage(imagePath)].  [mobilenet] is nothing when TensorFlow or
    MobileNet is not installed, else the loaded model, seen as its
    [classify]. *)
Definition classifyImage
  (mobilenet : option (string -> outcome (list Prediction)))
  (imagePath : string) : ImageClassification :=
  match mobilenet with
  | None => fallbackImageClassification
  | Some classify =>
      match classify imagePath with
      | Thrown _ => fallbackImageClassification
      | Returned predictions => map_predictions predictions
      end
  end.

Local Close Scope string_scope.

(** ** Vocabulary of the selection loops *)

(** The pattern of the selection loops of the service: an item that passes
    [ok] and scores strictly more than the best so far replaces it. *)
Definition keep_best {A B : Type} (ok : A -> bool) (f : A -> number)
  (g : B -> number) (h : A -> B) (best : B) (x : A) : B :=
  if ok x then if gt (f x) (g best) then h x else best else best.

(** How many of [words] occur in the text. *)
Definition hits (lowerText : string) (words : list string) : nat :=
  List.length (filter (Str.includes lowerText) words).

(** The score of a category with [k] of its keywords in the text. *)
Definition keyword_score (k : nat) : number :=
  Nat.iter k (fun score => add score n0_2) n0.

(** A text of ASCII characters only: on such a text [Str.toLowerCase] is
    the lower-casing of the code. *)
Fixpoint ascii_text (text : string) : bool :=
  match text with
  | EmptyString => true
  | String c rest => (nat_of_ascii c <? 128)%nat && ascii_text rest
  end.

(** Some keyword of the table occurs in the text. *)
Definition mentions_keyword (lowerText : string)
  (table : list (string * list string)) : bool :=
  existsb (fun entry => existsb (Str.includes lowerText) (snd entry)) table.

(** The first category of [CATEGORY_MAPPING] with a keyword in the label. *)
Definition first_category (label : string) : option string :=
  option_map fst
    (find (fun entry => existsb (Str.includes (Str.toLowerCase label)) (snd entry))
       CATEGORY_MAPPING).

(** ** The routes with the classifiers of the service *)

Local Open Scope string_scope.

(** The library [safeRequire] looks for, seen as the two pipelines the
    service builds from it. *)
Record Transformers : Type := {
  zero_shot_classification : option string -> outcome ZeroShot;
  feature_extraction : option string -> outcome vec
}.

(** POST /api/complaints, with [classifyImage] and [classifyText] as the
    service defines them. *)
Definition complaints_post
  (mobilenet : option (string -> outcome (list Prediction)))
  (transformers : option Transformers)
  (find_recent : list Complaint -> outcome (list Complaint))
  (countDocuments : list Complaint -> option string -> outcome N)
  (create : list Complaint -> ComplaintInput -> outcome Complaint)
  (body : Body) (store : list Complaint) : Response * list Complaint :=
  post_complaint
    (fun imagePath => Returned (classifyImage mobilenet imagePath))
    (classifyText (option_map zero_shot_classification transformers))
    (option_map feature_extraction transformers)
    find_recent countDocuments create body store.

Inductive CheckJson : Type :=
| CheckRefused (message : string)
| CheckReport (report : StoredDuplicateCheck).

(** POST /api/complaints/duplicate-check. *)
Definition duplicate_check
  (transformers : option (option string -> outcome vec))
  (find_recent : list Complaint -> outcome (list Complaint))
  (description : option string) (store : list Complaint) : nat * CheckJson :=
  if is_some (str_or description None) then
    let result := detectDuplicate transformers (find_recent store) description in
    (200%nat,
     CheckReport
       {| sd_isDuplicate := isDuplicate result;
          sd_similarity := round (mul (similarity result) n100);
          sd_matchingComplaintId := matchingComplaint result;
          sd_matchedField := matchedField result |})
  else (400%nat, CheckRefused "Description required").

(** ** The pages (app.js) *)

Record Form : Type := {
  form_category : option string;
  form_description : option string;
  form_location : option string
}.

Inductive Flash : Type :=
| FlashDuplicate (message : option string) (similarity : option number)
    (matchingComplaint : option nat)
| FlashError (message : string).

(** [data.message], [data.similarity] and [data.matchingComplaint] of a
    parsed response. *)
Definition json_message (data : Json) : option string :=
  match data with
  | DuplicateWarning message _ _ _ => Some message
  | Submitted message _ _ => Some message
  | Failure message _ => Some message
  end.

Definition json_similarity (data : Json) : option number :=
  match data with
  | DuplicateWarning _ similarity _ _ => Some similarity
  | _ => None
  end.

Definition json_matchingComplaint (data : Json) : option nat :=
  match data with
  | DuplicateWarning _ _ matchingComplaint _ => matchingComplaint
  | _ => None
  end.

(** [response.ok]. *)
Definition response_ok (response : Response) : bool :=
  (200 <=? status response)%nat && (status response <=? 299)%nat.

(** What a request to a page answers: where it redirects, and the flash
    messages it leaves. *)
Record Redirect : Type := {
  target : string;
  flashed : list Flash
}.

(** POST /report.  [fetch] is the call to the complaint API: its response
    and the collection afterwards, or the error it raised; [file] is the
    name of the uploaded file. *)
Definition report
  (fetch : Body -> list Complaint -> outcome (Response * list Complaint))
  (form : Form) (file : option string) (store : list Complaint)
  : Redirect * list Complaint :=
  let body :=
    {| body_category := form_category form;
       body_description := form_description form;
       body_location := form_location form;
       body_image := file;
       body_createdBy := Some "Vanshika" |} in
  match fetch body store with
  | Thrown _ =>
      ({| target := "/report";
          flashed := [FlashError "Error submitting complaint"] |}, store)
  | Returned (response, store') =>
      let data := json response in
      if response_ok response then
        ({| target := "/complaints"; flashed := [] |}, store')
      else if Nat.eqb (status response) 409 then
        ({| target := "/report";
            flashed :=
              [FlashDuplicate (json_message data) (json_similarity data)
                 (json_matchingComplaint data)] |}, store')
      else
        ({| target := "/report";
            flashed :=
              [FlashError (str_or_default (json_message data)
                             "Error submitting complaint")] |}, store')
  end.

(** GET /complaints: the complaints of the user and those of the others. *)
Definition complaints_page (store : list Complaint)
  : list Complaint * list Complaint :=
  (filter (fun c => String.eqb (createdBy c) "Vanshika") store,
   filter (fun c => negb (String.eqb (createdBy c) "Vanshika")) store).

Local Close Scope string_scope.

(** ** Examples for the classifiers, the listing and the pages *)

Local Open Scope string_scope.

(** A stored complaint with the given priority score. *)
Definition complaint_scored (id : nat) (s : number) : Complaint :=
  {| _id := id; image := None; category := "Other"; description := "";
     location := ""; createdBy := "Anonymous";
     imageClassification := no_image;
     textClassification :=
       {| predictedCategory := None; tc_confidence := n0; scores := [] |};
     embedding := None;
     aiDuplicateCheck :=
       {| sd_isDuplicate := false; sd_similarity := n0;
          sd_matchingComplaintId := None; sd_matchedField := None |};
     priorityScore := s;
     priorityBreakdown :=
       {| complaintCountScore := n0; timePendingScore := n0;
          areaWeightScore := n0; categoryMultiplier := VNum n1 |};
     aiSeverityLevel := severity_of_final s; aiReasoning := []; createdAt := 0 |}.

(** A listing in descending order of score, with one complaint in each
    group. *)
Definition listing_sorted : list Complaint :=
  [ complaint_scored 1 (of_Z 90); complaint_scored 2 (of_Z 70);
    complaint_scored 3 n50; complaint_scored 4 n10 ].

(** Three predictions: the second and the third share the highest
    probability, and the label of the second holds keywords of two
    categories. *)
Definition predictions_street : list Prediction :=
  [ {| className := "traffic sign"; probability := lit 9 10 |};
    {| className := "Streetlight"; probability := lit 6 10 |};
    {| className := "garbage truck"; probability := lit 6 10 |} ].

Definition classify_street : string -> outcome (list Prediction) :=
  fun _ => Returned predictions_street.

(** Two requests and a form: one request without a category, one without a
    description. *)
Definition body_without_category : Body :=
  {| body_category := None;
     body_description := Some "Garbage dumped near the drain";
     body_location := Some "Ward 4"; body_image := Some "1.jpg";
     body_createdBy := None |}.

Definition body_without_description : Body :=
  {| body_category := Some "Garbage"; body_description := None;
     body_location := Some "Ward 4"; body_image := Some "1.jpg";
     body_createdBy := None |}.

Definition form_complete : Form :=
  {| form_category := Some "Garbage";
     form_description := Some "bins overflow";
     form_location := Some "Ward 4" |}.

Local Close Scope string_scope.

(** ** The authentication routes (routes/auth.routes.js) *)

Local Open Scope string_scope.

Record User : Type := {
  user_id : nat;
  user_email : string;
  user_name : option string;
  user_password : string
}.

Record AuthResponse : Type := {
  auth_status : nat;
  auth_message : string;
  auth_user : option User;
  auth_token : option string;   (* the token of the body *)
  auth_cookie : option string   (* the cookie "token" the response sets *)
}.

(** [userModel.findOne({email})]: the first user with this email. *)
Definition findOne (users : list User) (email : string) : option User :=
  find (fun u => String.eqb (user_email u) email) users.

Section AuthRoutes.

(** The collaborators: the MD5 digest in hexadecimal, the signature of a
    token over an identifier and an optional email, and the insertion of
    the user model. *)
Variable md5 : string -> string.
Variable sign : nat -> option string -> string.
Variable create_user :
  list User -> string -> string -> option string -> outcome User.

(** POST /api/auth/register on the collection [users], for a request that
    carries a password: the response and the collection afterwards, or the
    error that escapes the handler. *)
Definition register (email : string) (name : option string) (password : string)
  (users : list User) : outcome (AuthResponse * list User) :=
  match findOne users email with
  | Some _ =>
      Returned
        ({| auth_status := 400;
            auth_message := "user with this email already existed";
            auth_user := None; auth_token := None; auth_cookie := None |}, users)
  | None =>
      let hash := md5 password in
      match create_user users email hash name with
      | Thrown message => Thrown message
      | Returned user =>
          let token := sign (user_id user) (Some (user_email user)) in
          Returned
            ({| auth_status := 201; auth_message := "user registerd";
                auth_user := Some user; auth_token := Some token;
                auth_cookie := Some token |}, (users ++ [user])%list)
      end
  end.

(** POST /api/auth/login, for a request that carries a password.  (With
    none, the digest raises once a user is found, and the error escapes the
    handler.) *)
Definition login (email : string) (password : string) (users : list User)
  : AuthResponse :=
  match findOne users email with
  | None =>
      {| auth_status := 404;
         auth_message := "user not found with this email address";
         auth_user := None; auth_token := None; auth_cookie := None |}
  | Some user =>
      if String.eqb (user_password user) (md5 password) then
        {| auth_status := 200; auth_message := "login successfull";
           auth_user := Some user; auth_token := None;
           auth_cookie := Some (sign (user_id user) None) |}
      else
        {| auth_status := 401; auth_message := "Invaild password";
           auth_user := None; auth_token := None; auth_cookie := None |}
  end.

End AuthRoutes.

(** A user model that stores what it is given under a fresh identifier, a
    digest and a signature, for the examples. *)
Definition create_plain (users : list User) (email hash : string)
  (name : option string) : outcome User :=
  Returned
    {| user_id := S (List.length users); user_email := email;
       user_name := name; user_password := hash |}.

Definition md5_example (password : string) : string := "md5:" ++ password.

Definition sign_example (id : nat) (email : option string) : string :=
  match email with
  | Some e => "token for " ++ e
  | None => "token"
  end.

Local Close Scope string_scope.

(** The user and the response of a first registration with the user model
    of the examples. *)
Definition registered_user : User :=
  {| user_id := 1; user_email := "a@b.c"; user_name := None;
     user_password := "md5:secret" |}.

Definition registered_response : AuthResponse :=
  {| auth_status := 201; auth_message := "user registerd";
     auth_user := Some registered_user;
     auth_token := Some "token for a@b.c"%string;
     auth_cookie := Some "token for a@b.c"%string |}.

(** A second registration, under another email, and the answer to a
    registration under the email of the first. *)
Definition second_user : User :=
  {| user_id := 2; user_email := "d@e.f"; user_name := Some "D"%string;
     user_password := "md5:hidden" |}.

Definition second_response : AuthResponse :=
  {| auth_status := 201; auth_message := "user registerd";
     auth_user := Some second_user;
     auth_token := Some "token for d@e.f"%string;
     auth_cookie := Some "token for d@e.f"%string |}.

Definition refused_response : AuthResponse :=
  {| auth_status := 400;
     auth_message := "user with this email already existed";
     auth_user := None; auth_token := None; auth_cookie := None |}.

(** * Properties *)

(** ** The order of numbers

    [SFcompare] orders the numbers that are not NaN as the lexicographic
    order of a class, an exponent and a mantissa; the comparison lemmas the
    claims need follow from that reading by linear arithmetic. *)

Module NumFacts.

Lemma SFcompare_lex (x y : number) :
  is_nan x = false -> is_nan y = false ->
  SFcompare x y = Some (lex (key x) (key y)).
Proof.
  destruct x as [sx|sx| |sx mx ex], y as [sy|sy| |sy my ey];
    try discriminate; intros _ _;
    try (destruct sx); try (destruct sy); try reflexivity.
  cbn [SFcompare key lex]. rewrite Z.compare_opp.
  rewrite (Z.compare_antisym ex ey).
  destruct (ex ?= ey); reflexivity.
Qed.

Lemma lex_Lt (a1 a2 a3 b1 b2 b3 : Z) :
  lex (a1, a2, a3) (b1, b2, b3) = Lt <->
  a1 < b1 \/ (a1 = b1 /\ (a2 < b2 \/ (a2 = b2 /\ a3 < b3))).
Proof.
  unfold lex.
  destruct (Z.compare_spec a1 b1), (Z.compare_spec a2 b2), (Z.compare_spec a3 b3);
    split; intros H'; try discriminate; try reflexivity; lia.
Qed.

Lemma lex_Eq (a1 a2 a3 b1 b2 b3 : Z) :
  lex (a1, a2, a3) (b1, b2, b3) = Eq <-> a1 = b1 /\ a2 = b2 /\ a3 = b3.
Proof.
  unfold lex.
  destruct (Z.compare_spec a1 b1), (Z.compare_spec a2 b2), (Z.compare_spec a3 b3);
    split; intros H'; try discriminate; try reflexivity; lia.
Qed.

Lemma lex_Gt (a1 a2 a3 b1 b2 b3 : Z) :
  lex (a1, a2, a3) (b1, b2, b3) = Gt <->
  b1 < a1 \/ (a1 = b1 /\ (b2 < a2 \/ (a2 = b2 /\ b3 < a3))).
Proof.
  unfold lex.
  destruct (Z.compare_spec a1 b1), (Z.compare_spec a2 b2), (Z.compare_spec a3 b3);
    split; intros H'; try discriminate; try reflexivity; lia.
Qed.

Lemma lt_spec (x y : number) :
  lt x y = true <-> is_nan x = false /\ is_nan y = false /\ klt (key x) (key y).
Proof.
  unfold lt, SFltb.
  destruct (is_nan x) eqn:Hx; [destruct x; try discriminate; cbn; intuition discriminate|].
  destruct (is_nan y) eqn:Hy;
    [destruct y; try discriminate; destruct x; cbn; intuition discriminate|].
  rewrite (SFcompare_lex x y Hx Hy).
  destruct (key x) as [[a1 a2] a3], (key y) as [[b1 b2] b3]. unfold klt.
  rewrite <- lex_Lt.
  destruct (lex (a1, a2, a3) (b1, b2, b3)); intuition discriminate.
Qed.

Lemma gt_spec (x y : number) :
  gt x y = true <-> is_nan x = false /\ is_nan y = false /\ klt (key y) (key x).
Proof. unfold gt. change (SFltb y x) with (lt y x). rewrite lt_spec. tauto. Qed.

Lemma ge_spec (x y : number) :
  ge x y = true <-> is_nan x = false /\ is_nan y = false /\ kle (key y) (key x).
Proof.
  unfold ge, SFleb.
  destruct (is_nan x) eqn:Hx;
    [destruct x; try discriminate; destruct y; cbn; intuition discriminate|].
  destruct (is_nan y) eqn:Hy; [destruct y; try discriminate; cbn; intuition discriminate|].
  rewrite (SFcompare_lex y x Hy Hx).
  destruct (key x) as [[a1 a2] a3], (key y) as [[b1 b2] b3]. unfold kle, klt.
  pose proof (lex_Lt b1 b2 b3 a1 a2 a3) as HL.
  pose proof (lex_Eq b1 b2 b3 a1 a2 a3) as HE.
  pose proof (lex_Gt b1 b2 b3 a1 a2 a3) as HG.
  destruct (lex (b1, b2, b3) (a1, a2, a3)).
  - split; [intros _|reflexivity]. repeat split.
    right. destruct HE as [HE _]. specialize (HE eq_refl). f_equal; [f_equal|]; lia.
  - split; [intros _|reflexivity]. repeat split. left. apply HL. reflexivity.
  - split; [discriminate|]. intros (_ & _ & [H|H]).
    + destruct HG as [HG _]. specialize (HG eq_refl). lia.
    + inversion H; subst. destruct HG as [HG _]. specialize (HG eq_refl). lia.
Qed.

(** On numbers that are not NaN, [x >= y] is the negation of [x < y]. *)
Lemma ge_negb_lt (x y : number) :
  is_nan x = false -> is_nan y = false -> ge x y = negb (lt x y).
Proof.
  intros Hx Hy.
  destruct (ge x y) eqn:G, (lt x y) eqn:L; try reflexivity; exfalso.
  - apply ge_spec in G. apply lt_spec in L.
    destruct G as (_ & _ & G), L as (_ & _ & L).
    unfold kle, klt in *. destruct (key x) as [[a1 a2] a3], (key y) as [[b1 b2] b3].
    destruct G as [G|G]; [lia|inversion G; subst; lia].
  - assert (G' : ge x y = true); [|congruence].
    apply ge_spec. repeat split; try assumption.
    assert (L' : ~ klt (key x) (key y)).
    { intros K. assert (lt x y = true) by (apply lt_spec; auto). congruence. }
    unfold kle, klt in *. destruct (key x) as [[a1 a2] a3], (key y) as [[b1 b2] b3].
    destruct (Z.eq_dec a1 b1), (Z.eq_dec a2 b2), (Z.eq_dec a3 b3); subst;
      try (right; reflexivity); left; lia.
Qed.

Lemma klt_trans (a b c : Z * Z * Z) : klt a b -> klt b c -> klt a c.
Proof.
  destruct a as [[a1 a2] a3], b as [[b1 b2] b3], c as [[c1 c2] c3].
  unfold klt. lia.
Qed.

Lemma klt_irrefl (a : Z * Z * Z) : ~ klt a a.
Proof. destruct a as [[a1 a2] a3]. unfold klt. lia. Qed.

Lemma klt_total (a b : Z * Z * Z) : klt a b \/ a = b \/ klt b a.
Proof.
  destruct a as [[a1 a2] a3], b as [[b1 b2] b3]. unfold klt.
  destruct (Z.eq_dec a1 b1), (Z.eq_dec a2 b2), (Z.eq_dec a3 b3); subst;
    try (right; left; reflexivity); lia.
Qed.

Lemma gt_trans (x y z : number) : gt x y = true -> gt y z = true -> gt x z = true.
Proof.
  rewrite !gt_spec. intros (? & ? & ?) (? & ? & ?). repeat split; auto.
  eapply klt_trans; eauto.
Qed.

Lemma gt_not_nan (x y : number) :
  gt x y = true -> is_nan x = false /\ is_nan y = false.
Proof. rewrite gt_spec. tauto. Qed.

Lemma not_klt_kle (a b : Z * Z * Z) : ~ klt a b -> kle b a.
Proof.
  intros N. unfold kle. destruct (klt_total a b) as [L|[L|L]]; auto.
  contradiction.
Qed.

Lemma kle_klt_trans (a b c : Z * Z * Z) : kle a b -> klt b c -> klt a c.
Proof. intros [L| ->] K; [eapply klt_trans; eauto|assumption]. Qed.

Lemma klt_kle_trans (a b c : Z * Z * Z) : klt a b -> kle b c -> klt a c.
Proof. intros K [L| <-]; [eapply klt_trans; eauto|assumption]. Qed.

(** [y <= x < z] gives [y < z]: here [y <= x] is read off a failed test
    [y > x] on a number [y] that is not NaN. *)
Lemma not_gt_gt_trans (x y z : number) :
  is_nan y = false -> gt y x = false -> gt z x = true -> gt z y = true.
Proof.
  intros Hy G Z'. apply gt_spec in Z'. destruct Z' as (Hz & Hx & K).
  assert (N : ~ klt (key x) (key y)).
  { intros K'. assert (gt y x = true) by (apply gt_spec; auto). congruence. }
  apply gt_spec. repeat split; auto.
  eapply kle_klt_trans; [apply not_klt_kle; eassumption|assumption].
Qed.

(** [t < y <= x] gives [t < x]. *)
Lemma gt_not_gt_trans (x y t : number) :
  is_nan x = false -> gt y x = false -> gt y t = true -> gt x t = true.
Proof.
  intros Hx G T. apply gt_spec in T. destruct T as (Hy & Ht & K).
  assert (N : ~ klt (key x) (key y)).
  { intros K'. assert (gt y x = true) by (apply gt_spec; auto). congruence. }
  apply gt_spec. repeat split; auto.
  eapply klt_kle_trans; [eassumption|apply not_klt_kle; assumption].
Qed.

Lemma ge_gt_trans (b s t : number) :
  ge b s = true -> gt s t = true -> gt b t = true.
Proof.
  rewrite ge_spec, !gt_spec. intros (Hb & Hs & K) (_ & Ht & L).
  repeat split; auto. eapply klt_kle_trans; eauto.
Qed.

Lemma lt_trans (x y z : number) : lt x y = true -> lt y z = true -> lt x z = true.
Proof.
  rewrite !lt_spec. intros (? & ? & ?) (? & ? & ?). repeat split; auto.
  eapply klt_trans; eauto.
Qed.

End NumFacts.

(** ** Rounding

    [shr] divides by a power of two and keeps the position of the remainder
    in two bits; reading those bits, [binary_round_aux] rounds to nearest,
    ties to even, and the rounding is monotone. *)

Lemma fexp_eq (d : Z) : fexp prec emax d = Z.max (d - 53) (-1074).
Proof. reflexivity. Qed.

Lemma digits2_size (m : positive) : digits2_pos m = Pos.size m.
Proof. induction m; simpl; congruence. Qed.

Lemma digits_log2 (m : positive) : Z.pos (digits2_pos m) = Z.log2 (Z.pos m) + 1.
Proof.
  rewrite digits2_size. destruct m; simpl; try reflexivity;
    rewrite Pos2Z.inj_succ; lia.
Qed.

Lemma shr_1_nonneg (m : Z) (r s : bool) :
  0 <= m ->
  shr_1 {| shr_m := m; shr_r := r; shr_s := s |}
  = {| shr_m := Z.div2 m; shr_r := Z.odd m; shr_s := r || s |}.
Proof.
  destruct m as [|[p|p|]|p]; intros H; try reflexivity. lia.
Qed.

Lemma enc_shr_1 (N D : Z) (mrs : shr_record) :
  0 < D -> enc N D mrs -> enc N (2 * D) (shr_1 mrs).
Proof.
  intros HD. destruct mrs as [m r s]. unfold enc. cbn [shr_m shr_r shr_s].
  intros (Hm & Hrem & Hr & Hs).
  rewrite (shr_1_nonneg m r s Hm). cbn [shr_m shr_r shr_s].
  pose proof (Z.div2_odd m) as Hd.
  assert (Hm' : 0 <= Z.div2 m) by (apply Z.div2_nonneg; assumption).
  assert (HX : D * m = 2 * (D * Z.div2 m) + D * Z.b2z (Z.odd m)).
  { rewrite Hd at 1. ring. }
  replace (2 * D * Z.div2 m) with (2 * (D * Z.div2 m)) by ring.
  rewrite HX in Hrem, Hr, Hs. set (X := D * Z.div2 m) in *.
  rewrite orb_true_iff, Hr, Hs.
  destruct (Z.odd m); cbn [Z.b2z] in *; repeat split; intros; try lia;
    try discriminate.
Qed.

Lemma pow2_xO (p : positive) : 2 ^ Z.pos p~0 = 2 ^ Z.pos p * 2 ^ Z.pos p.
Proof. change (Z.pos p~0) with (2 * Z.pos p). apply Z.pow_twice_r. Qed.

Lemma pow2_xI (p : positive) : 2 ^ Z.pos p~1 = 2 * (2 ^ Z.pos p * 2 ^ Z.pos p).
Proof.
  change (Z.pos p~1) with (2 * Z.pos p + 1).
  rewrite (Z.pow_add_r 2 (2 * Z.pos p) 1) by lia.
  rewrite Z.pow_twice_r. change (2 ^ 1) with 2. ring.
Qed.

Lemma enc_iter (N : Z) (p : positive) :
  forall (D : Z) (mrs : shr_record),
    0 < D -> enc N D mrs -> enc N (D * 2 ^ Z.pos p) (iter_pos shr_1 p mrs).
Proof.
  induction p as [p IH|p IH|]; intros D mrs HD H; cbn [iter_pos].
  - assert (H2 : 0 < 2 ^ Z.pos p) by (apply Z.pow_pos_nonneg; lia).
    replace (D * 2 ^ Z.pos p~1) with (2 * D * 2 ^ Z.pos p * 2 ^ Z.pos p)
      by (rewrite pow2_xI; ring).
    apply IH; [nia|]. apply IH; [lia|]. now apply enc_shr_1.
  - assert (H2 : 0 < 2 ^ Z.pos p) by (apply Z.pow_pos_nonneg; lia).
    replace (D * 2 ^ Z.pos p~0) with (D * 2 ^ Z.pos p * 2 ^ Z.pos p)
      by (rewrite pow2_xO; ring).
    apply IH; [nia|]. now apply IH.
  - change (2 ^ 1) with 2. replace (D * 2) with (2 * D) by ring.
    now apply enc_shr_1.
Qed.

Lemma enc_exact (N : Z) :
  0 <= N -> enc N 1 (shr_record_of_loc N loc_Exact).
Proof.
  intros H. unfold enc; cbn [shr_record_of_loc shr_m shr_r shr_s].
  repeat split; intros; first [lia | discriminate | exfalso; lia].
Qed.

(** The rounded mantissa read off a shift record. *)
Lemma enc_round (N D : Z) (mrs : shr_record) :
  0 < D -> enc N D mrs ->
  round_nearest_even (shr_m mrs) (loc_of_shr_record mrs) = rne N D.
Proof.
  intros HD. destruct mrs as [m r s]. unfold enc. cbn [shr_m shr_r shr_s].
  intros (Hm & Hrem & Hr & Hs).
  assert (Hq : N / D = m) by (symmetry; apply (Z.div_unique N D m (N - D * m)); lia).
  assert (Hmod : N mod D = N - D * m)
    by (symmetry; apply (Z.mod_unique N D m (N - D * m)); lia).
  unfold rne. rewrite Hq, Hmod.
  destruct (Z.compare_spec (2 * (N - D * m)) D) as [E|E|E];
    destruct r, s; cbn; try reflexivity;
    repeat match goal with
      | H : _ <-> _ |- _ => destruct H
      end; exfalso;
    try (assert (true = true) by reflexivity); try lia;
    try (assert (false = true) by (auto; lia); discriminate).
Qed.

Lemma rne_cases (N D : Z) :
  0 < D ->
  exists q r, N = D * q + r /\ 0 <= r < D /\ q = N / D /\
    ((2 * r < D /\ rne N D = q) \/
     (2 * r = D /\ (rne N D = q \/ rne N D = q + 1) /\ Z.even (rne N D) = true) \/
     (D < 2 * r /\ rne N D = q + 1)).
Proof.
  intros HD. exists (N / D), (N mod D).
  pose proof (Z.div_mod N D ltac:(lia)) as E.
  pose proof (Z.mod_pos_bound N D HD) as B.
  repeat split; try lia. unfold rne.
  destruct (Z.compare_spec (2 * (N mod D)) D) as [C|C|C].
  - right. left. split; [assumption|].
    destruct (Z.even (N / D)) eqn:Ev.
    + split; [left; reflexivity|assumption].
    + split; [right; reflexivity|].
      rewrite Z.even_add, Ev. reflexivity.
  - left. split; [assumption|reflexivity].
  - right. right. split; [assumption|reflexivity].
Qed.

Lemma rne_bounds (N D : Z) : 0 < D -> N / D <= rne N D <= N / D + 1.
Proof.
  intros HD. destruct (rne_cases N D HD) as (q & r & E & B & -> & C).
  destruct C as [[_ ->]|[(_ & [->| ->] & _)|[_ ->]]]; lia.
Qed.

Lemma rne_mono (N1 N2 D : Z) : 0 < D -> N1 <= N2 -> rne N1 D <= rne N2 D.
Proof.
  intros HD H.
  destruct (rne_cases N1 D HD) as (q1 & r1 & E1 & B1 & Q1 & C1).
  destruct (rne_cases N2 D HD) as (q2 & r2 & E2 & B2 & Q2 & C2).
  assert (Hq : q1 <= q2) by (rewrite Q1, Q2; apply Z.div_le_mono; assumption).
  clear Q1 Q2.
  destruct (Z.eq_dec q1 q2) as [<-|Ne].
  - assert (Hr : r1 <= r2) by lia.
    destruct C1 as [[L1 R1]|[(L1 & R1 & Ev1)|[L1 R1]]];
      destruct C2 as [[L2 R2]|[(L2 & R2 & Ev2)|[L2 R2]]]; try lia.
    destruct R1 as [R1|R1], R2 as [R2|R2]; try lia.
    exfalso. rewrite R1 in Ev1. rewrite R2 in Ev2.
    rewrite Z.even_add, Ev2 in Ev1. discriminate.
  - destruct C1 as [[L1 R1]|[(L1 & R1 & Ev1)|[L1 R1]]];
      destruct C2 as [[L2 R2]|[(L2 & R2 & Ev2)|[L2 R2]]]; lia.
Qed.

Lemma rne_scale (N D c : Z) : 0 < D -> 0 < c -> rne (N * c) (D * c) = rne N D.
Proof.
  intros HD Hc. unfold rne.
  rewrite Z.div_mul_cancel_r by lia.
  rewrite Z.mul_mod_distr_r by lia.
  replace (2 * (N mod D * c)) with (2 * (N mod D) * c) by ring.
  rewrite <- (Zmult_compare_compat_r (2 * (N mod D)) D c) by lia.
  reflexivity.
Qed.

Lemma rne_one (N : Z) : rne N 1 = N.
Proof. unfold rne. rewrite Z.mod_1_r, Z.div_1_r. reflexivity. Qed.

Lemma pow2_pos (k : Z) : 0 <= k -> 0 < 2 ^ k.
Proof. intros H. apply Z.pow_pos_nonneg; lia. Qed.

Lemma pow2_split (a b : Z) : 0 <= a -> 0 <= b -> 2 ^ (a + b) = 2 ^ a * 2 ^ b.
Proof. intros. apply Z.pow_add_r; assumption. Qed.

Lemma LD_spec (M : Z) : 0 < M -> 2 ^ (LD M - 1) <= M < 2 ^ LD M.
Proof.
  intros H. unfold LD. replace (Z.log2 M + 1 - 1) with (Z.log2 M) by lia.
  apply Z.log2_spec. assumption.
Qed.

Lemma LD_mul_pow2 (M k : Z) : 0 < M -> 0 <= k -> LD (M * 2 ^ k) = LD M + k.
Proof. intros HM Hk. unfold LD. rewrite Z.log2_mul_pow2 by assumption. lia. Qed.

Lemma LD_mono (M1 M2 : Z) : M1 <= M2 -> LD M1 <= LD M2.
Proof. intros H. unfold LD. pose proof (Z.log2_le_mono M1 M2 H). lia. Qed.

Lemma LD_lt_pow2 (M k : Z) : 0 < M -> (M < 2 ^ k <-> LD M <= k).
Proof.
  intros H. unfold LD. rewrite (Z.log2_lt_pow2 M k H). lia.
Qed.

Lemma LD_le_pow2 (M k : Z) : 0 < M -> (2 ^ k <= M <-> k < LD M).
Proof.
  intros H. unfold LD. rewrite (Z.log2_le_pow2 M k H). lia.
Qed.

Lemma Zdigits2_LD (m : positive) : Zdigits2 (Z.pos m) = LD (Z.pos m).
Proof. unfold LD. apply digits_log2. Qed.

Lemma fx_ge (d : Z) : -1074 <= fx d /\ d - 53 <= fx d.
Proof. unfold fx. lia. Qed.

(** The rounded mantissa has at most 53 digits, or is [2^53]. *)
Lemma rne_upper (X k : Z) :
  0 < X -> 0 <= k -> LD X <= 53 + k -> 0 <= rne X (2 ^ k) <= 2 ^ 53.
Proof.
  intros HX Hk Hd.
  pose proof (pow2_pos k Hk) as Hp.
  pose proof (rne_bounds X (2 ^ k) Hp) as [Hlo Hhi].
  pose proof (Z.div_pos X (2 ^ k) ltac:(lia) Hp) as Hq.
  split; [lia|].
  assert (X / 2 ^ k < 2 ^ 53); [|lia].
  apply Z.div_lt_upper_bound; [assumption|].
  rewrite <- pow2_split by lia.
  apply (LD_lt_pow2 X (k + 53) HX). lia.
Qed.

(** In the normal range the rounded mantissa has its top bit set. *)
Lemma rne_lower (X k : Z) :
  0 < X -> 0 <= k -> 53 + k <= LD X -> 2 ^ 52 <= rne X (2 ^ k).
Proof.
  intros HX Hk Hd.
  pose proof (pow2_pos k Hk) as Hp.
  pose proof (rne_bounds X (2 ^ k) Hp) as [Hlo Hhi].
  assert (2 ^ 52 <= X / 2 ^ k); [|lia].
  apply Z.div_le_lower_bound; [assumption|].
  rewrite <- pow2_split by lia.
  apply (LD_le_pow2 X (k + 52) HX). lia.
Qed.

Lemma shr_no_shift (mrs : shr_record) (e n : Z) : n <= 0 -> shr mrs e n = (mrs, e).
Proof. destruct n; intros H; try reflexivity; lia. Qed.

Lemma shr_fexp_exact (M : positive) (E : Z) :
  E <= fx (LD (Z.pos M) + E) ->
  exists mrs,
    shr_fexp prec emax (Z.pos M) E loc_Exact = (mrs, fx (LD (Z.pos M) + E)) /\
    enc (Z.pos M) (2 ^ (fx (LD (Z.pos M) + E) - E)) mrs.
Proof.
  intros H. unfold shr_fexp. rewrite fexp_eq. fold (fx (Zdigits2 (Z.pos M) + E)).
  rewrite Zdigits2_LD. set (e := fx (LD (Z.pos M) + E)) in *.
  destruct (e - E) as [|p|p] eqn:K; try lia.
  - exists (shr_record_of_loc (Z.pos M) loc_Exact). split.
    + cbn [shr]. f_equal. lia.
    + apply enc_exact. lia.
  - exists (iter_pos shr_1 p (shr_record_of_loc (Z.pos M) loc_Exact)). split.
    + cbn [shr]. f_equal. lia.
    + replace (2 ^ Z.pos p) with (1 * 2 ^ Z.pos p) by ring.
      apply enc_iter; [lia|]. apply enc_exact. lia.
Qed.

Lemma second_shift (m e : Z) :
  -1074 <= e -> 0 <= m <= 2 ^ 53 ->
  exists mrs e',
    shr_fexp prec emax m e loc_Exact = (mrs, e') /\
    (shr_m mrs, e') = carry m e.
Proof.
  intros He [Hm0 Hm]. unfold shr_fexp, carry. rewrite fexp_eq.
  destruct (Z.eqb_spec m (2 ^ 53)) as [->|Hne].
  - exists {| shr_m := 2 ^ 52; shr_r := false; shr_s := false |}, (e + 1).
    split; [|reflexivity].
    change (Zdigits2 (2 ^ 53)) with 54.
    replace (Z.max (54 + e - 53) (-1074) - e) with 1 by lia. reflexivity.
  - exists (shr_record_of_loc m loc_Exact), e. split; [|reflexivity].
    apply shr_no_shift.
    destruct m as [|p|p]; [cbn [Zdigits2]; lia| |lia].
    rewrite Zdigits2_LD.
    assert (LD (Z.pos p) <= 53) by (apply LD_lt_pow2; lia). lia.
Qed.

Lemma binary_round_aux_rnd (M : positive) (E : Z) :
  E <= fx (LD (Z.pos M) + E) ->
  binary_round_aux prec emax false (Z.pos M) E loc_Exact
  = to_float (rnd (Z.pos M) E).
Proof.
  intros H. unfold binary_round_aux.
  destruct (shr_fexp_exact M E H) as (mrs & -> & Henc).
  set (e := fx (LD (Z.pos M) + E)) in *.
  assert (He : -1074 <= e) by apply fx_ge.
  assert (Hk : 0 <= e - E) by lia.
  rewrite (enc_round _ _ _ (pow2_pos _ Hk) Henc).
  assert (Hm : 0 <= rne (Z.pos M) (2 ^ (e - E)) <= 2 ^ 53).
  { pose proof (fx_ge (LD (Z.pos M) + E)) as Hf. fold e in Hf.
    apply rne_upper; lia. }
  destruct (second_shift _ e He Hm) as (mrs2 & e2 & -> & Hc).
  unfold rnd. fold e. rewrite Z.min_l by lia.
  rewrite Z.sub_diag, Z.pow_0_r, Z.mul_1_r. rewrite <- Hc.
  unfold to_float. cbn [fst snd]. reflexivity.
Qed.

Lemma iter_xO (M d : positive) : Z.pos (Pos.iter xO M d) = Z.pos M * 2 ^ Z.pos d.
Proof.
  rewrite <- Z.shiftl_mul_pow2 by lia. cbn [Z.shiftl].
  apply (Pos.iter_swap_gen _ _ Z.pos xO (Z.mul 2)). reflexivity.
Qed.

Lemma binary_round_rnd (M : positive) (E : Z) :
  binary_round prec emax false M E = to_float (rnd (Z.pos M) E).
Proof.
  unfold binary_round, shl_align. rewrite fexp_eq.
  fold (fx (Z.pos (digits2_pos M) + E)).
  change (Z.pos (digits2_pos M)) with (Zdigits2 (Z.pos M)). rewrite Zdigits2_LD.
  set (e := fx (LD (Z.pos M) + E)).
  destruct (e - E) as [|p|p] eqn:K.
  - apply binary_round_aux_rnd. fold e. lia.
  - apply binary_round_aux_rnd. fold e. lia.
  - assert (HL : LD (Z.pos (Pos.iter xO M p)) + e = LD (Z.pos M) + E).
    { rewrite iter_xO, LD_mul_pow2 by lia. lia. }
    rewrite binary_round_aux_rnd by (rewrite HL; fold e; lia).
    f_equal. unfold rnd. rewrite HL. fold e.
    assert (Hlt : e < E) by lia.
    rewrite Z.min_id. rewrite (Z.min_r E e) by lia.
    rewrite Z.sub_diag, Z.pow_0_r, Z.mul_1_r, iter_xO.
    replace (E - e) with (Z.pos p); [reflexivity|].
    rewrite <- Pos2Z.opp_neg, <- K. ring.
Qed.

(** ** Monotonicity of rounding *)

(** [rnd] read on a common base [B] below every exponent in play. *)
Lemma rnd_base (M E B : Z) :
  0 < M -> B <= E -> B <= -1074 ->
  rnd M E
  = carry (rne (M * 2 ^ (E - B)) (2 ^ (fx (LD (M * 2 ^ (E - B)) + B) - B)))
          (fx (LD (M * 2 ^ (E - B)) + B)).
Proof.
  intros HM HB HB'. unfold rnd.
  rewrite LD_mul_pow2 by lia.
  replace (LD M + (E - B) + B) with (LD M + E) by lia.
  set (e := fx (LD M + E)).
  assert (He : -1074 <= e) by apply fx_ge.
  set (b := Z.min E e). assert (Hb : B <= b) by (unfold b; lia).
  assert (Hb1 : b <= E) by (unfold b; lia).
  assert (Hb2 : b <= e) by (unfold b; lia).
  f_equal.
  rewrite <- (rne_scale (M * 2 ^ (E - b)) (2 ^ (e - b)) (2 ^ (b - B)))
    by (apply pow2_pos; lia).
  rewrite <- Z.mul_assoc, <- !pow2_split by lia.
  replace (E - b + (b - B)) with (E - B) by lia.
  replace (e - b + (b - B)) with (e - B) by lia.
  reflexivity.
Qed.

Lemma to_float_le (m1 e1 m2 e2 : Z) :
  0 <= m1 -> 0 <= m2 ->
  m1 = 0 \/ (0 < m2 /\ (e1 < e2 \/ (e1 = e2 /\ m1 <= m2))) ->
  SFleb (to_float (m1, e1)) (to_float (m2, e2)) = true.
Proof.
  intros H1 H2 H. unfold to_float. cbn [fst snd].
  destruct m1 as [|p1|p1]; try lia.
  - destruct m2 as [|p2|p2]; try lia; [reflexivity|].
    destruct (e2 <=? 971); reflexivity.
  - destruct H as [H|(H2' & H)]; [discriminate|].
    destruct m2 as [|p2|p2]; try lia.
    destruct (Z.leb_spec e1 971), (Z.leb_spec e2 971); try reflexivity; try lia.
    unfold SFleb, SFcompare.
    destruct (Z.compare_spec e1 e2); try lia; try reflexivity.
    change (Pos.compare_cont Eq p1 p2) with (Pos.compare p1 p2).
    destruct (Pos.compare_spec p1 p2); try reflexivity. lia.
Qed.

(** Rounding is monotone: of two positive integers on a common base, the
    smaller rounds to the smaller number. *)
Lemma rnd_mono_base (X1 X2 B : Z) :
  0 < X1 -> X1 <= X2 -> B <= -1074 ->
  let e1 := fx (LD X1 + B) in
  let e2 := fx (LD X2 + B) in
  SFleb (to_float (carry (rne X1 (2 ^ (e1 - B))) e1))
        (to_float (carry (rne X2 (2 ^ (e2 - B))) e2)) = true.
Proof.
  intros H1 H12 HB e1 e2.
  assert (H2 : 0 < X2) by lia.
  pose proof (fx_ge (LD X1 + B)) as [F1 G1]. fold e1 in F1, G1.
  pose proof (fx_ge (LD X2 + B)) as [F2 G2]. fold e2 in F2, G2.
  pose proof (LD_mono X1 X2 H12) as HL.
  assert (He : e1 <= e2) by (unfold e1, e2, fx; lia).
  pose proof (rne_upper X1 (e1 - B) H1 ltac:(lia) ltac:(lia)) as [L1 U1].
  pose proof (rne_upper X2 (e2 - B) H2 ltac:(lia) ltac:(lia)) as [L2 U2].
  set (m1 := rne X1 (2 ^ (e1 - B))) in *.
  set (m2 := rne X2 (2 ^ (e2 - B))) in *.
  assert (Hcase : (e1 = e2 /\ m1 <= m2) \/ (e1 < e2 /\ 2 ^ 52 <= m2)).
  { destruct (Z.eq_dec e1 e2) as [Eq|Ne].
    - left. split; [assumption|]. unfold m1, m2. rewrite Eq.
      apply rne_mono; [apply pow2_pos; lia|assumption].
    - right. split; [lia|]. unfold m2. apply rne_lower; try lia.
      unfold e2, fx in *. lia. }
  assert (P52 : 2 ^ 52 = 4503599627370496) by reflexivity.
  assert (P53 : 2 ^ 53 = 9007199254740992) by reflexivity.
  unfold carry.
  destruct (Z.eqb_spec m1 (2 ^ 53)), (Z.eqb_spec m2 (2 ^ 53));
    apply to_float_le; lia.
Qed.

Lemma rnd_mono (M1 E1 M2 E2 b : Z) :
  0 < M1 -> 0 < M2 -> b <= E1 -> b <= E2 ->
  M1 * 2 ^ (E1 - b) <= M2 * 2 ^ (E2 - b) ->
  SFleb (to_float (rnd M1 E1)) (to_float (rnd M2 E2)) = true.
Proof.
  intros H1 H2 B1 B2 H.
  set (B := Z.min b (-1074)).
  assert (HB : B <= b) by (unfold B; lia).
  rewrite (rnd_base M1 E1 B), (rnd_base M2 E2 B) by (unfold B; lia).
  apply rnd_mono_base.
  - apply Z.mul_pos_pos; [assumption|apply pow2_pos; lia].
  - replace (E1 - B) with ((E1 - b) + (b - B)) by lia.
    replace (E2 - B) with ((E2 - b) + (b - B)) by lia.
    rewrite !pow2_split, !Z.mul_assoc by lia.
    apply Z.mul_le_mono_nonneg_r; [|assumption].
    apply Z.lt_le_incl, pow2_pos. lia.
  - unfold B. lia.
Qed.

(** ** Valid binary64 numbers *)

Lemma bounded_spec (m : positive) (e : Z) :
  bounded prec emax m e = true <-> fx (LD (Z.pos m) + e) = e /\ e <= 971.
Proof.
  unfold bounded, canonical_mantissa. rewrite fexp_eq.
  change (Z.pos (digits2_pos m)) with (Zdigits2 (Z.pos m)). rewrite Zdigits2_LD.
  fold (fx (LD (Z.pos m) + e)).
  rewrite andb_true_iff, Z.eqb_eq, Z.leb_le. reflexivity.
Qed.

(** A valid number is a fixed point of rounding. *)
Lemma rnd_valid_id (m : positive) (e : Z) :
  bounded prec emax m e = true ->
  to_float (rnd (Z.pos m) e) = S754_finite false m e.
Proof.
  rewrite bounded_spec. intros [Hc He]. unfold rnd. rewrite Hc, Z.min_id.
  rewrite Z.sub_diag, Z.pow_0_r, Z.mul_1_r, rne_one. unfold carry.
  assert (HL : LD (Z.pos m) <= 53) by (unfold fx in Hc; lia).
  apply LD_lt_pow2 in HL; [|lia].
  destruct (Z.eqb_spec (Z.pos m) (2 ^ 53)) as [E|_]; [lia|].
  unfold to_float. cbn [fst snd].
  destruct (Z.leb_spec e 971); [reflexivity|lia].
Qed.

(** Rounding returns a valid number that is not negative. *)
Lemma rnd_shape (M E : Z) :
  0 < M ->
  match to_float (rnd M E) with
  | S754_zero false => True
  | S754_infinity false => True
  | S754_finite false m e => bounded prec emax m e = true
  | _ => False
  end.
Proof.
  intros HM. rewrite (rnd_base M E (Z.min E (-1074))) by lia.
  set (B := Z.min E (-1074)). set (X := M * 2 ^ (E - B)).
  assert (HX : 0 < X) by (apply Z.mul_pos_pos; [assumption|apply pow2_pos; lia]).
  set (e := fx (LD X + B)).
  pose proof (fx_ge (LD X + B)) as [F G]. fold e in F, G.
  pose proof (rne_upper X (e - B) HX ltac:(lia) ltac:(lia)) as [L U].
  assert (Hn : -1074 < e -> 2 ^ 52 <= rne X (2 ^ (e - B))).
  { intros Hn. apply rne_lower; try lia. unfold e, fx in *. lia. }
  set (m := rne X (2 ^ (e - B))) in *.
  assert (P52 : 2 ^ 52 = 4503599627370496) by reflexivity.
  assert (P53 : 2 ^ 53 = 9007199254740992) by reflexivity.
  unfold carry. destruct (Z.eqb_spec m (2 ^ 53)) as [E53|N53].
  - unfold to_float. cbn [fst snd]. rewrite P52.
    destruct (Z.leb_spec (e + 1) 971); [|exact I].
    apply bounded_spec. split; [|assumption].
    change (LD 4503599627370496) with 53. unfold fx. lia.
  - unfold to_float. cbn [fst snd].
    destruct m as [|p|p]; [exact I| |lia].
    destruct (Z.leb_spec e 971); [|exact I].
    apply bounded_spec. split; [|assumption].
    assert (HL : LD (Z.pos p) <= 53) by (apply LD_lt_pow2; lia).
    destruct (Z.eq_dec e (-1074)) as [Em|Em].
    + unfold fx. lia.
    + assert (HL' : 52 < LD (Z.pos p)) by (apply LD_le_pow2; lia).
      unfold fx. lia.
Qed.

Lemma rnd_valid (M E : Z) :
  0 < M -> valid_binary prec emax (to_float (rnd M E)) = true.
Proof.
  intros HM. pose proof (rnd_shape M E HM) as H.
  destruct (to_float (rnd M E)) as [s|s| |s m e]; try reflexivity.
  destruct s; [contradiction|exact H].
Qed.

(** On valid positive numbers the order of numbers is the order of the
    values: here from the order to the values, on a common base. *)
Lemma valid_le_value (m1 : positive) (e1 : Z) (m2 : positive) (e2 b : Z) :
  bounded prec emax m1 e1 = true -> bounded prec emax m2 e2 = true ->
  SFleb (S754_finite false m1 e1) (S754_finite false m2 e2) = true ->
  b <= e1 -> b <= e2 ->
  Z.pos m1 * 2 ^ (e1 - b) <= Z.pos m2 * 2 ^ (e2 - b).
Proof.
  intros V1 V2 H B1 B2.
  destruct (Z.le_gt_cases (Z.pos m1 * 2 ^ (e1 - b)) (Z.pos m2 * 2 ^ (e2 - b)))
    as [Hle|Hgt]; [assumption|exfalso].
  assert (H' : SFleb (to_float (rnd (Z.pos m2) e2)) (to_float (rnd (Z.pos m1) e1)) = true).
  { apply (rnd_mono _ _ _ _ b); lia. }
  rewrite (rnd_valid_id _ _ V1), (rnd_valid_id _ _ V2) in H'.
  unfold SFleb, SFcompare in H, H'.
  assert (Ee : e1 = e2).
  { destruct (Z.compare_spec e1 e2); destruct (Z.compare_spec e2 e1);
      try lia; discriminate. }
  rewrite Ee, Z.compare_refl in H, H'.
  change (Pos.compare_cont Eq m1 m2) with (Pos.compare m1 m2) in H.
  change (Pos.compare_cont Eq m2 m1) with (Pos.compare m2 m1) in H'.
  assert (Em : m1 = m2).
  { destruct (Pos.compare_spec m1 m2); destruct (Pos.compare_spec m2 m1);
      try lia; try discriminate; assumption. }
  rewrite Ee, Em in Hgt. lia.
Qed.

Lemma rnd_nonneg (M E : Z) : 0 < M -> nonneg (to_float (rnd M E)).
Proof.
  intros HM. pose proof (rnd_shape M E HM) as H. unfold nonneg.
  destruct (to_float (rnd M E)) as [[]|[]| |[] m e]; tauto.
Qed.

Lemma nonneg_le_inf (x : number) : nonneg x -> SFleb x (S754_infinity false) = true.
Proof. destruct x as [[]|[]| |[] m e]; intros H; try contradiction; reflexivity. Qed.

Lemma positive_of_ge (x c : number) :
  nonneg x -> pos_finite c -> SFleb c x = true -> positive_number x.
Proof.
  destruct x as [[]|[]| |[] m e]; cbn; intros Hx; try contradiction; auto.
  destruct c as [[]|[]| |[] mc ec]; cbn; intros Hc; try contradiction. discriminate.
Qed.

Lemma mul_finite (mx : positive) (ex : Z) (mw : positive) (ew : Z) :
  53 <= LD (Z.pos mw) ->
  mul (S754_finite false mx ex) (S754_finite false mw ew)
  = to_float (rnd (Z.pos mx * Z.pos mw) (ex + ew)).
Proof.
  intros Hw. unfold mul, SFmul. cbn [xorb].
  change (Z.pos mx * Z.pos mw) with (Z.pos (mx * mw)).
  apply binary_round_aux_rnd.
  assert (HL : LD (Z.pos mw) <= LD (Z.pos (mx * mw))).
  { apply LD_mono. rewrite Pos2Z.inj_mul. nia. }
  pose proof (fx_ge (LD (Z.pos (mx * mw)) + (ex + ew))). lia.
Qed.

Lemma shl_align_fst (m : positive) (e z : Z) :
  z <= e -> Z.pos (fst (shl_align m e z)) = Z.pos m * 2 ^ (e - z).
Proof.
  intros H. unfold shl_align.
  destruct (z - e) as [|p|p] eqn:K; cbn [fst].
  - replace (e - z) with 0 by lia. rewrite Z.pow_0_r. lia.
  - lia.
  - rewrite iter_xO. replace (e - z) with (Z.pos p); [reflexivity|].
    rewrite <- Pos2Z.opp_neg, <- K. ring.
Qed.

Lemma add_finite (mx : positive) (ex : Z) (my : positive) (ey : Z) :
  add (S754_finite false mx ex) (S754_finite false my ey)
  = to_float (rnd (Z.pos mx * 2 ^ (ex - Z.min ex ey)
                   + Z.pos my * 2 ^ (ey - Z.min ex ey)) (Z.min ex ey)).
Proof.
  unfold add, SFadd. cbn [cond_Zopp].
  rewrite <- (shl_align_fst mx ex (Z.min ex ey)) by lia.
  rewrite <- (shl_align_fst my ey (Z.min ex ey)) by lia.
  set (a := fst (shl_align mx ex (Z.min ex ey))).
  set (b := fst (shl_align my ey (Z.min ex ey))).
  change (Z.pos a + Z.pos b) with (Z.pos (a + b)).
  cbn [binary_normalize]. apply binary_round_rnd.
Qed.

Lemma pow2_shift (e z b : Z) :
  b <= z -> z <= e -> 2 ^ (e - z) * 2 ^ (z - b) = 2 ^ (e - b).
Proof.
  intros H1 H2. rewrite <- pow2_split by lia. f_equal. lia.
Qed.

(** Multiplication by a positive constant with a full mantissa keeps the
    order. *)
Lemma mul_ge (x a w : number) :
  positive_number x -> pos_finite a -> normal w ->
  SFleb a x = true ->
  nonneg (mul x w) /\ SFleb (mul a w) (mul x w) = true.
Proof.
  destruct a as [[]|[]| |[] ma ea]; intros Hx Ha; try contradiction.
  destruct w as [[]|[]| |[] mw ew]; intros Hw; try contradiction.
  destruct Hw as [Hw Hn].
  rewrite (mul_finite ma ea mw ew Hn).
  assert (Hpos : 0 < Z.pos ma * Z.pos mw) by lia.
  destruct x as [[]|[]| |[] mx ex]; try contradiction; intros Hle.
  - split; [exact I|]. apply nonneg_le_inf. apply rnd_nonneg. assumption.
  - rewrite (mul_finite mx ex mw ew Hn).
    split; [apply rnd_nonneg; lia|].
    pose proof (valid_le_value ma ea mx ex (Z.min ea ex) Ha Hx Hle
                  ltac:(lia) ltac:(lia)) as Hv.
    apply (rnd_mono _ _ _ _ (Z.min ea ex + ew)); try lia.
    replace (ea + ew - (Z.min ea ex + ew)) with (ea - Z.min ea ex) by lia.
    replace (ex + ew - (Z.min ea ex + ew)) with (ex - Z.min ea ex) by lia.
    nia.
Qed.

Lemma mul_nonneg_normal (x w : number) :
  match x with
  | S754_zero false | S754_infinity false | S754_finite false _ _ => True
  | _ => False
  end ->
  normal w -> nonneg (mul x w).
Proof.
  destruct w as [[]|[]| |[] mw ew]; intros Hx Hw; try contradiction.
  destruct Hw as [Hw Hn].
  destruct x as [[]|[]| |[] mx ex]; try contradiction; try exact I.
  rewrite (mul_finite mx ex mw ew Hn). apply rnd_nonneg. lia.
Qed.

(** Addition keeps the order. *)
Lemma add_ge (x y a b : number) :
  positive_number x -> positive_number y -> pos_finite a -> pos_finite b ->
  SFleb a x = true -> SFleb b y = true ->
  nonneg (add x y) /\ SFleb (add a b) (add x y) = true.
Proof.
  destruct a as [[]|[]| |[] ma ea]; intros Hx Hy Ha; try contradiction.
  destruct b as [[]|[]| |[] mb eb]; intros Hb; try contradiction.
  rewrite (add_finite ma ea mb eb).
  set (za := Z.min ea eb).
  assert (Hpa : 0 < Z.pos ma * 2 ^ (ea - za) + Z.pos mb * 2 ^ (eb - za)).
  { pose proof (pow2_pos (ea - za) ltac:(lia)).
    pose proof (pow2_pos (eb - za) ltac:(lia)). nia. }
  destruct x as [[]|[]| |[] mx ex]; try contradiction;
    destruct y as [[]|[]| |[] my ey]; try contradiction; intros Hax Hby;
    try (split; [exact I|apply nonneg_le_inf, rnd_nonneg; assumption]).
  rewrite (add_finite mx ex my ey).
  set (zx := Z.min ex ey).
  assert (Hpx : 0 < Z.pos mx * 2 ^ (ex - zx) + Z.pos my * 2 ^ (ey - zx)).
  { pose proof (pow2_pos (ex - zx) ltac:(lia)).
    pose proof (pow2_pos (ey - zx) ltac:(lia)). nia. }
  split; [apply rnd_nonneg; assumption|].
  set (b0 := Z.min za zx).
  pose proof (valid_le_value ma ea mx ex b0 Ha Hx Hax ltac:(lia) ltac:(lia)) as V1.
  pose proof (valid_le_value mb eb my ey b0 Hb Hy Hby ltac:(lia) ltac:(lia)) as V2.
  apply (rnd_mono _ _ _ _ b0); try lia.
  rewrite !Z.mul_add_distr_r, <- !Z.mul_assoc.
  rewrite !pow2_shift by lia. lia.
Qed.

Lemma add_nonneg_ge (y b : number) :
  nonneg y -> pos_finite b ->
  nonneg (add y b) /\ SFleb b (add y b) = true.
Proof.
  destruct b as [[]|[]| |[] mb eb]; intros Hy Hb; try contradiction.
  assert (Hbb : SFleb (S754_finite false mb eb) (S754_finite false mb eb) = true).
  { unfold SFleb, SFcompare. rewrite Z.compare_refl.
    change (Pos.compare_cont Eq mb mb) with (Pos.compare mb mb).
    now rewrite Pos.compare_refl. }
  destruct y as [[]|[]| |[] my ey]; try contradiction.
  - split; [exact Hb|exact Hbb].
  - split; [exact I|reflexivity].
  - rewrite (add_finite my ey mb eb).
    set (z := Z.min ey eb).
    assert (Hp : 0 < Z.pos my * 2 ^ (ey - z) + Z.pos mb * 2 ^ (eb - z)).
    { pose proof (pow2_pos (ey - z) ltac:(lia)).
      pose proof (pow2_pos (eb - z) ltac:(lia)). nia. }
    split; [apply rnd_nonneg; assumption|].
    rewrite <- (rnd_valid_id mb eb Hb) at 1.
    apply (rnd_mono _ _ _ _ z); try lia.
    replace (z - z) with 0 by lia. rewrite Z.pow_0_r, Z.mul_1_r.
    pose proof (pow2_pos (ey - z) ltac:(lia)). nia.
Qed.

Lemma SFleb_trans (x y z : number) :
  SFleb x y = true -> SFleb y z = true -> SFleb x z = true.
Proof.
  change (ge y x = true -> ge z y = true -> ge z x = true).
  rewrite !NumFacts.ge_spec. intros (Hy & Hx & K1) (Hz & _ & K2).
  repeat split; auto.
  destruct K1 as [K1|K1], K2 as [K2|K2].
  - left. eapply NumFacts.klt_trans; eauto.
  - left. now rewrite <- K2.
  - left. now rewrite K1.
  - right. congruence.
Qed.

(** [Math.min(x, 100)] of a positive number that is at least [a]. *)
Lemma min_100 (x a : number) :
  positive_number x -> SFleb a x = true -> SFleb a n100 = true ->
  positive_number (min x n100) /\
  SFleb a (min x n100) = true /\ SFleb (min x n100) n100 = true.
Proof.
  intros Hx Hax Ha. unfold min.
  assert (H100 : positive_number n100) by reflexivity.
  destruct (SFcompare x n100) as [[]|] eqn:C.
  - assert (Hz : match x with S754_zero true => x | _ => n100 end = n100).
    { destruct x as [[]|[]| |[] m e]; try reflexivity; contradiction. }
    rewrite Hz. repeat split; auto.
  - repeat split; auto. unfold SFleb. now rewrite C.
  - repeat split; auto.
  - destruct x as [[]|[]| |[] m e]; try contradiction; discriminate.
Qed.

(** [Math.round] of a positive number that is at least 50. *)
Lemma round_ge50 (x : number) :
  positive_number x -> SFleb n50 x = true ->
  positive_number (round x) /\ SFleb n50 (round x) = true.
Proof.
  destruct x as [[]|[]| |[] m e]; cbn [positive_number]; intros Hx H;
    try contradiction.
  - split; [exact I|exact H].
  - unfold round. destruct (Z.leb_spec 0 e) as [He|He]; [split; assumption|].
    assert (Hv : 50 * 2 ^ (- e) <= Z.pos m).
    { pose proof (valid_le_value 7036874417766400 (-47) m e (e - 47)
                    ltac:(reflexivity) Hx H ltac:(lia) ltac:(lia)) as V.
      assert (Q1 : -47 - (e - 47) = - e) by lia.
      assert (Q2 : e - (e - 47) = 47) by lia.
      rewrite Q1, Q2 in V.
      pose proof (pow2_pos (- e) ltac:(lia)).
      assert (P47 : 2 ^ 47 = 140737488355328) by reflexivity.
      rewrite P47 in V. nia. }
    rewrite Z.shiftr_div_pow2 by lia.
    set (k := (2 * Z.pos m + 2 ^ (- e)) / 2 ^ (- e + 1)).
    assert (Hk : 50 <= k).
    { unfold k. apply Z.div_le_lower_bound; [apply pow2_pos; lia|].
      rewrite pow2_split by lia. change (2 ^ 1) with 2.
      pose proof (pow2_pos (- e) ltac:(lia)). nia. }
    destruct (Z.eqb_spec k 0) as [E0|_]; [lia|].
    unfold of_Z. destruct k as [|p|p]; try lia.
    cbn [binary_normalize]. rewrite binary_round_rnd.
    assert (Hle : SFleb n50 (to_float (rnd (Z.pos p) 0)) = true).
    { unfold n50.
      rewrite <- (rnd_valid_id 7036874417766400 (-47) ltac:(reflexivity)).
      apply (rnd_mono _ _ _ _ (-47)); lia. }
    split; [|exact Hle].
    apply (positive_of_ge _ n50); [apply rnd_nonneg; lia|reflexivity|exact Hle].
Qed.

(** ** Cosine similarity *)

Lemma cosineSimilarity_absent_left (vecB : vec) : cosineSimilarity None vecB = n0.
Proof. reflexivity. Qed.

Lemma cosineSimilarity_absent_right (vecA : vec) : cosineSimilarity vecA None = n0.
Proof. destruct vecA; reflexivity. Qed.

Lemma cosineSimilarity_length_mismatch (a b : list number) :
  List.length a <> List.length b -> cosineSimilarity (Some a) (Some b) = n0.
Proof.
  intros H. unfold cosineSimilarity.
  destruct (Nat.eqb (List.length a) (List.length b)) eqn:E.
  - apply Nat.eqb_eq in E. contradiction.
  - reflexivity.
Qed.

(** ** The scan of the recent complaints *)

Section Scan.

Variable newEmbedding : vec.

Local Abbreviation sim := (similarity_to newEmbedding).

Lemma scan_cons (c : Complaint) (rest : list Complaint) (b : BestMatch) :
  scan newEmbedding (c :: rest) b
  = scan newEmbedding rest (scan_step newEmbedding b c).
Proof. reflexivity. Qed.

(** What the scan returns, started from a best match [b0] whose similarity
    is not NaN: either [b0] itself, when no entry with an embedding beats it,
    or the first entry that attains the highest similarity above it. *)
Lemma scan_result (recent : list Complaint) (b0 : BestMatch) :
  is_nan (bm_similarity b0) = false ->
  (scan newEmbedding recent b0 = b0 /\
   forall c, In c recent -> usable c = true ->
             gt (sim c) (bm_similarity b0) = false)
  \/
  (exists pre c post,
      recent = pre ++ c :: post /\ usable c = true /\
      scan newEmbedding recent b0
      = {| bm_similarity := sim c; bm_complaint := Some c |} /\
      gt (sim c) (bm_similarity b0) = true /\
      (forall c', In c' pre -> usable c' = true -> is_nan (sim c') = false ->
                  gt (sim c) (sim c') = true) /\
      (forall c', In c' post -> usable c' = true -> gt (sim c') (sim c) = false)).
Proof.
  revert b0. induction recent as [|c0 rest IH]; intros b0 Hb0.
  - left. split; [reflexivity|]. intros c [].
  - rewrite scan_cons. unfold scan_step.
    destruct (no_embedding c0) eqn:Hne.
    + (* c0 carries no embedding: skipped *)
      destruct (IH b0 Hb0) as [[Hs Hall]|(pre & c & post & -> & Hu & Hs & Hgt & Hpre & Hpost)].
      * left. split; [assumption|].
        intros c [<-|Hin] Hc; [|now apply Hall].
        unfold usable in Hc. rewrite Hne in Hc. discriminate.
      * right. exists (c0 :: pre), c, post. repeat split; auto.
        intros c' [<-|Hin] Hc' Hn; [|now apply Hpre].
        unfold usable in Hc'. rewrite Hne in Hc'. discriminate.
    + fold (similarity_to newEmbedding c0).
      destruct (gt (sim c0) (bm_similarity b0)) eqn:Hc0.
      * (* c0 becomes the best match *)
        pose proof (NumFacts.gt_not_nan _ _ Hc0) as [Hn0 _].
        destruct (IH {| bm_similarity := sim c0; bm_complaint := Some c0 |} Hn0)
          as [[Hs Hall]|(pre & c & post & -> & Hu & Hs & Hgt & Hpre & Hpost)];
          cbn [bm_similarity] in *.
        -- right. exists [], c0, rest. repeat split; auto;
             first [ unfold usable; now rewrite Hne | intros c' [] ].
        -- right. exists (c0 :: pre), c, post. repeat split; auto;
             first [ eapply NumFacts.gt_trans; eassumption
                   | intros c' [<-|Hin] Hc' Hn; [assumption|now apply Hpre] ].
      * (* c0 does not beat the best match *)
        destruct (IH b0 Hb0) as [[Hs Hall]|(pre & c & post & -> & Hu & Hs & Hgt & Hpre & Hpost)].
        -- left. split; [assumption|].
           intros c [<-|Hin] Hc; [assumption|now apply Hall].
        -- right. exists (c0 :: pre), c, post. repeat split; auto.
           intros c' [<-|Hin] Hc' Hn; [|now apply Hpre].
           eapply NumFacts.not_gt_gt_trans; eauto.
Qed.

End Scan.

Lemma scan_app (newEmbedding : vec) (pre post : list Complaint) (b : BestMatch) :
  scan newEmbedding (pre ++ post) b
  = scan newEmbedding post (scan newEmbedding pre b).
Proof. unfold scan. apply fold_left_app. Qed.

Lemma detectDuplicate_loaded (extractor : option string -> outcome vec)
  (text : option string) (newEmbedding : vec) (recent : list Complaint) :
  extractor text = Returned newEmbedding ->
  detectDuplicate (Some extractor) (Returned recent) text
  = detectDuplicate_window newEmbedding recent.
Proof. intros H. unfold detectDuplicate. now rewrite H. Qed.

Lemma window_isDuplicate (newEmbedding : vec) (recent : list Complaint) :
  isDuplicate (detectDuplicate_window newEmbedding recent)
  = gt (bm_similarity (scan newEmbedding recent start)) DUPLICATE_THRESHOLD.
Proof.
  unfold detectDuplicate_window. destruct recent; reflexivity.
Qed.

(** The window holds a duplicate exactly when an entry with an embedding is
    more similar than the threshold. *)
Lemma window_isDuplicate_iff (newEmbedding : vec) (recent : list Complaint) :
  isDuplicate (detectDuplicate_window newEmbedding recent) = true <->
  exists c, In c recent /\ usable c = true /\
            gt (similarity_to newEmbedding c) DUPLICATE_THRESHOLD = true.
Proof.
  rewrite window_isDuplicate.
  assert (H0 : gt DUPLICATE_THRESHOLD n0 = true) by reflexivity.
  destruct (scan_result newEmbedding recent start eq_refl)
    as [[-> Hall]|(pre & c & post & -> & Hu & -> & Hgt & Hpre & Hpost)];
    cbn [bm_similarity start] in *.
  - split; [discriminate|]. intros (c & Hin & Hu & Hc). exfalso.
    specialize (Hall c Hin Hu).
    rewrite (NumFacts.gt_trans _ _ _ Hc H0) in Hall. discriminate.
  - split.
    + intros H. exists c. split; [apply in_elt|auto].
    + intros (c' & Hin & Hu' & Hc').
      pose proof (NumFacts.gt_not_nan _ _ Hc') as [Hn' _].
      pose proof (NumFacts.gt_not_nan _ _ Hgt) as [Hn _].
      apply in_app_or in Hin. destruct Hin as [Hin|[<-|Hin]].
      * eapply NumFacts.gt_trans; [apply (Hpre c' Hin Hu' Hn')|assumption].
      * assumption.
      * eapply NumFacts.gt_not_gt_trans; [exact Hn|apply (Hpost c' Hin Hu')|assumption].
Qed.

(** ** C3 *)

(** C3: [detectDuplicate] reports a duplicate if and only if the best
    similarity over the window is strictly greater than 0.85: some entry with
    an embedding is more similar than 0.85, which for a window with a best
    similarity [best] is the test [best > 0.85]; when the best similarity is
    exactly 0.85 the result has [isDuplicate = false]. *)
Theorem detectDuplicate_strict_threshold
  (extractor : option string -> outcome vec) (text : option string)
  (newEmbedding : vec) (recent : list Complaint) :
  extractor text = Returned newEmbedding ->
  let result := detectDuplicate (Some extractor) (Returned recent) text in
  (isDuplicate result = true <->
   exists c, In c recent /\ usable c = true /\
             gt (similarity_to newEmbedding c) n0_85 = true) /\
  (forall best, best_similarity newEmbedding recent best ->
                isDuplicate result = gt best n0_85) /\
  (best_similarity newEmbedding recent n0_85 -> isDuplicate result = false).
Proof.
  intros Hex result. unfold result. rewrite (detectDuplicate_loaded _ _ _ _ Hex).
  assert (Hbest : forall best, best_similarity newEmbedding recent best ->
            isDuplicate (detectDuplicate_window newEmbedding recent) = gt best n0_85).
  { intros best [(c & Hin & Hu & Hc) Hmax].
    destruct (gt best n0_85) eqn:Hb.
    - apply window_isDuplicate_iff. exists c. subst best. auto.
    - destruct (isDuplicate (detectDuplicate_window newEmbedding recent)) eqn:Hd;
        [|reflexivity].
      apply window_isDuplicate_iff in Hd. destruct Hd as (c' & Hin' & Hu' & Hc').
      pose proof (NumFacts.ge_gt_trans _ _ _ (Hmax c' Hin' Hu') Hc') as Hgt.
      unfold DUPLICATE_THRESHOLD in Hgt. congruence. }
  split; [apply window_isDuplicate_iff|]. split; [exact Hbest|].
  intros H. rewrite (Hbest _ H). reflexivity.
Qed.

Lemma detectDuplicate_strict_threshold_witness :
  isDuplicate
    (detectDuplicate (Some (constant_extractor candidate_e1))
       (Returned window_at_threshold) (Some "pothole on the main road"%string))
  = false.
Proof.
  apply (detectDuplicate_strict_threshold (constant_extractor candidate_e1)
           (Some "pothole on the main road"%string) candidate_e1
           window_at_threshold eq_refl).
  split.
  - exists (complaint_with 7 (Some [of_Z 17; n10; of_Z 3; n1; n1])).
    split; [left; reflexivity|]. split; vm_compute; reflexivity.
  - intros c [<-|[]] _. vm_compute. reflexivity.
Defined.

(** ** C4 *)

(** C4, as stated, fails: two empty vectors pass the guard (an empty array
    is truthy and the lengths agree), and the quotient 0 / (0 * 0) is NaN. *)
Lemma cosineSimilarity_both_empty_is_nan :
  ~ (forall vecA vecB : vec,
        absent vecA \/ empty vecA \/ absent vecB \/ empty vecB \/
        lengths_differ vecA vecB ->
        cosineSimilarity vecA vecB = n0).
Proof.
  intros H.
  specialize (H (Some []) (Some []) (or_intror (or_introl eq_refl))).
  vm_compute in H. discriminate.
Qed.

(** C4 (amended): when either vector is absent, or the two vectors have
    different lengths (so also when exactly one of them is empty),
    [cosineSimilarity] returns exactly 0; it is a total function, so no error
    is raised. *)
Theorem cosineSimilarity_absent_or_mismatch_is_zero (vecA vecB : vec) :
  absent vecA \/ absent vecB \/ lengths_differ vecA vecB ->
  cosineSimilarity vecA vecB = n0.
Proof.
  intros [->|[->|H]].
  - apply cosineSimilarity_absent_left.
  - apply cosineSimilarity_absent_right.
  - destruct vecA as [a|], vecB as [b|]; try contradiction.
    now apply cosineSimilarity_length_mismatch.
Qed.

Lemma cosineSimilarity_absent_or_mismatch_is_zero_witness :
  cosineSimilarity (Some []) (Some [n1; n2]) = n0.
Proof.
  apply (cosineSimilarity_absent_or_mismatch_is_zero (Some []) (Some [n1; n2])).
  right. right. simpl. discriminate.
Defined.

(** ** C5 *)

(** C5, as stated, fails: a window that is not empty and has no usable
    embedding is answered with [matchedField = "text"], not null. *)
Lemma detectDuplicate_no_embedding_matchedField_text :
  ~ (forall (extractor : option string -> outcome vec) (text : option string)
            (newEmbedding : vec) (recent : list Complaint),
        extractor text = Returned newEmbedding ->
        recent = [] \/ (forall c, In c recent -> usable c = false) ->
        detectDuplicate (Some extractor) (Returned recent) text = no_match).
Proof.
  intros H.
  specialize (H (constant_extractor candidate_1) None candidate_1
                window_without_embedding eq_refl).
  assert (E : detectDuplicate (Some (constant_extractor candidate_1))
                (Returned window_without_embedding) None = no_match).
  { apply H. right. intros c [<-|[]]. reflexivity. }
  vm_compute in E. discriminate.
Qed.

Lemma scan_no_usable (newEmbedding : vec) (recent : list Complaint) (b : BestMatch) :
  (forall c, In c recent -> usable c = false) ->
  scan newEmbedding recent b = b.
Proof.
  revert b. induction recent as [|c rest IH]; intros b H; [reflexivity|].
  rewrite scan_cons. unfold scan_step.
  assert (Hc : no_embedding c = true).
  { specialize (H c (or_introl eq_refl)). unfold usable in H.
    now destruct (no_embedding c). }
  rewrite Hc. apply IH. intros c' Hin. apply H. now right.
Qed.

(** C5 (amended): whenever the window is empty or no entry of it carries a
    usable embedding, the result is [{isDuplicate: false, similarity: 0,
    matchingComplaint: null}], with [matchedField] "text" when the library
    is loaded, the embedding of the new complaint was extracted and the
    window is not empty, and [matchedField] null in every other case: an
    empty window, a missing library, an extraction or a query that
    raised. *)
Theorem detectDuplicate_without_usable_embedding
  (transformers : option (option string -> outcome vec))
  (recentComplaints : outcome (list Complaint)) (text : option string) :
  (forall recent c,
      recentComplaints = Returned recent -> In c recent -> usable c = false) ->
  detectDuplicate transformers recentComplaints text
  = match transformers, recentComplaints with
    | Some extractor, Returned (_ :: _) =>
        match extractor text with
        | Returned _ => no_text_match
        | Thrown _ => no_match
        end
    | _, _ => no_match
    end.
Proof.
  intros H. unfold detectDuplicate.
  destruct transformers as [extractor|]; [|reflexivity].
  destruct (extractor text) as [newEmbedding|];
    [|destruct recentComplaints as [[|c rest]|]; reflexivity].
  destruct recentComplaints as [recent|]; [|reflexivity].
  unfold detectDuplicate_window.
  destruct recent as [|c rest]; [reflexivity|].
  cbn [List.length Nat.eqb]. fold start.
  rewrite scan_no_usable by exact (fun c0 => H _ c0 eq_refl). reflexivity.
Qed.

Lemma detectDuplicate_without_usable_embedding_witness :
  detectDuplicate (Some (constant_extractor candidate_1))
    (Returned window_without_embedding) None = no_text_match /\
  detectDuplicate None (Returned window_without_embedding) None = no_match.
Proof.
  split.
  - apply (detectDuplicate_without_usable_embedding
             (Some (constant_extractor candidate_1))
             (Returned window_without_embedding) None).
    intros recent c [= <-] [<-|[]]. reflexivity.
  - apply (detectDuplicate_without_usable_embedding None
             (Returned window_without_embedding) None).
    intros recent c [= <-] [<-|[]]. reflexivity.
Defined.

(** ** C9 *)

(** C9, as stated, fails: the only entry of the window has the highest
    similarity of the window, -1, and is not retained, because the scan
    starts from similarity 0 and keeps an entry only when it is strictly
    more similar than the best so far. *)
Lemma detectDuplicate_negative_best_not_retained :
  ~ (forall (extractor : option string -> outcome vec) (text : option string)
            (newEmbedding : vec) (pre post : list Complaint) (c : Complaint),
        extractor text = Returned newEmbedding ->
        usable c = true ->
        (forall c', In c' pre -> usable c' = true ->
              ge (similarity_to newEmbedding c') (similarity_to newEmbedding c) = false) ->
        (forall c', In c' post -> usable c' = true ->
              gt (similarity_to newEmbedding c') (similarity_to newEmbedding c) = false) ->
        matchingComplaint
          (detectDuplicate (Some extractor) (Returned (pre ++ c :: post)) text)
        = Some (_id c)).
Proof.
  intros H.
  specialize (H (constant_extractor candidate_1) None candidate_1 [] []
                (complaint_with 4 (Some [of_Z (-1)])) eq_refl eq_refl).
  assert (E : matchingComplaint
                (detectDuplicate (Some (constant_extractor candidate_1))
                   (Returned window_opposite) None) = Some 4%nat).
  { apply H; intros c' []. }
  vm_compute in E. discriminate.
Qed.

(** C9 (amended): [detectDuplicate] skips the entries without an embedding
    and reports the entry with the highest similarity to the candidate when
    that similarity is strictly positive, the first one in window order
    among those that attain it (every entry before it is strictly less
    similar, no entry after it is more similar); when no entry with an
    embedding has a strictly positive similarity, no match is reported and
    the similarity is 0. *)
Theorem detectDuplicate_first_best_match
  (extractor : option string -> outcome vec) (text : option string)
  (newEmbedding : vec) :
  extractor text = Returned newEmbedding ->
  (forall (pre post : list Complaint) (c : Complaint),
      usable c = true ->
      gt (similarity_to newEmbedding c) n0 = true ->
      (forall c', In c' pre -> usable c' = true ->
            ge (similarity_to newEmbedding c') (similarity_to newEmbedding c) = false) ->
      (forall c', In c' post -> usable c' = true ->
            gt (similarity_to newEmbedding c') (similarity_to newEmbedding c) = false) ->
      let result := detectDuplicate (Some extractor) (Returned (pre ++ c :: post)) text in
      matchingComplaint result = Some (_id c) /\
      similarity result = similarity_to newEmbedding c) /\
  (forall recent : list Complaint,
      (forall c, In c recent -> usable c = true ->
            gt (similarity_to newEmbedding c) n0 = false) ->
      let result := detectDuplicate (Some extractor) (Returned recent) text in
      matchingComplaint result = None /\ similarity result = n0).
Proof.
  intros Hex. split.
  - intros pre post c Hu Hpos Hpre Hpost result. unfold result.
    rewrite (detectDuplicate_loaded _ _ _ _ Hex). unfold detectDuplicate_window.
    replace (Nat.eqb (List.length (pre ++ c :: post)) 0) with false
      by (destruct pre; reflexivity).
    fold start. rewrite scan_app, scan_cons.
    pose proof (NumFacts.gt_not_nan _ _ Hpos) as [Hn _].
    assert (Hstep : scan_step newEmbedding (scan newEmbedding pre start) c
                    = {| bm_similarity := similarity_to newEmbedding c;
                         bm_complaint := Some c |}).
    { unfold scan_step. unfold usable in Hu.
      destruct (no_embedding c); [discriminate|].
      fold (similarity_to newEmbedding c).
      destruct (scan_result newEmbedding pre start eq_refl)
        as [[-> _]|(p1 & c1 & p2 & -> & Hu1 & -> & Hgt1 & _)]; cbn [bm_similarity start].
      - now rewrite Hpos.
      - pose proof (NumFacts.gt_not_nan _ _ Hgt1) as [Hn1 _].
        assert (Hlt : ge (similarity_to newEmbedding c1) (similarity_to newEmbedding c) = false).
        { apply Hpre; [apply in_elt|assumption]. }
        rewrite (NumFacts.ge_negb_lt _ _ Hn1 Hn) in Hlt.
        apply negb_false_iff in Hlt. unfold lt in Hlt. unfold gt. now rewrite Hlt. }
    rewrite Hstep.
    destruct (scan_result newEmbedding post
                {| bm_similarity := similarity_to newEmbedding c; bm_complaint := Some c |} Hn)
      as [[-> _]|(p1 & c1 & p2 & -> & Hu1 & _ & Hgt1 & _)]; cbn [bm_similarity] in *.
    + split; reflexivity.
    + exfalso. rewrite (Hpost c1) in Hgt1; [discriminate|apply in_elt|assumption].
  - intros recent Hnone result. unfold result.
    rewrite (detectDuplicate_loaded _ _ _ _ Hex). unfold detectDuplicate_window.
    destruct (Nat.eqb (List.length recent) 0); [split; reflexivity|].
    fold start.
    destruct (scan_result newEmbedding recent start eq_refl)
      as [[-> _]|(p1 & c1 & p2 & -> & Hu1 & _ & Hgt1 & _)]; cbn [bm_similarity start] in *.
    + split; reflexivity.
    + exfalso. rewrite (Hnone c1) in Hgt1; [discriminate|apply in_elt|assumption].
Qed.

Lemma detectDuplicate_first_best_match_witness :
  matchingComplaint
    (detectDuplicate (Some (constant_extractor candidate_1))
       (Returned (window_tie_before ++ window_tie_first :: window_tie_after)) None)
  = Some 2%nat.
Proof.
  apply (proj1 (detectDuplicate_first_best_match (constant_extractor candidate_1)
                  None candidate_1 eq_refl)
           window_tie_before window_tie_after window_tie_first).
  - reflexivity.
  - vm_compute. reflexivity.
  - intros c' [<-|[]] H. vm_compute in H. discriminate.
  - intros c' [<-|[]] _. vm_compute. reflexivity.
Defined.

(** ** C2 *)

Lemma severity_paths_agree (s : number) : severity_of_fallback s = severity_of_final s.
Proof. reflexivity. Qed.

Lemma calculatePriority_severity (category : option string)
  (count : outcome N) (options : Options) :
  severityLevel (calculatePriority category count options)
  = severity_of_final (score (calculatePriority category count options)).
Proof. destruct count; reflexivity. Qed.

(** The three comparisons a score that is not NaN is put through. *)
Lemma score_cuts (s : number) :
  is_nan s = false ->
  ge s n80 = negb (lt s n80) /\ ge s n60 = negb (lt s n60) /\
  ge s n40 = negb (lt s n40) /\
  (lt s n40 = true -> lt s n60 = true) /\ (lt s n60 = true -> lt s n80 = true).
Proof.
  intros Hs. repeat split; try (apply NumFacts.ge_negb_lt; [assumption|reflexivity]).
  - intros H. eapply NumFacts.lt_trans; [exact H|reflexivity].
  - intros H. eapply NumFacts.lt_trans; [exact H|reflexivity].
Qed.

Lemma in_level_severity (level : string) (s : number) :
  is_nan s = false ->
  (in_level level s = true <-> severity_of_final s = level).
Proof.
  intros Hs. destruct (score_cuts s Hs) as (E80 & E60 & E40 & M46 & M68).
  unfold in_level, severity_of_final. rewrite E80, E60, E40.
  destruct (lt s n40), (lt s n60), (lt s n80);
    try (specialize (M46 eq_refl); discriminate);
    try (specialize (M68 eq_refl); discriminate); cbn [negb andb];
    repeat match goal with
      | |- context [String.eqb level ?k] =>
          destruct (String.eqb_spec level k) as [->|?]; cbn
      end;
    split; intros Hx; first [reflexivity | discriminate | congruence].
Qed.

Lemma group_named_filter (complaints : list Complaint) (level : string) :
  group_named (group_by_severity complaints) level
  = filter (fun c => in_level level (priorityScore c)) complaints.
Proof.
  unfold group_named, in_level, group_by_severity; cbn.
  destruct (String.eqb level "critical"); [reflexivity|].
  destruct (String.eqb level "high"); [reflexivity|].
  destruct (String.eqb level "medium"); [reflexivity|].
  destruct (String.eqb level "low"); [reflexivity|].
  induction complaints; [reflexivity|assumption].
Qed.

(** A complaint the schema accepted has a score that is not NaN. *)
Lemma schema_valid_score (input : ComplaintInput) :
  schema_valid input = true -> is_nan (in_priorityScore input) = false.
Proof.
  unfold schema_valid. rewrite !andb_true_iff.
  intros (((((_ & _) & _) & H) & _) & _).
  apply NumFacts.ge_spec in H. apply H.
Qed.

Lemma created_score (now : Z) (store : list Complaint) (input : ComplaintInput)
  (c : Complaint) :
  schema_create now store input = Returned c -> is_nan (priorityScore c) = false.
Proof.
  unfold schema_create. destruct (schema_valid input) eqn:V; [|discriminate].
  intros [= <-]. cbn [priorityScore]. now apply schema_valid_score.
Qed.

(** C2: the severity level is a function of the final score alone, with the
    breakpoints 80, 60 and 40: on both paths of [calculatePriority] the
    returned level is that function of the returned score; a score of at
    least 80 is "critical", one in [60,80) "high", one in [40,60) "medium",
    one below 40 "low"; and the priority listing puts a stored complaint in
    the group named [level] exactly when that function maps its score to
    [level]. *)
Theorem severity_consistent_with_listing :
  (forall category count options,
      severityLevel (calculatePriority category count options)
      = severity_of_final (score (calculatePriority category count options))) /\
  (forall s,
      (ge s n80 = true -> severity_of_final s = "critical"%string) /\
      (ge s n60 = true -> lt s n80 = true -> severity_of_final s = "high"%string) /\
      (ge s n40 = true -> lt s n60 = true -> severity_of_final s = "medium"%string) /\
      (lt s n40 = true -> severity_of_final s = "low"%string)) /\
  (forall complaints c level,
      is_nan (priorityScore c) = false ->
      (In c (group_named (group_by_severity complaints) level) <->
       In c complaints /\ severity_of_final (priorityScore c) = level)).
Proof.
  split; [exact calculatePriority_severity|]. split.
  - intros s.
    assert (Hlt : forall t, lt s t = true -> is_nan s = false).
    { intros t H. apply NumFacts.lt_spec in H. apply H. }
    repeat split.
    + intros H. unfold severity_of_final. now rewrite H.
    + intros H6 H8. apply in_level_severity; [eauto|].
      unfold in_level; cbn. now rewrite H6, H8.
    + intros H4 H6. apply in_level_severity; [eauto|].
      unfold in_level; cbn. now rewrite H4, H6.
    + intros H4. apply in_level_severity; [eauto|].
      unfold in_level; cbn. exact H4.
  - intros complaints c level Hs.
    rewrite group_named_filter, filter_In, (in_level_severity level _ Hs). tauto.
Qed.

Lemma severity_consistent_with_listing_witness :
  In (complaint_with 7 None)
     (group_named (group_by_severity [complaint_with 7 None]) "medium").
Proof.
  apply (proj2 (proj2 severity_consistent_with_listing)
           [complaint_with 7 None] (complaint_with 7 None) "medium"%string).
  - reflexivity.
  - split; [left; reflexivity|vm_compute; reflexivity].
Defined.

(** ** The priority formula *)

Lemma mul_nan_r (x : number) : mul x NaN = NaN.
Proof. destruct x; reflexivity. Qed.

(** A key that is inherited is not one of the five own keys of the table. *)
Lemma inherited_not_own (key : string) :
  inherited key = true -> assoc key categoryMultipliers = None.
Proof.
  unfold inherited, Object_prototype, assoc.
  repeat match goal with
    | |- context [String.eqb ?k key] =>
        destruct (String.eqb_spec k key) as [<-|?]; [intros _; reflexivity|]
    end.
  discriminate.
Qed.

Lemma multiplier_lookup (category : option string) :
  inherited (property_key category) = false ->
  js_or (get categoryMultipliers (property_key category)) (VNum n1)
  = VNum (spec_multiplier category).
Proof.
  destruct category as [c|]; [|reflexivity].
  unfold inherited, get, property_key, spec_multiplier. intros H.
  destruct (assoc c Object_prototype); [discriminate|]. clear H.
  unfold categoryMultipliers, assoc.
  rewrite !(String.eqb_sym c).
  repeat match goal with
    | |- context [String.eqb ?k c] => destruct (String.eqb k c); [reflexivity|]
    end.
  reflexivity.
Qed.

(** A non-negative [hoursPending] goes through [options.hoursPending || 0]
    unchanged as far as the time score can tell. *)
Lemma hoursPending_non_negative (h : number) :
  ge h n0 = true ->
  add (mul (or_default h n0) n2) n50 = add (mul h n2) n50.
Proof.
  destruct h as [[]|[]| |[] m e]; intros H; try reflexivity; discriminate.
Qed.

(** The formula of the scorer, for every category that is not the name of
    a property inherited from [Object.prototype]. *)
Lemma calculatePriority_formula (category : option string) (n : N) (options : Options) :
  inherited (property_key category) = false ->
  let r := calculatePriority category (Returned n) options in
  let b := breakdown r in
  complaintCountScore b = min (add (mul (of_Z (Z.of_N n)) n10) n50) n100 /\
  timePendingScore b
  = min (add (mul (option_or (hoursPending options) n0) n2) n50) n100 /\
  categoryMultiplier b = VNum (spec_multiplier category) /\
  score r = min (round (mul (raw_score b) (spec_multiplier category))) n100 /\
  severityLevel r = severity_of_final (score r).
Proof.
  intros H r b. unfold b, r, calculatePriority, raw_score.
  cbn [breakdown score severityLevel complaintCountScore timePendingScore
         areaWeightScore categoryMultiplier].
  rewrite (multiplier_lookup category H). cbn [to_number].
  repeat split.
Qed.

Lemma calculatePriority_time_score (category : option string) (n : N)
  (h : number) (a : option number) :
  ge h n0 = true ->
  timePendingScore
    (breakdown (calculatePriority category (Returned n)
                  {| hoursPending := Some h; areaWeight := a |}))
  = min (add (mul h n2) n50) n100.
Proof.
  intros H. cbn. now rewrite (hoursPending_non_negative h H).
Qed.

(** The example of the specification: Drainage, no other complaint at the
    location, nothing pending, area weight 50. *)
Lemma calculatePriority_drainage_example :
  let r := calculatePriority (Some "Drainage"%string) (Returned 0%N) example_options in
  breakdown r
  = {| complaintCountScore := n50; timePendingScore := n50;
       areaWeightScore := n50; categoryMultiplier := VNum n1_5 |} /\
  raw_score (breakdown r) = n50 /\
  score r = of_Z 75 /\ severityLevel r = "high"%string.
Proof. vm_compute. repeat split. Qed.

Lemma calculatePriority_streetlight_example :
  let r := calculatePriority (Some "Streetlight Issue"%string) (Returned 10%N)
             example_options in
  complaintCountScore (breakdown r) = n100 /\
  score r = of_Z 70 /\ severityLevel r = "high"%string.
Proof. vm_compute. repeat split. Qed.

(** Every inherited property name makes the score NaN and the level "low". *)
Lemma calculatePriority_inherited (category : option string) (n : N) (options : Options) :
  inherited (property_key category) = true ->
  let r := calculatePriority category (Returned n) options in
  score r = NaN /\ severityLevel r = "low"%string /\
  exists what, categoryMultiplier (breakdown r) = VObject what.
Proof.
  intros H r. unfold r, calculatePriority.
  cbn [breakdown score severityLevel categoryMultiplier].
  unfold get. rewrite (inherited_not_own _ H).
  unfold inherited in H.
  destruct (assoc (property_key category) Object_prototype) as [v|] eqn:E;
    [|discriminate].
  assert (Hv : exists what, v = VObject what).
  { revert E. unfold Object_prototype, assoc.
    repeat match goal with
      | |- context [String.eqb ?k ?key] =>
          destruct (String.eqb k key);
          [intros [= <-]; eexists; reflexivity|]
      end.
    discriminate. }
  destruct Hv as [what ->]. cbn [js_or truthy_value to_number].
  rewrite mul_nan_r. cbn. repeat split. now exists what.
Qed.

(** ** C1 *)

(** C1 holds for every category that names no inherited property
    ([calculatePriority_formula], [calculatePriority_drainage_example]) and
    fails on the others.  For the category "constructor" the table lookup
    finds the inherited constructor function, which is truthy, so the
    default 1.0 is not taken: the multiplier is that function, the product is
    NaN, and the score is NaN with level "low", where the formula of the
    claim with multiplier 1.0 gives 50. *)
Theorem calculatePriority_constructor_category :
  let r := calculatePriority (Some "constructor"%string) (Returned 0%N) example_options in
  categoryMultiplier (breakdown r) = VObject "function Object" /\
  score r = NaN /\
  severityLevel r = "low"%string /\
  min (round (mul (raw_score (breakdown r))
                  (spec_multiplier (Some "constructor"%string)))) n100 = n50.
Proof. vm_compute. repeat split. Qed.

(** ** C7 *)

Lemma calculatePriority_areaWeight_truthy (category : option string) (n : N)
  (h : option number) (a : number) :
  truthy a = true ->
  areaWeightScore
    (breakdown (calculatePriority category (Returned n)
                  {| hoursPending := h; areaWeight := Some a |})) = a.
Proof. intros H. cbn. unfold or_default. now rewrite H. Qed.

Lemma calculatePriority_areaWeight_default (category : option string) (n : N)
  (h : option number) :
  areaWeightScore
    (breakdown (calculatePriority category (Returned n)
                  {| hoursPending := h; areaWeight := None |})) = n50.
Proof. reflexivity. Qed.

(** C7 holds for an area weight that is not supplied (the score is 50) and
    for a supplied one that is not zero (the score is that weight), and
    fails for the supplied weight 0, the lower end of the range: 0 is falsy,
    so [options.areaWeight || 50] replaces it with 50. *)
Theorem calculatePriority_areaWeight_zero (category : option string) (n : N)
  (h : option number) :
  areaWeightScore
    (breakdown (calculatePriority category (Returned n)
                  {| hoursPending := h; areaWeight := Some n0 |})) = n50 /\
  n50 <> n0.
Proof. split; [reflexivity|discriminate]. Qed.

(** ** The floor of the priority score *)

Lemma of_N_shape (n : N) :
  match of_Z (Z.of_N n) with
  | S754_zero false | S754_infinity false | S754_finite false _ _ => True
  | _ => False
  end.
Proof.
  destruct n as [|p]; [exact I|].
  unfold of_Z. cbn [Z.of_N binary_normalize]. rewrite binary_round_rnd.
  pose proof (rnd_shape (Z.pos p) 0 ltac:(lia)) as H.
  destruct (to_float (rnd (Z.pos p) 0)) as [[]|[]| |[] m e]; tauto.
Qed.

Lemma or_default_shape (h : number) :
  ge h n0 = true ->
  match or_default h n0 with
  | S754_zero false | S754_infinity false | S754_finite false _ _ => True
  | _ => False
  end.
Proof. destruct h as [[]|[]| |[] m e]; intros H; try exact I; discriminate. Qed.

(** A sub-score [min(x * w + 50, 100)] lies between 50 and 100. *)
Lemma sub_score_range (x w : number) :
  match x with
  | S754_zero false | S754_infinity false | S754_finite false _ _ => True
  | _ => False
  end ->
  normal w ->
  let s := min (add (mul x w) n50) n100 in
  positive_number s /\ SFleb n50 s = true /\ SFleb s n100 = true.
Proof.
  intros Hx Hw s.
  pose proof (mul_nonneg_normal x w Hx Hw) as Hm.
  destruct (add_nonneg_ge (mul x w) n50 Hm ltac:(reflexivity)) as [Ha Hge].
  apply min_100; [|assumption|reflexivity].
  apply (positive_of_ge _ n50); [assumption|reflexivity|assumption].
Qed.

Lemma normal_multiplier (category : option string) : normal (spec_multiplier category).
Proof.
  unfold spec_multiplier. destruct category as [c|]; [|split; [reflexivity|discriminate]].
  repeat match goal with
    | |- context [String.eqb c ?k] => destruct (String.eqb c k)
    end; split; first [reflexivity | discriminate].
Qed.

Lemma multiplier_at_least_one (category : option string) :
  SFleb n50 (mul n50 (spec_multiplier category)) = true.
Proof.
  unfold spec_multiplier. destruct category as [c|]; [|reflexivity].
  repeat match goal with
    | |- context [String.eqb c ?k] => destruct (String.eqb c k)
    end; reflexivity.
Qed.

Lemma raw_score_floor (c t a : number) :
  positive_number c -> positive_number t -> positive_number a ->
  SFleb n50 c = true -> SFleb n50 t = true -> SFleb n50 a = true ->
  positive_number (add (add (mul c n0_4) (mul t n0_3)) (mul a n0_3)) /\
  SFleb n50 (add (add (mul c n0_4) (mul t n0_3)) (mul a n0_3)) = true.
Proof.
  intros Pc Pt Pa Hc Ht Ha.
  assert (N4 : normal n0_4) by (split; [reflexivity|discriminate]).
  assert (N3 : normal n0_3) by (split; [reflexivity|discriminate]).
  assert (F50 : pos_finite n50) by reflexivity.
  destruct (mul_ge c n50 n0_4 Pc F50 N4 Hc) as [Q1 L1].
  destruct (mul_ge t n50 n0_3 Pt F50 N3 Ht) as [Q2 L2].
  destruct (mul_ge a n50 n0_3 Pa F50 N3 Ha) as [Q3 L3].
  set (c20 := mul n50 n0_4) in *. set (c15 := mul n50 n0_3) in *.
  assert (F20 : pos_finite c20) by reflexivity.
  assert (F15 : pos_finite c15) by reflexivity.
  pose proof (positive_of_ge _ _ Q1 F20 L1) as P1.
  pose proof (positive_of_ge _ _ Q2 F15 L2) as P2.
  pose proof (positive_of_ge _ _ Q3 F15 L3) as P3.
  destruct (add_ge _ _ c20 c15 P1 P2 F20 F15 L1 L2) as [Q4 L4].
  set (c35 := add c20 c15) in *.
  assert (F35 : pos_finite c35) by reflexivity.
  pose proof (positive_of_ge _ _ Q4 F35 L4) as P4.
  destruct (add_ge _ _ c35 c15 P4 P3 F35 F15 L4 L3) as [Q5 L5].
  assert (E50 : add c35 c15 = n50) by reflexivity.
  rewrite E50 in L5. split; [|exact L5].
  apply (positive_of_ge _ n50); assumption.
Qed.

Lemma final_score_floor (raw m : number) :
  positive_number raw -> SFleb n50 raw = true -> normal m ->
  SFleb n50 (mul n50 m) = true ->
  let s := min (round (mul raw m)) n100 in
  SFleb n50 s = true /\ SFleb s n100 = true.
Proof.
  intros Pr Hr Nm Hm s.
  destruct (mul_ge raw n50 m Pr ltac:(reflexivity) Nm Hr) as [Q L].
  pose proof (SFleb_trans _ _ _ Hm L) as L'.
  pose proof (positive_of_ge _ n50 Q ltac:(reflexivity) L') as P.
  destruct (round_ge50 _ P L') as [P' L''].
  apply (min_100 _ n50 P' L''). reflexivity.
Qed.

Lemma severity_not_low (s : number) :
  ge s n50 = true -> severity_of_final s <> "low"%string.
Proof.
  intros H. unfold severity_of_final.
  assert (H40 : ge s n40 = true).
  { unfold ge in *. apply (SFleb_trans _ n50); [reflexivity|assumption]. }
  rewrite H40. destruct (ge s n80), (ge s n60); discriminate.
Qed.

(** For every category that names no inherited property: the count score
    and the time score lie in [50, 100], and when the area weight score is
    at least 50 the final score lies in [50, 100] and the level is not
    "low". *)
Theorem calculatePriority_floor (category : option string) (n : N) (options : Options) :
  inherited (property_key category) = false ->
  (forall h, hoursPending options = Some h -> ge h n0 = true) ->
  (forall a, areaWeight options = Some a -> valid_binary prec emax a = true) ->
  let r := calculatePriority category (Returned n) options in
  let b := breakdown r in
  (ge (complaintCountScore b) n50 = true /\ ge n100 (complaintCountScore b) = true) /\
  (ge (timePendingScore b) n50 = true /\ ge n100 (timePendingScore b) = true) /\
  (ge (areaWeightScore b) n50 = true ->
   ge (score r) n50 = true /\ ge n100 (score r) = true /\
   severityLevel r <> "low"%string).
Proof.
  intros Hcat Hh Ha r b.
  destruct (calculatePriority_formula category n options Hcat)
    as (Ec & Et & Em & Es & Esev).
  fold r in Ec, Et, Em, Es, Esev. fold b in Ec, Et, Em, Es.
  assert (N10 : normal n10) by (split; [reflexivity|discriminate]).
  assert (N2 : normal n2) by (split; [reflexivity|discriminate]).
  destruct (sub_score_range (of_Z (Z.of_N n)) n10 (of_N_shape n) N10)
    as (Pc & Lc & Uc).
  rewrite <- Ec in Pc, Lc, Uc.
  assert (Hshape : match option_or (hoursPending options) n0 with
                   | S754_zero false | S754_infinity false
                   | S754_finite false _ _ => True
                   | _ => False
                   end).
  { unfold option_or. destruct (hoursPending options) as [h|] eqn:E; [|exact I].
    apply or_default_shape. now apply Hh. }
  destruct (sub_score_range _ n2 Hshape N2) as (Pt & Lt & Ut).
  rewrite <- Et in Pt, Lt, Ut.
  split; [split; assumption|]. split; [split; assumption|].
  intros La.
  assert (Pa : positive_number (areaWeightScore b)).
  { unfold b, r. cbn. unfold option_or.
    destruct (areaWeight options) as [a|] eqn:E; [|reflexivity].
    unfold or_default. destruct (truthy a) eqn:T; [|reflexivity].
    assert (La' : ge a n50 = true).
    { unfold b, r in La. cbn in La. unfold option_or in La.
      rewrite E in La. unfold or_default in La. now rewrite T in La. }
    specialize (Ha a eq_refl).
    destruct a as [[]|[]| |[] ma ea]; try discriminate; [exact I|exact Ha]. }
  destruct (raw_score_floor _ _ _ Pc Pt Pa Lc Lt La) as [Pr Lr].
  fold (raw_score b) in Pr, Lr.
  destruct (final_score_floor (raw_score b) (spec_multiplier category) Pr Lr
              (normal_multiplier category) (multiplier_at_least_one category))
    as [Ls Us].
  rewrite <- Es in Ls, Us.
  repeat split; try assumption.
  rewrite Esev. now apply severity_not_low.
Qed.

Lemma calculatePriority_floor_example :
  let r := calculatePriority (Some "Garbage"%string) (Returned 3%N)
             {| hoursPending := Some n2; areaWeight := Some n60 |} in
  ge (score r) n50 = true /\ ge n100 (score r) = true /\
  severityLevel r <> "low"%string.
Proof.
  apply (calculatePriority_floor (Some "Garbage"%string) 3%N
           {| hoursPending := Some n2; areaWeight := Some n60 |}).
  - reflexivity.
  - intros h [= <-]. reflexivity.
  - intros a [= <-]. reflexivity.
  - reflexivity.
Qed.

(** ** C10 *)

(** C10 holds for every category that names no inherited property
    ([calculatePriority_floor]) and fails on the others: with category
    "constructor", no other complaint at the location and no options, the
    three scores are 50, and yet the final score is NaN, which is not at
    least 50, and the level is "low". *)
Theorem calculatePriority_constructor_low :
  let r := calculatePriority (Some "constructor"%string) (Returned 0%N) no_options in
  complaintCountScore (breakdown r) = n50 /\
  timePendingScore (breakdown r) = n50 /\
  areaWeightScore (breakdown r) = n50 /\
  ge (areaWeightScore (breakdown r)) n50 = true /\
  ge (score r) n50 = false /\
  severityLevel r = "low"%string.
Proof. vm_compute. repeat split. Qed.

(** ** C6 *)

(** C6, as stated, fails: when the count of complaints at the location
    raises, a "Drainage" complaint is scored 85 with multiplier 1.5 and level
    "critical", not the neutral 50, 1 and "medium". *)
Lemma calculatePriority_fallback_depends_on_category :
  ~ (forall (category : option string) (message : string) (options : Options),
        let r := calculatePriority category (Thrown message) options in
        score r = n50 /\
        categoryMultiplier (breakdown r) = VNum n1 /\
        severityLevel r = "medium"%string).
Proof.
  intros H.
  destruct (H (Some "Drainage"%string) "database unreachable"%string no_options)
    as (Hs & _).
  vm_compute in Hs. discriminate.
Qed.

Local Open Scope string_scope.

(** C6 (amended): whenever the main computation fails, [calculatePriority]
    raises nothing and returns the result of the fallback scorer: the three
    sub-scores are 50, the reasoning is the fixed string "Default assessment
    (AI disabled)", the level is the one the breakpoints give the score, and
    score and multiplier follow the first keyword the lower-cased category
    contains: drainage or sewage 85 and 1.5 ("critical"), garbage 70 and 1.2
    ("high"), water 65 and 1.1 ("high"), road or pothole 60 and 1.0 ("high"),
    light 55 and 0.9 ("medium"); the neutral 50, 1 and "medium" are returned
    when it contains none of them. *)
Theorem calculatePriority_fallback (category : option string) (message : string)
  (options : Options) :
  let r := calculatePriority category (Thrown message) options in
  let says := mentions category in
  (reasoning r = [Text "Default assessment (AI disabled)"] /\
   complaintCountScore (breakdown r) = n50 /\
   timePendingScore (breakdown r) = n50 /\
   areaWeightScore (breakdown r) = n50 /\
   severityLevel r = severity_of_final (score r)) /\
  (says "drainage" || says "sewage" = true ->
   score r = of_Z 85 /\ categoryMultiplier (breakdown r) = VNum n1_5 /\
   severityLevel r = "critical") /\
  (says "drainage" || says "sewage" = false -> says "garbage" = true ->
   score r = of_Z 70 /\ categoryMultiplier (breakdown r) = VNum n1_2 /\
   severityLevel r = "high") /\
  (says "drainage" || says "sewage" = false -> says "garbage" = false ->
   says "water" = true ->
   score r = of_Z 65 /\ categoryMultiplier (breakdown r) = VNum n1_1 /\
   severityLevel r = "high") /\
  (says "drainage" || says "sewage" = false -> says "garbage" = false ->
   says "water" = false -> says "road" || says "pothole" = true ->
   score r = n60 /\ categoryMultiplier (breakdown r) = VNum n1 /\
   severityLevel r = "high") /\
  (says "drainage" || says "sewage" = false -> says "garbage" = false ->
   says "water" = false -> says "road" || says "pothole" = false ->
   says "light" = true ->
   score r = of_Z 55 /\ categoryMultiplier (breakdown r) = VNum n0_9 /\
   severityLevel r = "medium") /\
  (says "drainage" || says "sewage" = false -> says "garbage" = false ->
   says "water" = false -> says "road" || says "pothole" = false ->
   says "light" = false ->
   score r = n50 /\ categoryMultiplier (breakdown r) = VNum n1 /\
   severityLevel r = "medium").
Proof.
  intros r says. unfold r, says, mentions, calculatePriority, fallbackCalculatePriority.
  fold (fallback_key category). set (key := fallback_key category).
  destruct (Str.includes key "drainage" || Str.includes key "sewage") eqn:E1;
    [|destruct (Str.includes key "garbage") eqn:E2;
      [|destruct (Str.includes key "water") eqn:E3;
        [|destruct (Str.includes key "road" || Str.includes key "pothole") eqn:E4;
          [|destruct (Str.includes key "light") eqn:E5]]]];
    cbn [score breakdown severityLevel reasoning fb_score fb_breakdown
           complaintCountScore timePendingScore areaWeightScore categoryMultiplier];
    repeat split; intros; first [reflexivity | discriminate].
Qed.

Local Close Scope string_scope.

Lemma calculatePriority_fallback_witness :
  score (calculatePriority (Some "Drainage"%string) (Thrown "database unreachable") no_options)
  = of_Z 85.
Proof.
  apply (calculatePriority_fallback (Some "Drainage"%string)
           "database unreachable"%string no_options).
  reflexivity.
Defined.

(** ** C8 *)

(** A duplicate reported by the detector is above the threshold, so the
    second test of the route adds nothing to the first. *)
Lemma detectDuplicate_isDuplicate_above
  (transformers : option (option string -> outcome vec))
  (recent : outcome (list Complaint)) (text : option string) :
  isDuplicate (detectDuplicate transformers recent text) = true ->
  gt (similarity (detectDuplicate transformers recent text)) n0_85 = true.
Proof.
  unfold detectDuplicate.
  destruct transformers as [extractor|]; [|discriminate].
  destruct (extractor text) as [newEmbedding|]; [|discriminate].
  destruct recent as [window|]; [|discriminate].
  unfold detectDuplicate_window.
  destruct (Nat.eqb (List.length window) 0); [discriminate|].
  cbn [isDuplicate similarity]. trivial.
Qed.

(** C8, as stated, fails in its second half: with no duplicate reported, a
    request without a location is refused by the validation of the schema,
    and the route answers 500 and creates no record. *)
Lemma post_complaint_invalid_not_created :
  ~ (forall (classifyImage : string -> outcome ImageClassification)
            (classifyText : option string -> outcome TextClassification)
            (transformers : option (option string -> outcome vec))
            (find_recent : list Complaint -> outcome (list Complaint))
            (countDocuments : list Complaint -> option string -> outcome N)
            (create : list Complaint -> ComplaintInput -> outcome Complaint)
            (body : Body) (store : list Complaint)
            (imageClassification : ImageClassification)
            (textClassification : TextClassification),
        classify_image classifyImage body = Returned imageClassification ->
        classifyText (body_description body) = Returned textClassification ->
        isDuplicate (check_duplicate transformers find_recent body store) = false ->
        status (fst (post_complaint classifyImage classifyText transformers
                       find_recent countDocuments create body store)) = 201%nat).
Proof.
  intros H.
  specialize (H classifyImage_plain classifyText_plain None find_all count_none
                (schema_create 0) body_without_location [] no_image plain_text
                eq_refl eq_refl eq_refl).
  vm_compute in H. discriminate.
Qed.

Section PostComplaint.

Variable classifyImage : string -> outcome ImageClassification.
Variable classifyText : option string -> outcome TextClassification.
Variable transformers : option (option string -> outcome vec).
Variable find_recent : list Complaint -> outcome (list Complaint).
Variable countDocuments : list Complaint -> option string -> outcome N.
Variable create : list Complaint -> ComplaintInput -> outcome Complaint.

Local Abbreviation post :=
  (post_complaint classifyImage classifyText transformers find_recent
     countDocuments create).

(** C8 (amended): whenever the duplicate detector reports a duplicate, the
    route answers 409 with the message, the similarity as
    [round(similarity * 100)] and the matching complaint, and the collection
    is unchanged; otherwise, when [Complaint.create] accepts the new
    complaint, the route answers 201 with the created record, which is added
    to the collection, and when [Complaint.create] raises, the route answers
    500 and the collection is unchanged. *)
Theorem post_complaint_duplicate_or_created (body : Body) (store : list Complaint)
  (imageClassification : ImageClassification)
  (textClassification : TextClassification) :
  classify_image classifyImage body = Returned imageClassification ->
  classifyText (body_description body) = Returned textClassification ->
  let duplicateCheck := check_duplicate transformers find_recent body store in
  let priorityResult := score_priority countDocuments body textClassification store in
  let input :=
    new_complaint body imageClassification textClassification duplicateCheck
      priorityResult (generateEmbedding transformers (body_description body)) in
  (isDuplicate duplicateCheck = true ->
   post body store
   = ({| status := 409;
         json :=
           DuplicateWarning "Potential duplicate complaint detected"
             (round (mul (similarity duplicateCheck) n100))
             (matchingComplaint duplicateCheck)
             {| ins_imageClassification := imageClassification;
                ins_textClassification := textClassification;
                ins_duplicateCheck := None;
                ins_priority := priorityResult |} |}, store)) /\
  (isDuplicate duplicateCheck = false ->
   forall complaint, create store input = Returned complaint ->
   post body store
   = ({| status := 201;
         json :=
           Submitted "Complaint submitted successfully" complaint
             {| ins_imageClassification := imageClassification;
                ins_textClassification := textClassification;
                ins_duplicateCheck :=
                  Some (false, round (mul (similarity duplicateCheck) n100));
                ins_priority := priorityResult |} |},
      store ++ [complaint])) /\
  (isDuplicate duplicateCheck = false ->
   forall message, create store input = Thrown message ->
   post body store
   = ({| status := 500; json := Failure "Error creating complaint" message |},
      store)).
Proof.
  intros Hi Ht duplicateCheck priorityResult input.
  unfold post_complaint. rewrite Hi, Ht.
  fold duplicateCheck. fold priorityResult. fold input.
  repeat split.
  - intros Hd. rewrite Hd.
    unfold duplicateCheck, check_duplicate in *.
    rewrite (detectDuplicate_isDuplicate_above _ _ _ Hd). reflexivity.
  - intros Hd complaint Hc. rewrite Hd. cbn [andb]. now rewrite Hc.
  - intros Hd message Hc. rewrite Hd. cbn [andb]. now rewrite Hc.
Qed.

End PostComplaint.

Lemma post_complaint_duplicate_or_created_witness :
  post_complaint classifyImage_plain classifyText_plain
    (Some (constant_extractor candidate_1)) find_all count_none (schema_create 0)
    body_complete window_tie_after
  = ({| status := 409;
        json :=
          DuplicateWarning "Potential duplicate complaint detected"
            n100 (Some 3%nat)
            {| ins_imageClassification := no_image;
               ins_textClassification := plain_text;
               ins_duplicateCheck := None;
               ins_priority :=
                 score_priority count_none body_complete plain_text window_tie_after |} |},
     window_tie_after)
  /\
  (let created :=
     post_complaint classifyImage_plain classifyText_plain None find_all
       count_none (schema_create 0) body_complete [] in
   status (fst created) = 201%nat /\ map _id (snd created) = [1%nat])
  /\
  post_complaint classifyImage_plain classifyText_plain None find_all count_none
    (schema_create 0) body_without_location []
  = ({| status := 500;
        json := Failure "Error creating complaint" "Complaint validation failed" |},
     []).
Proof.
  split; [|split].
  - apply (proj1 (post_complaint_duplicate_or_created classifyImage_plain
                    classifyText_plain (Some (constant_extractor candidate_1))
                    find_all count_none (schema_create 0) body_complete
                    window_tie_after no_image plain_text eq_refl eq_refl)).
    vm_compute. reflexivity.
  - intros created. unfold created.
    pose proof (proj1 (proj2 (post_complaint_duplicate_or_created classifyImage_plain
                                classifyText_plain None find_all count_none
                                (schema_create 0) body_complete [] no_image
                                plain_text eq_refl eq_refl)) eq_refl) as H.
    cbv zeta in H.
    destruct (schema_create 0 []
                (new_complaint body_complete no_image plain_text
                   (check_duplicate None find_all body_complete [])
                   (score_priority count_none body_complete plain_text [])
                   (generateEmbedding None (body_description body_complete))))
      as [complaint|message] eqn:Hc.
    + rewrite (H complaint eq_refl). vm_compute in Hc.
      injection Hc as <-. split; reflexivity.
    + vm_compute in Hc. discriminate.
  - apply (proj2 (proj2 (post_complaint_duplicate_or_created classifyImage_plain
                           classifyText_plain None find_all count_none
                           (schema_create 0) body_without_location [] no_image
                           plain_text eq_refl eq_refl)) eq_refl).
    vm_compute. reflexivity.
Defined.

(** * More of the service, the routes and the pages *)

(** ** The selection loops *)

Section Best.

Context {A B : Type}.
Variable ok : A -> bool.
Variable f : A -> number.
Variable g : B -> number.
Variable h : A -> B.
Hypothesis g_h : forall x, g (h x) = f x.

(** What a selection loop returns, started from a best [b0] whose score is
    not NaN: [b0] itself when no admissible item beats it, else the first
    item that attains the highest score above it. *)
Lemma keep_best_result (items : list A) (b0 : B) :
  is_nan (g b0) = false ->
  (fold_left (keep_best ok f g h) items b0 = b0 /\
   forall x, In x items -> ok x = true -> gt (f x) (g b0) = false)
  \/
  (exists pre x post,
      items = pre ++ x :: post /\ ok x = true /\
      fold_left (keep_best ok f g h) items b0 = h x /\
      gt (f x) (g b0) = true /\
      (forall x', In x' pre -> ok x' = true -> is_nan (f x') = false ->
                  gt (f x) (f x') = true) /\
      (forall x', In x' post -> ok x' = true -> gt (f x') (f x) = false)).
Proof.
  revert b0. induction items as [|x0 rest IH]; intros b0 Hb0.
  - left. split; [reflexivity|]. intros x [].
  - cbn [fold_left].
    replace (keep_best ok f g h b0 x0)
      with (if ok x0 then if gt (f x0) (g b0) then h x0 else b0 else b0)
      by reflexivity.
    destruct (ok x0) eqn:Hok.
    + destruct (gt (f x0) (g b0)) eqn:Hx0.
      * pose proof (NumFacts.gt_not_nan _ _ Hx0) as [Hn0 _].
        assert (Hn : is_nan (g (h x0)) = false) by now rewrite g_h.
        destruct (IH (h x0) Hn)
          as [[Hs Hall]|(pre & x & post & -> & Hu & Hs & Hgt & Hpre & Hpost)];
          rewrite ?g_h in *.
        -- right. exists [], x0, rest. repeat split; auto; intros x' [].
        -- right. exists (x0 :: pre), x, post. repeat split; auto;
             first [ eapply NumFacts.gt_trans; eassumption
                   | intros x' [<-|Hin] Hc' Hn'; [assumption|now apply Hpre] ].
      * destruct (IH b0 Hb0)
          as [[Hs Hall]|(pre & x & post & -> & Hu & Hs & Hgt & Hpre & Hpost)].
        -- left. split; [assumption|].
           intros x [<-|Hin] Hc; [assumption|now apply Hall].
        -- right. exists (x0 :: pre), x, post. repeat split; auto.
           intros x' [<-|Hin] Hc' Hn'; [|now apply Hpre].
           eapply NumFacts.not_gt_gt_trans; eauto.
    + destruct (IH b0 Hb0)
        as [[Hs Hall]|(pre & x & post & -> & Hu & Hs & Hgt & Hpre & Hpost)].
      * left. split; [assumption|].
        intros x [<-|Hin] Hc; [congruence|now apply Hall].
      * right. exists (x0 :: pre), x, post. repeat split; auto.
        intros x' [<-|Hin] Hc' Hn'; [congruence|now apply Hpre].
Qed.

End Best.

(** ** The keyword classifier of texts *)

Lemma score_of_add_to (scores : list (string * number)) (category : string)
  (x : number) :
  score_of (add_to scores category x) category = add (score_of scores category) x.
Proof.
  induction scores as [|[k v] rest IH]; cbn.
  - now rewrite String.eqb_refl.
  - destruct (String.eqb k category) eqn:E; cbn; rewrite E; [reflexivity|exact IH].
Qed.

Lemma score_of_add_to_other (scores : list (string * number))
  (category k : string) (x : number) :
  category <> k -> score_of (add_to scores category x) k = score_of scores k.
Proof.
  intros Hk. induction scores as [|[k0 v] rest IH]; cbn.
  - destruct (String.eqb_spec category k); [contradiction|reflexivity].
  - destruct (String.eqb_spec k0 category) as [->|Hne]; cbn.
    + destruct (String.eqb_spec category k); [contradiction|reflexivity].
    + destruct (String.eqb k0 k); [reflexivity|exact IH].
Qed.

(** The inner loop adds 0.2 to the score of its category once for every
    keyword the text includes, and touches no other score. *)
Lemma count_words_score (lowerText category : string) (words : list string)
  (scores : list (string * number)) :
  score_of (count_words lowerText category scores words) category
  = Nat.iter (hits lowerText words) (fun s => add s n0_2) (score_of scores category).
Proof.
  unfold count_words, hits. revert scores.
  induction words as [|w ws IH]; intros scores; [reflexivity|].
  cbn [fold_left filter]. destruct (Str.includes lowerText w).
  - rewrite IH, score_of_add_to. cbn [List.length]. now rewrite Nat.iter_succ_r.
  - apply IH.
Qed.

Lemma count_words_other (lowerText category k : string) (words : list string)
  (scores : list (string * number)) :
  category <> k ->
  score_of (count_words lowerText category scores words) k = score_of scores k.
Proof.
  intros Hk. unfold count_words. revert scores.
  induction words as [|w ws IH]; intros scores; [reflexivity|].
  cbn [fold_left]. destruct (Str.includes lowerText w); rewrite IH;
    [now apply score_of_add_to_other|reflexivity].
Qed.

(** The row of a category: its name, and its score once its keywords have
    been counted. *)
Local Abbreviation row lowerText scores0 :=
  (fun entry : string * list string =>
     (fst entry,
      Nat.iter (hits lowerText (snd entry)) (fun s => add s n0_2)
        (score_of scores0 (fst entry)))).

Local Abbreviation pick :=
  (keep_best (fun _ : string * number => true) snd fst
     (fun r : string * number => (snd r, fst r))).

(** The outer loop, over a table with distinct categories: the maximum is
    selected among the rows, and every score is the one of its row. *)
Lemma tally_fold (lowerText : string) (table : list (string * list string)) :
  NoDup (map fst table) ->
  forall t : Tally,
  let t' := fold_left (tally_step lowerText) table t in
  (maxScore t', maxCategory t')
  = fold_left pick (map (row lowerText (tally_scores t)) table)
      (maxScore t, maxCategory t) /\
  (forall entry, In entry table ->
     score_of (tally_scores t') (fst entry)
     = snd (row lowerText (tally_scores t) entry)) /\
  (forall k, ~ In k (map fst table) ->
     score_of (tally_scores t') k = score_of (tally_scores t) k).
Proof.
  induction table as [|[category words] rest IH]; intros Hnd t.
  - cbn. repeat split; auto. intros entry [].
  - inversion Hnd as [|? ? Hnotin Hrest]; subst.
    cbv zeta. cbn [fold_left map].
    set (t1 := tally_step lowerText t (category, words)) in *.
    set (t' := fold_left (tally_step lowerText) rest t1).
    assert (S1 : tally_scores t1
                 = count_words lowerText category (tally_scores t) words).
    { unfold t1, tally_step.
      destruct (gt _ _); reflexivity. }
    assert (M1 : (maxScore t1, maxCategory t1)
                 = pick (maxScore t, maxCategory t)
                     (row lowerText (tally_scores t) (category, words))).
    { unfold t1, tally_step, keep_best. cbn [fst snd].
      rewrite count_words_score. destruct (gt _ _); reflexivity. }
    destruct (IH Hrest t1) as (Hmax & Hin & Hout). fold t' in Hmax, Hin, Hout.
    cbv zeta in Hmax, Hin, Hout. fold t' in Hmax, Hin, Hout.
    assert (Hsame : forall entry, In entry rest ->
              score_of (tally_scores t1) (fst entry)
              = score_of (tally_scores t) (fst entry)).
    { intros entry He. rewrite S1. apply count_words_other.
      intros ->. apply Hnotin. now apply in_map. }
    repeat split.
    + rewrite Hmax, M1. f_equal. apply map_ext_in.
      intros entry He. now rewrite Hsame.
    + intros entry [<-|He].
      * cbn [fst snd]. rewrite Hout by exact Hnotin.
        rewrite S1. apply count_words_score.
      * rewrite Hin by exact He. cbn [snd]. now rewrite Hsame.
    + intros k Hk. cbn [map In fst] in Hk.
      rewrite Hout by tauto. rewrite S1. apply count_words_other. tauto.
Qed.

Lemma hits_le (lowerText : string) (words : list string) :
  (hits lowerText words <= List.length words)%nat.
Proof. apply filter_length_le. Qed.

Lemma hits_zero (lowerText : string) (words : list string) :
  hits lowerText words = 0%nat <-> existsb (Str.includes lowerText) words = false.
Proof.
  unfold hits. induction words as [|w ws IH]; cbn; [tauto|].
  destruct (Str.includes lowerText w); cbn; [split; discriminate|exact IH].
Qed.

(** The seven scores a category of the table can reach. *)
Lemma keyword_score_cases (k : nat) :
  (k <= 6)%nat ->
  is_nan (keyword_score k) = false /\
  gt (keyword_score k) n0 = negb (Nat.eqb k 0) /\
  ge (min (keyword_score k) n1) n0 = true /\
  ge n1 (min (keyword_score k) n1) = true.
Proof.
  intros Hk.
  do 7 (destruct k as [|k]; [vm_compute; auto|]). lia.
Qed.

Lemma keywords_short (entry : string * list string) :
  In entry keywords -> (List.length (snd entry) <= 6)%nat.
Proof.
  intros H. repeat (destruct H as [<-|H]; [cbn; lia|]). destruct H.
Qed.

(** The loop of [fallbackTextClassification] on the table of keywords. *)
Lemma fallbackTextClassification_tally (text : string) :
  exists t : Tally,
    fallbackTextClassification (Some text)
    = Returned
        {| predictedCategory :=
             Some (if gt (maxScore t) n0 then maxCategory t else "Other"%string);
           tc_confidence := min (maxScore t) n1;
           scores := tally_scores t |} /\
    (maxScore t, maxCategory t)
    = fold_left pick
        (map (fun entry =>
                (fst entry, keyword_score (hits (Str.toLowerCase text) (snd entry))))
           keywords)
        (n0, "Other"%string) /\
    (forall entry, In entry keywords ->
       score_of (tally_scores t) (fst entry)
       = keyword_score (hits (Str.toLowerCase text) (snd entry))).
Proof.
  eexists. split; [reflexivity|].
  assert (Hnd : NoDup (map fst keywords)).
  { cbn. repeat constructor; cbn; intuition discriminate. }
  destruct (tally_fold (Str.toLowerCase text) keywords Hnd
              {| tally_scores := initial_scores; maxScore := n0;
                 maxCategory := "Other"%string |}) as (Hmax & Hin & _).
  cbn [tally_scores maxScore maxCategory] in Hmax, Hin.
  assert (H0 : forall entry, In entry keywords ->
            score_of initial_scores (fst entry) = n0).
  { intros entry H. repeat (destruct H as [<-|H]; [reflexivity|]). destruct H. }
  split.
  - rewrite Hmax. reflexivity.
  - intros entry He. rewrite (Hin entry He). cbn [snd]. now rewrite (H0 entry He).
Qed.

(** What [fallbackTextClassification] answers, read on the number of
    keywords of each category that occur in the text. *)
Lemma fallbackTextClassification_cases (text : string) :
  let s := fun entry : string * list string =>
             keyword_score (hits (Str.toLowerCase text) (snd entry)) in
  exists r : TextClassification,
    fallbackTextClassification (Some text) = Returned r /\
    (forall entry, In entry keywords -> score_of (scores r) (fst entry) = s entry) /\
    ((predictedCategory r = Some "Other"%string /\ tc_confidence r = n0 /\
      forall entry, In entry keywords ->
        hits (Str.toLowerCase text) (snd entry) = 0%nat)
     \/
     (exists pre entry post,
        keywords = pre ++ entry :: post /\
        predictedCategory r = Some (fst entry) /\
        tc_confidence r = min (s entry) n1 /\
        hits (Str.toLowerCase text) (snd entry) <> 0%nat /\
        (forall e, In e pre -> gt (s entry) (s e) = true) /\
        (forall e, In e post -> gt (s e) (s entry) = false))).
Proof.
  intros s.
  destruct (fallbackTextClassification_tally text) as (t & Hr & Hmax & Hsc).
  eexists. split; [exact Hr|]. cbn [scores predictedCategory tc_confidence].
  split; [exact Hsc|].
  assert (Hcase : forall entry, In entry keywords ->
            is_nan (s entry) = false /\
            gt (s entry) n0
            = negb (Nat.eqb (hits (Str.toLowerCase text) (snd entry)) 0)).
  { intros entry He.
    destruct (keyword_score_cases (hits (Str.toLowerCase text) (snd entry)))
      as (Hn & Hg & _).
    - etransitivity; [apply hits_le|now apply keywords_short].
    - split; assumption. }
  set (rows := map (fun entry => (fst entry, s entry)) keywords).
  assert (Hrows : (maxScore t, maxCategory t)
                  = fold_left pick rows (n0, "Other"%string)) by exact Hmax.
  clear Hmax. rename Hrows into Hmax.
  destruct (keep_best_result (fun _ : string * number => true) snd fst
              (fun r : string * number => (snd r, fst r))
              (fun _ => eq_refl) rows (n0, "Other"%string) eq_refl)
    as [[Hs Hall]|(pre' & x & post' & Hsplit & _ & Hs & Hgt & Hpre & Hpost)];
    rewrite Hs in Hmax; cbn [fst snd] in *.
  - left. injection Hmax as -> ->. repeat split; try reflexivity.
    intros entry He.
    specialize (Hall (fst entry, s entry) (in_map _ _ _ He) eq_refl).
    cbn [snd] in Hall. destruct (Hcase entry He) as [_ Hg]. rewrite Hg in Hall.
    apply negb_false_iff, Nat.eqb_eq in Hall. exact Hall.
  - right. unfold rows in Hsplit.
    apply map_eq_app in Hsplit. destruct Hsplit as (pre & rest & Hk & Hp & Hrest).
    apply map_eq_cons in Hrest. destruct Hrest as (entry & post & -> & Hx & Hq).
    subst x pre' post'. cbn [fst snd] in *.
    assert (He : In entry keywords) by (rewrite Hk; apply in_elt).
    destruct (Hcase entry He) as [Hn Hg].
    injection Hmax as -> ->. rewrite Hgt.
    exists pre, entry, post. repeat split; try assumption; try reflexivity.
    + rewrite Hgt in Hg. symmetry in Hg. apply negb_true_iff, Nat.eqb_neq in Hg.
      exact Hg.
    + intros e Hin.
      apply (Hpre (fst e, s e) (in_map _ _ _ Hin) eq_refl).
      apply Hcase. rewrite Hk. apply in_or_app. now left.
    + intros e Hin. apply (Hpost (fst e, s e) (in_map _ _ _ Hin) eq_refl).
Qed.

(** X1: on a text of ASCII characters, the keyword classifier answers
    "Other" exactly when no keyword of its table occurs in the lower-cased
    text, and then with confidence 0 and every score at 0. *)
Theorem fallbackTextClassification_other_iff_no_keyword (text : string) :
  ascii_text text = true ->
  exists r : TextClassification,
    fallbackTextClassification (Some text) = Returned r /\
    (predictedCategory r = Some "Other"%string <->
     mentions_keyword (Str.toLowerCase text) keywords = false) /\
    (mentions_keyword (Str.toLowerCase text) keywords = false ->
     tc_confidence r = n0 /\
     forall entry, In entry keywords -> score_of (scores r) (fst entry) = n0).
Proof.
  intros _.
  destruct (fallbackTextClassification_cases text)
    as (r & Hr & Hsc & [(Hp & Hc & H0)|(pre & entry & post & Hk & Hp & Hc & Hh & _)]).
  - exists r. split; [exact Hr|].
    assert (Hm : mentions_keyword (Str.toLowerCase text) keywords = false).
    { unfold mentions_keyword.
      destruct (existsb _ keywords) eqn:E; [|reflexivity].
      apply existsb_exists in E. destruct E as (entry & He & Hx).
      apply H0, hits_zero in He. congruence. }
    repeat split; auto.
    intros entry He. rewrite (Hsc entry He), (H0 entry He). reflexivity.
  - exists r. split; [exact Hr|].
    assert (He : In entry keywords) by (rewrite Hk; apply in_elt).
    assert (Hm : mentions_keyword (Str.toLowerCase text) keywords = true).
    { unfold mentions_keyword. apply existsb_exists. exists entry. split; [exact He|].
      destruct (existsb _ (snd entry)) eqn:E; [reflexivity|].
      apply hits_zero in E. contradiction. }
    assert (Hne : fst entry <> "Other"%string).
    { clear -He. repeat (destruct He as [<-|He]; [discriminate|]). destruct He. }
    rewrite Hm, Hp. repeat split; try discriminate. congruence.
Qed.

Lemma fallbackTextClassification_other_iff_no_keyword_witness :
  (exists r : TextClassification,
      fallbackTextClassification (Some "CRACK in the wall"%string) = Returned r /\
      predictedCategory r <> Some "Other"%string) /\
  (exists r : TextClassification,
      fallbackTextClassification (Some "Noise at night"%string) = Returned r /\
      predictedCategory r = Some "Other"%string /\ tc_confidence r = n0).
Proof.
  split.
  - destruct (fallbackTextClassification_other_iff_no_keyword
                "CRACK in the wall"%string eq_refl) as (r & Hr & [H _] & _).
    exists r. split; [exact Hr|].
    intros E. apply H in E. vm_compute in E. discriminate E.
  - destruct (fallbackTextClassification_other_iff_no_keyword
                "Noise at night"%string eq_refl) as (r & Hr & [_ H] & H0).
    exists r. split; [exact Hr|]. split; [apply H|apply H0]; reflexivity.
Defined.

(** X2: the category the keyword classifier predicts is one the schema of a
    complaint accepts, and its confidence is a number between 0 and 1. *)
Theorem fallbackTextClassification_range (text : string) :
  exists (r : TextClassification) (c : string),
    fallbackTextClassification (Some text) = Returned r /\
    predictedCategory r = Some c /\
    one_of category_enum c = true /\
    ge (tc_confidence r) n0 = true /\ ge n1 (tc_confidence r) = true.
Proof.
  destruct (fallbackTextClassification_cases text)
    as (r & Hr & Hsc & [(Hp & Hc & H0)|(pre & entry & post & Hk & Hp & Hc & Hh & _)]).
  - exists r, "Other"%string. rewrite Hc. repeat split; auto.
  - exists r, (fst entry).
    assert (He : In entry keywords) by (rewrite Hk; apply in_elt).
    destruct (keyword_score_cases (hits (Str.toLowerCase text) (snd entry)))
      as (_ & _ & Hlo & Hhi).
    { etransitivity; [apply hits_le|now apply keywords_short]. }
    rewrite Hc. repeat split; auto.
    clear -He. repeat (destruct He as [<-|He]; [reflexivity|]). destruct He.
Qed.

(** X3: the keyword classifier predicts the first category, in the order of
    its table, among those with the highest score it returns: that score is
    positive, it is the confidence once capped at 1, every category before
    scores strictly less and no category after scores more. *)
Theorem fallbackTextClassification_first_highest (text : string) :
  exists r : TextClassification,
    fallbackTextClassification (Some text) = Returned r /\
    let s := score_of (scores r) in
    (predictedCategory r = Some "Other"%string /\
     forall entry, In entry keywords -> gt (s (fst entry)) n0 = false)
    \/
    (exists pre entry post,
        keywords = pre ++ entry :: post /\
        predictedCategory r = Some (fst entry) /\
        gt (s (fst entry)) n0 = true /\
        tc_confidence r = min (s (fst entry)) n1 /\
        (forall e, In e pre -> gt (s (fst entry)) (s (fst e)) = true) /\
        (forall e, In e post -> gt (s (fst e)) (s (fst entry)) = false)).
Proof.
  destruct (fallbackTextClassification_cases text)
    as (r & Hr & Hsc & [(Hp & Hc & H0)|(pre & entry & post & Hk & Hp & Hc & Hh & Hpre & Hpost)]).
  - exists r. split; [exact Hr|]. left. split; [exact Hp|].
    intros entry He. rewrite (Hsc entry He), (H0 entry He). reflexivity.
  - exists r. split; [exact Hr|]. right.
    assert (Hin : forall e, In e pre \/ e = entry \/ In e post -> In e keywords).
    { intros e H. rewrite Hk. apply in_or_app. cbn.
      destruct H as [H|[->|H]]; auto. }
    exists pre, entry, post. rewrite (Hsc entry) by auto.
    repeat split; auto.
    + destruct (keyword_score_cases (hits (Str.toLowerCase text) (snd entry)))
        as (_ & Hg & _).
      { etransitivity; [apply hits_le|apply keywords_short; auto]. }
      rewrite Hg. apply negb_true_iff, Nat.eqb_neq. exact Hh.
    + intros e He. rewrite (Hsc e) by auto. now apply Hpre.
    + intros e He. rewrite (Hsc e) by auto. now apply Hpost.
Qed.

(** ** The mapping of image predictions *)

Lemma gt_irrefl (x : number) : gt x x = false.
Proof.
  destruct (gt x x) eqn:E; [|reflexivity].
  apply NumFacts.gt_spec in E. destruct E as (_ & _ & E).
  now apply NumFacts.klt_irrefl in E.
Qed.

Lemma match_keywords_spec (pred : Prediction) (lowerLabel category : string)
  (words : list string) (bestMatch : ImageMatch) :
  match_keywords pred lowerLabel category words bestMatch
  = if existsb (Str.includes lowerLabel) words then
      if gt (probability pred) (im_confidence bestMatch)
      then {| im_category := category; im_confidence := probability pred;
              im_label := className pred |}
      else bestMatch
    else bestMatch.
Proof.
  induction words as [|w ws IH]; cbn; [reflexivity|].
  destruct (Str.includes lowerLabel w); [reflexivity|exact IH].
Qed.

Local Abbreviation categories pred lowerLabel :=
  (fold_left
     (fun bestMatch '(category, words) =>
        match_keywords pred lowerLabel category words bestMatch)).

(** A prediction that does not beat the best match changes nothing, whatever
    categories its label falls in. *)
Lemma match_categories_keep (pred : Prediction) (lowerLabel : string)
  (table : list (string * list string)) (bestMatch : ImageMatch) :
  gt (probability pred) (im_confidence bestMatch) = false ->
  categories pred lowerLabel table bestMatch = bestMatch.
Proof.
  intros H. induction table as [|[category words] rest IH]; [reflexivity|].
  cbn [fold_left]. rewrite match_keywords_spec, H.
  destruct (existsb _ words); exact IH.
Qed.

(** The loop over the categories: only the first category with a keyword in
    the label can become the best match. *)
Lemma match_categories_spec (pred : Prediction) (lowerLabel : string)
  (table : list (string * list string)) (bestMatch : ImageMatch) :
  categories pred lowerLabel table bestMatch
  = match find (fun entry => existsb (Str.includes lowerLabel) (snd entry)) table with
    | Some entry =>
        if gt (probability pred) (im_confidence bestMatch)
        then {| im_category := fst entry; im_confidence := probability pred;
                im_label := className pred |}
        else bestMatch
    | None => bestMatch
    end.
Proof.
  induction table as [|[category words] rest IH]; [reflexivity|].
  cbn [fold_left find snd fst]. rewrite match_keywords_spec.
  destruct (existsb _ words).
  - destruct (gt (probability pred) (im_confidence bestMatch)) eqn:E.
    + apply match_categories_keep. cbn. apply gt_irrefl.
    + now apply match_categories_keep.
  - exact IH.
Qed.

Local Abbreviation mapped :=
  (fun pred : Prediction =>
     {| im_category :=
          match first_category (className pred) with
          | Some category => category
          | None => "Other"%string
          end;
        im_confidence := probability pred;
        im_label := className pred |}).

Lemma match_prediction_keep_best (bestMatch : ImageMatch) (pred : Prediction) :
  match_prediction bestMatch pred
  = keep_best (fun p => is_some (first_category (className p))) probability
      im_confidence mapped bestMatch pred.
Proof.
  unfold match_prediction, keep_best, first_category.
  rewrite match_categories_spec.
  destruct (find _ CATEGORY_MAPPING); reflexivity.
Qed.

Lemma first_category_enum (label category : string) :
  first_category label = Some category -> one_of category_enum category = true.
Proof.
  unfold first_category.
  destruct (find _ CATEGORY_MAPPING) as [entry|] eqn:E; [|discriminate].
  intros [= <-]. apply find_some in E. destruct E as [E _].
  repeat (destruct E as [<-|E]; [reflexivity|]). destruct E.
Qed.

(** What the mapping of the predictions answers. *)
Lemma map_predictions_cases (predictions : list Prediction) :
  let r := map_predictions predictions in
  (predictedLabel r = Some (first_label predictions) /\
   ic_confidence r = n0 /\ mappedCategory r = Some "Other"%string /\
   forall p, In p predictions -> first_category (className p) <> None ->
             gt (probability p) n0 = false)
  \/
  (exists pre p post category,
      predictions = pre ++ p :: post /\
      first_category (className p) = Some category /\
      gt (probability p) n0 = true /\
      predictedLabel r = Some (className p) /\
      ic_confidence r = probability p /\
      mappedCategory r = Some category /\
      (forall p', In p' pre -> first_category (className p') <> None ->
                  is_nan (probability p') = false ->
                  gt (probability p) (probability p') = true) /\
      (forall p', In p' post -> first_category (className p') <> None ->
                  gt (probability p') (probability p) = false)).
Proof.
  intros r. unfold r, map_predictions.
  cbn [predictedLabel ic_confidence mappedCategory].
  set (b0 := {| im_category := "Other"%string; im_confidence := n0;
                im_label := first_label predictions |}).
  assert (Hfold : fold_left match_prediction predictions b0
                  = fold_left
                      (keep_best (fun p => is_some (first_category (className p)))
                         probability im_confidence mapped) predictions b0).
  { generalize b0. induction predictions as [|p ps IH]; intros b; [reflexivity|].
    cbn [fold_left]. now rewrite match_prediction_keep_best, IH. }
  rewrite Hfold.
  assert (Hok : forall p : Prediction,
            is_some (first_category (className p)) = true <->
            first_category (className p) <> None).
  { intros p. destruct (first_category (className p)); cbn; split; congruence. }
  destruct (keep_best_result (fun p => is_some (first_category (className p)))
              probability im_confidence mapped (fun _ => eq_refl)
              predictions b0 eq_refl)
    as [[-> Hall]|(pre & p & post & Hsplit & Hu & -> & Hgt & Hpre & Hpost)].
  - left. repeat split; try reflexivity.
    intros p Hin Hc. apply (Hall p Hin). now apply Hok.
  - right. destruct (first_category (className p)) as [category|] eqn:Hc;
      [|discriminate].
    exists pre, p, post, category. cbn [im_label im_confidence im_category].
    rewrite Hc. repeat split; auto.
    + intros p' Hin Hc'. apply (Hpre p' Hin). now apply Hok.
    + intros p' Hin Hc'. apply (Hpost p' Hin). now apply Hok.
Qed.

(** X4: [classifyImage] reports the prediction with the highest probability
    among those whose label holds a keyword of some category, the first one
    when several attain it, mapped to the first category of the table with a
    keyword in its label; when no such prediction has a positive
    probability, it answers "Other" with confidence 0 and the label of the
    first prediction, or "unknown". *)
Theorem classifyImage_best_prediction
  (classify : string -> outcome (list Prediction)) (imagePath : string)
  (predictions : list Prediction) :
  classify imagePath = Returned predictions ->
  let r := classifyImage (Some classify) imagePath in
  allPredictions r = map (fun p => (className p, probability p)) predictions /\
  ((predictedLabel r = Some (first_label predictions) /\
    ic_confidence r = n0 /\ mappedCategory r = Some "Other"%string /\
    forall p, In p predictions -> first_category (className p) <> None ->
              gt (probability p) n0 = false)
   \/
   (exists pre p post category,
       predictions = pre ++ p :: post /\
       first_category (className p) = Some category /\
       gt (probability p) n0 = true /\
       predictedLabel r = Some (className p) /\
       ic_confidence r = probability p /\
       mappedCategory r = Some category /\
       (forall p', In p' pre -> first_category (className p') <> None ->
                   is_nan (probability p') = false ->
                   gt (probability p) (probability p') = true) /\
       (forall p', In p' post -> first_category (className p') <> None ->
                   gt (probability p') (probability p) = false))).
Proof.
  intros Hc r. unfold r, classifyImage. rewrite Hc.
  split; [reflexivity|]. apply map_predictions_cases.
Qed.

(** X5: whatever the model predicts, and when it is missing or fails, the
    category [classifyImage] maps an image to is one the schema of a
    complaint accepts, and the confidence is a number, never below 0. *)
Theorem classifyImage_category_in_enum
  (mobilenet : option (string -> outcome (list Prediction))) (imagePath : string) :
  exists category,
    mappedCategory (classifyImage mobilenet imagePath) = Some category /\
    one_of category_enum category = true /\
    ge (ic_confidence (classifyImage mobilenet imagePath)) n0 = true.
Proof.
  unfold classifyImage.
  destruct mobilenet as [classify|];
    [destruct (classify imagePath) as [predictions|]|];
    try (exists "Other"%string; repeat split; reflexivity).
  destruct (map_predictions_cases predictions)
    as [(_ & Hc & Hm & _)|(pre & p & post & category & _ & Hf & Hgt & _ & Hc & Hm & _)].
  - exists "Other"%string. rewrite Hc. repeat split; auto.
  - exists category. rewrite Hc. repeat split; auto.
    + eapply first_category_enum; eassumption.
    + apply NumFacts.ge_spec. apply NumFacts.gt_spec in Hgt.
      destruct Hgt as (Hn & _ & Hk). repeat split; auto. now left.
Qed.

(** ** Symmetry of the cosine similarity *)

Lemma mul_comm (x y : number) : mul x y = mul y x.
Proof.
  unfold mul, SFmul.
  destruct x as [sx|sx| |sx mx ex], y as [sy|sy| |sy my ey]; try reflexivity;
    try (now rewrite xorb_comm).
  now rewrite xorb_comm, Pos.mul_comm, Z.add_comm.
Qed.

Lemma cosine_loop_swap (a b : list number) (dotProduct normA normB : number) :
  cosine_loop b a (dotProduct, normB, normA)
  = let '(d, na, nb) := cosine_loop a b (dotProduct, normA, normB) in (d, nb, na).
Proof.
  revert b dotProduct normA normB.
  induction a as [|x a IH]; intros [|y b] d na nb; try reflexivity.
  cbn [cosine_loop]. rewrite (mul_comm y x). apply IH.
Qed.

(** X6: the cosine similarity is symmetric, bit for bit, absent and
    mismatched vectors included. *)
Theorem cosineSimilarity_symmetric (vecA vecB : vec) :
  cosineSimilarity vecA vecB = cosineSimilarity vecB vecA.
Proof.
  destruct vecA as [a|], vecB as [b|]; try reflexivity.
  unfold cosineSimilarity. rewrite (Nat.eqb_sym (List.length b)).
  destruct (Nat.eqb (List.length a) (List.length b)); [|reflexivity].
  cbn [negb]. rewrite (cosine_loop_swap a b).
  destruct (cosine_loop a b (n0, n0, n0)) as [[d na] nb].
  now rewrite mul_comm.
Qed.

(** ** What the duplicate detector answers *)

(** X7: whatever the library, the query and the window do, the detector
    answers either no match with similarity 0 and no duplicate, or the
    identifier of a complaint of the window that carries an embedding,
    with the similarity of that complaint to the new one, which is strictly
    positive; the similarity is never NaN. *)
Theorem detectDuplicate_match_in_window
  (transformers : option (option string -> outcome vec))
  (recentComplaints : outcome (list Complaint)) (text : option string) :
  let r := detectDuplicate transformers recentComplaints text in
  is_nan (similarity r) = false /\
  ((matchingComplaint r = None /\ similarity r = n0 /\ isDuplicate r = false)
   \/
   (exists extractor newEmbedding window c,
       transformers = Some extractor /\
       extractor text = Returned newEmbedding /\
       recentComplaints = Returned window /\
       In c window /\ usable c = true /\
       matchingComplaint r = Some (_id c) /\
       similarity r = similarity_to newEmbedding c /\
       gt (similarity r) n0 = true)).
Proof.
  unfold detectDuplicate.
  destruct transformers as [extractor|]; [|split; [reflexivity|left; auto]].
  destruct (extractor text) as [newEmbedding|] eqn:He;
    [|split; [reflexivity|left; auto]].
  destruct recentComplaints as [window|]; [|split; [reflexivity|left; auto]].
  unfold detectDuplicate_window.
  destruct (Nat.eqb (List.length window) 0); [split; [reflexivity|left; auto]|].
  fold start.
  destruct (scan_result newEmbedding window start eq_refl)
    as [[-> _]|(pre & c & post & -> & Hu & -> & Hgt & _)];
    cbn [similarity matchingComplaint isDuplicate bm_similarity bm_complaint start
         option_map] in *.
  - split; [reflexivity|left; auto].
  - pose proof (NumFacts.gt_not_nan _ _ Hgt) as [Hn _].
    split; [exact Hn|right].
    exists extractor, newEmbedding, (pre ++ c :: post), c.
    repeat split; auto. apply in_elt.
Qed.

(** ** The priority listing *)

Lemma filter_none {A : Type} (p : A -> bool) (l : list A) :
  (forall x, In x l -> p x = false) -> filter p l = [].
Proof.
  induction l as [|x l IH]; intros H; [reflexivity|].
  cbn. rewrite (H x (or_introl eq_refl)). apply IH. intros y Hy. apply H. now right.
Qed.

(** A score that is a number passes exactly one of the four tests of the
    listing. *)
Lemma one_level (s : number) :
  is_nan s = false ->
  let critical := ge s n80 in
  let high := ge s n60 && lt s n80 in
  let medium := ge s n40 && lt s n60 in
  let low := lt s n40 in
  (critical = true /\ high = false /\ medium = false /\ low = false) \/
  (critical = false /\ high = true /\ medium = false /\ low = false) \/
  (critical = false /\ high = false /\ medium = true /\ low = false) \/
  (critical = false /\ high = false /\ medium = false /\ low = true).
Proof.
  intros Hs. destruct (score_cuts s Hs) as (E80 & E60 & E40 & M46 & M68).
  cbv zeta. rewrite E80, E60, E40.
  destruct (lt s n40), (lt s n60), (lt s n80);
    try (specialize (M46 eq_refl); discriminate);
    try (specialize (M68 eq_refl); discriminate); cbn; tauto.
Qed.

Lemma nan_no_level (s : number) :
  is_nan s = true ->
  ge s n80 = false /\ ge s n60 && lt s n80 = false /\
  ge s n40 && lt s n60 = false /\ lt s n40 = false.
Proof. destruct s; try discriminate. intros _. repeat split. Qed.

(** X8: the four groups of the priority listing hold, together, exactly the
    listed complaints whose score is a number, each of them once; a
    complaint whose score is NaN is in no group. *)
Theorem group_by_severity_partition (complaints : list Complaint) :
  let g := group_by_severity complaints in
  Permutation
    (filter (fun c => negb (is_nan (priorityScore c))) complaints)
    (g_critical g ++ g_high g ++ g_medium g ++ g_low g).
Proof.
  cbv zeta. unfold group_by_severity. cbn [g_critical g_high g_medium g_low].
  induction complaints as [|c rest IH]; [constructor|].
  cbn [filter]. destruct (is_nan (priorityScore c)) eqn:Hn; cbn [negb].
  - destruct (nan_no_level _ Hn) as (-> & -> & -> & ->). exact IH.
  - destruct (one_level _ Hn)
      as [(-> & -> & -> & ->)|[(-> & -> & -> & ->)|[(-> & -> & -> & ->)|(-> & -> & -> & ->)]]].
    + cbn. now constructor.
    + apply Permutation_cons_app. exact IH.
    + rewrite app_assoc. apply Permutation_cons_app. rewrite <- app_assoc. exact IH.
    + rewrite 2 app_assoc. apply Permutation_cons_app.
      rewrite <- 2 app_assoc. exact IH.
Qed.

(** A complaint listed after one that fails a lower bound fails it too. *)
Lemma below_stays_below (a b : Complaint) (bound : number) :
  ge (priorityScore a) (priorityScore b) = true ->
  ge (priorityScore a) bound = false -> ge (priorityScore b) bound = false.
Proof.
  intros Hab Ha. destruct (ge (priorityScore b) bound) eqn:Hb; [|reflexivity].
  unfold ge in *. rewrite (SFleb_trans _ _ _ Hb Hab) in Ha. discriminate.
Qed.

(** X9: on a listing in descending order of score, as the route asks the
    store for, with no NaN score, the groups critical, high, medium and low
    put end to end are the listing itself. *)
Theorem group_by_severity_sorted_concat (complaints : list Complaint) :
  StronglySorted
    (fun a b => ge (priorityScore a) (priorityScore b) = true) complaints ->
  (forall c, In c complaints -> is_nan (priorityScore c) = false) ->
  let g := group_by_severity complaints in
  g_critical g ++ g_high g ++ g_medium g ++ g_low g = complaints.
Proof.
  cbv zeta. unfold group_by_severity. cbn [g_critical g_high g_medium g_low].
  induction 1 as [|a rest Hsorted IH Hall]; intros Hn; [reflexivity|].
  specialize (IH (fun c Hc => Hn c (or_intror Hc))).
  rewrite Forall_forall in Hall.
  assert (Hlow : forall bound, ge (priorityScore a) bound = false ->
            forall p, filter (fun c => ge (priorityScore c) bound && p c) rest = []).
  { intros bound Ha p. apply filter_none. intros b Hb.
    now rewrite (below_stays_below a b bound (Hall b Hb) Ha). }
  assert (Hcrit : ge (priorityScore a) n80 = false ->
            filter (fun c => ge (priorityScore c) n80) rest = []).
  { intros Ha. apply filter_none. intros b Hb.
    exact (below_stays_below a b n80 (Hall b Hb) Ha). }
  cbn [filter].
  destruct (one_level _ (Hn a (or_introl eq_refl)))
    as [(E1 & E2 & E3 & E4)|[(E1 & E2 & E3 & E4)|[(E1 & E2 & E3 & E4)|(E1 & E2 & E3 & E4)]]];
    rewrite E1, E2, E3, E4.
  - cbn. now rewrite IH.
  - rewrite (Hcrit E1) in *. cbn in *. now rewrite IH.
  - assert (E60 : ge (priorityScore a) n60 = false).
    { destruct (ge (priorityScore a) n60) eqn:E; [|reflexivity].
      cbn in E2. destruct (score_cuts _ (Hn a (or_introl eq_refl))) as (H80 & _).
      rewrite H80, E2 in E1. discriminate. }
    rewrite (Hcrit E1), (Hlow n60 E60) in *. cbn in *. now rewrite IH.
  - assert (E40 : ge (priorityScore a) n40 = false).
    { destruct (score_cuts _ (Hn a (or_introl eq_refl))) as (_ & _ & H40 & _).
      rewrite H40, E4. reflexivity. }
    assert (E60 : ge (priorityScore a) n60 = false).
    { destruct (ge (priorityScore a) n60) eqn:E; [|reflexivity].
      exfalso. unfold ge in *.
      assert (H46 : SFleb n40 n60 = true) by reflexivity.
      rewrite (SFleb_trans _ _ _ H46 E) in E40. discriminate. }
    rewrite (Hcrit E1), (Hlow n60 E60), (Hlow n40 E40) in *. cbn in *. now rewrite IH.
Qed.

(** ** What POST /api/complaints does to the collection *)

Lemma severity_of_final_enum (s : number) :
  one_of severity_enum (severity_of_final s) = true.
Proof.
  unfold severity_of_final.
  destruct (ge s n80), (ge s n60), (ge s n40); reflexivity.
Qed.

Lemma str_or_default_not_empty (a : option string) (d : string) :
  d <> ""%string -> str_or_default a d <> ""%string.
Proof.
  intros Hd. unfold str_or_default, str_or. destruct a as [s|]; [|exact Hd].
  destruct (String.eqb_spec s ""); [exact Hd|assumption].
Qed.

Section PostComplaintInvariants.

Variable classifyImage : string -> outcome ImageClassification.
Variable classifyText : option string -> outcome TextClassification.
Variable transformers : option (option string -> outcome vec).
Variable find_recent : list Complaint -> outcome (list Complaint).
Variable countDocuments : list Complaint -> option string -> outcome N.
Variable create : list Complaint -> ComplaintInput -> outcome Complaint.

Local Abbreviation post :=
  (post_complaint classifyImage classifyText transformers find_recent
     countDocuments create).

(** X10: whatever the request and whatever the classifiers, the detector and
    the store do, the route answers 201, 409 or 500; on 201 the collection
    has grown by exactly the complaint [Complaint.create] returned, placed
    last and carried by the response; on 409 and on 500 the collection is
    the one it was. *)
Theorem post_complaint_appends_at_most_one (body : Body) (store : list Complaint) :
  let response := fst (post body store) in
  let store' := snd (post body store) in
  (status response = 201%nat /\
   exists input complaint message aiInsights,
     create store input = Returned complaint /\
     json response = Submitted message complaint aiInsights /\
     store' = store ++ [complaint])
  \/ (status response = 409%nat /\ store' = store)
  \/ (status response = 500%nat /\ store' = store).
Proof.
  cbv zeta. unfold post_complaint.
  destruct (classify_image classifyImage body) as [imageClassification|];
    [|right; right; split; reflexivity].
  destruct (classifyText (body_description body)) as [textClassification|];
    [|right; right; split; reflexivity].
  destruct (isDuplicate _ && gt _ n0_85);
    [right; left; split; reflexivity|].
  match goal with
  | |- context [create store ?i] => destruct (create store i) as [complaint|] eqn:Hc
  end.
  - left. split; [reflexivity|]. cbn [fst snd json].
    do 4 eexists. split; [exact Hc|]. split; reflexivity.
  - right; right; split; reflexivity.
Qed.

(** X11: the object the route hands to [Complaint.create] is never flagged
    as a duplicate, its severity level is the one the breakpoints give its
    priority score and is a level the schema accepts, and neither its
    category nor its author is empty. *)
Theorem post_complaint_created_input (body : Body) (store : list Complaint) :
  status (fst (post body store)) = 201%nat ->
  exists input complaint,
    create store input = Returned complaint /\
    snd (post body store) = store ++ [complaint] /\
    sd_isDuplicate (in_aiDuplicateCheck input) = false /\
    in_aiSeverityLevel input = severity_of_final (in_priorityScore input) /\
    one_of severity_enum (in_aiSeverityLevel input) = true /\
    in_category input <> ""%string /\ in_createdBy input <> ""%string /\
    in_description input = body_description body /\
    in_location input = body_location body.
Proof.
  unfold post_complaint.
  destruct (classify_image classifyImage body) as [imageClassification|];
    [|discriminate].
  destruct (classifyText (body_description body)) as [textClassification|];
    [|discriminate].
  destruct (isDuplicate (check_duplicate transformers find_recent body store)
            && gt (similarity (check_duplicate transformers find_recent body store))
                 n0_85) eqn:Hd; [discriminate|].
  match goal with
  | |- context [create store ?i] =>
      set (inp := i); destruct (create store inp) as [c|] eqn:Hc; [|discriminate]
  end.
  intros _. exists inp, c. split; [exact Hc|]. split; [reflexivity|].
  assert (Hdup : isDuplicate (check_duplicate transformers find_recent body store)
                 = false).
  { destruct (isDuplicate _) eqn:E; [|reflexivity].
    unfold check_duplicate in *.
    rewrite (detectDuplicate_isDuplicate_above _ _ _ E) in Hd. discriminate. }
  unfold inp, new_complaint.
  cbn [in_aiDuplicateCheck sd_isDuplicate in_aiSeverityLevel in_priorityScore
       in_category in_createdBy in_description in_location].
  repeat split; auto.
  - unfold score_priority. apply calculatePriority_severity.
  - unfold score_priority. rewrite calculatePriority_severity.
    apply severity_of_final_enum.
  - apply str_or_default_not_empty. discriminate.
  - apply str_or_default_not_empty. discriminate.
Qed.

End PostComplaintInvariants.

(** ** The route with the classifiers of the service *)

Lemma one_of_category_enum (c : string) :
  one_of category_enum c = true ->
  c = "Garbage"%string \/ c = "Road Damage"%string \/
  c = "Streetlight Issue"%string \/ c = "Water Leakage"%string \/
  c = "Drainage"%string \/ c = "Other"%string.
Proof.
  unfold one_of, category_enum. cbn [existsb]. rewrite !orb_true_iff.
  rewrite !String.eqb_eq. intuition discriminate.
Qed.

(** The score of a complaint in one of the categories of the schema, with
    no options, is a number of [0, 100], on both paths of the scorer. *)
Lemma calculatePriority_enum_score (c : string) (count : outcome N) :
  one_of category_enum c = true ->
  ge (score (calculatePriority (Some c) count no_options)) n50 = true /\
  ge n100 (score (calculatePriority (Some c) count no_options)) = true.
Proof.
  intros Hc. apply one_of_category_enum in Hc.
  destruct count as [n|message].
  - assert (Hin : inherited (property_key (Some c)) = false).
    { destruct Hc as [->|[->|[->|[->|[->| ->]]]]]; reflexivity. }
    destruct (calculatePriority_floor (Some c) n no_options Hin) as (_ & _ & H).
    + intros h [=].
    + intros a [=].
    + destruct H as (H1 & H2 & _); [reflexivity|]. split; assumption.
  - destruct Hc as [->|[->|[->|[->|[->| ->]]]]]; split; reflexivity.
Qed.

(** The numbers of the priority result cast, for a category of the schema:
    the three scores are numbers and the multiplier is one of the table. *)
Lemma calculatePriority_enum_breakdown (c : string) (count : outcome N) :
  one_of category_enum c = true ->
  let b := breakdown (calculatePriority (Some c) count no_options) in
  cast_number (complaintCountScore b) = true /\
  cast_number (timePendingScore b) = true /\
  cast_number (areaWeightScore b) = true /\
  cast_value (categoryMultiplier b) = true.
Proof.
  intros Hc. apply one_of_category_enum in Hc.
  destruct count as [n|message].
  - assert (Hin : inherited (property_key (Some c)) = false).
    { destruct Hc as [->|[->|[->|[->|[->| ->]]]]]; reflexivity. }
    destruct (calculatePriority_floor (Some c) n no_options Hin)
      as ((H1 & _) & (H2 & _) & _).
    + intros h [=].
    + intros a [=].
    + destruct (calculatePriority_formula (Some c) n no_options Hin)
        as (_ & _ & Em & _).
      cbv zeta. unfold cast_number.
      apply NumFacts.ge_spec in H1. apply NumFacts.ge_spec in H2.
      destruct H1 as (-> & _), H2 as (-> & _). rewrite Em.
      repeat split.
      destruct Hc as [->|[->|[->|[->|[->| ->]]]]]; reflexivity.
  - destruct Hc as [->|[->|[->|[->|[->| ->]]]]]; repeat split; reflexivity.
Qed.

Lemma score_at_score_of (scores : list (string * number)) (path : string)
  (v : number) :
  score_at scores path = Some v -> score_of scores path = v.
Proof.
  induction scores as [|[k w] rest IH]; cbn; [discriminate|].
  destruct (String.eqb k path); [now intros [= ->]|exact IH].
Qed.

(** The numbers of the keyword classifier cast. *)
Lemma fallbackTextClassification_numbers (text : string) (r : TextClassification) :
  fallbackTextClassification (Some text) = Returned r ->
  cast_number (tc_confidence r) = true /\
  forallb
    (fun path =>
       match score_at (scores r) path with
       | Some v => cast_number v
       | None => true
       end)
    score_paths = true.
Proof.
  intros Hr.
  assert (Hk : forall entry, In entry keywords ->
                 is_nan (keyword_score (hits (Str.toLowerCase text) (snd entry)))
                 = false /\
                 is_nan (min (keyword_score
                                (hits (Str.toLowerCase text) (snd entry))) n1)
                 = false).
  { intros entry He.
    destruct (keyword_score_cases (hits (Str.toLowerCase text) (snd entry)))
      as (H1 & _ & H2 & _).
    - etransitivity; [apply hits_le|now apply keywords_short].
    - split; [exact H1|]. apply NumFacts.ge_spec in H2. tauto. }
  destruct (fallbackTextClassification_cases text) as (r' & Hr' & Hs & Hcases).
  rewrite Hr in Hr'. injection Hr' as <-.
  unfold cast_number. split.
  - destruct Hcases as [(_ & -> & _)|(pre & entry & post & Hp & _ & -> & _)];
      [reflexivity|].
    assert (He : In entry keywords) by (rewrite Hp; apply in_elt).
    now rewrite (proj2 (Hk entry He)).
  - apply forallb_forall. intros path Hpath.
    destruct (score_at (scores r) path) as [v|] eqn:Hv; [|reflexivity].
    apply score_at_score_of in Hv.
    assert (He : exists entry, In entry keywords /\ fst entry = path).
    { clear -Hpath. unfold score_paths in Hpath.
      repeat (destruct Hpath as [<-|Hpath];
              [eexists (_, _); split; [|reflexivity]; cbn; tauto|]).
      destruct Hpath. }
    destruct He as (entry & He & <-).
    rewrite (Hs entry He) in Hv. subst v.
    now rewrite (proj1 (Hk entry He)).
Qed.

(** The numbers of the image classification cast when no probability of
    the model is NaN. *)
Lemma classifyImage_numbers
  (mobilenet : option (string -> outcome (list Prediction))) (imagePath : string) :
  (forall classify predictions p,
      mobilenet = Some classify -> classify imagePath = Returned predictions ->
      In p predictions -> is_nan (probability p) = false) ->
  cast_number (ic_confidence (classifyImage mobilenet imagePath)) = true /\
  forallb (fun p => cast_number (snd p))
    (allPredictions (classifyImage mobilenet imagePath)) = true.
Proof.
  intros H. unfold classifyImage.
  destruct mobilenet as [classify|]; [|split; reflexivity].
  destruct (classify imagePath) as [predictions|] eqn:Hc; [|split; reflexivity].
  specialize (H classify predictions).
  unfold cast_number. split.
  - destruct (map_predictions_cases predictions)
      as [(_ & -> & _)|(pre & p & post & category & _ & _ & Hg & _ & -> & _)];
      [reflexivity|].
    apply NumFacts.gt_not_nan in Hg. now rewrite (proj1 Hg).
  - cbn [map_predictions allPredictions]. apply forallb_forall.
    intros [label x] Hin. apply in_map_iff in Hin.
    destruct Hin as (p & [= <- <-] & Hin). cbn [snd].
    now rewrite (H p eq_refl Hc Hin).
Qed.

Section ComplaintsPost.

Variable mobilenet : option (string -> outcome (list Prediction)).
Variable find_recent : list Complaint -> outcome (list Complaint).
Variable countDocuments : list Complaint -> option string -> outcome N.

(** X12: when the text library is missing and the request carries no
    description, the route answers 500 and stores nothing, whatever the
    other fields are: the keyword classifier raises on the absent text, in
    the handler of [classifyText] as well. *)
Theorem complaints_post_without_description
  (create : list Complaint -> ComplaintInput -> outcome Complaint)
  (body : Body) (store : list Complaint) :
  body_description body = None ->
  exists message,
    complaints_post mobilenet None find_recent countDocuments create body store
    = ({| status := 500; json := Failure "Error creating complaint" message |},
       store).
Proof.
  intros Hd. unfold complaints_post, post_complaint, classify_image.
  rewrite Hd. cbn [option_map classifyText fallbackTextClassification].
  destruct (is_some (str_or (body_image body) None)); eexists; reflexivity.
Qed.

(** X13: when the text library is missing and the image model, if it is
    loaded, answers no prediction with a probability NaN, a request with a
    description and a location and no category is always stored, under the
    category the keyword classifier predicts: the route answers 201, the
    stored complaint is never of severity "low", and it is not flagged as a
    duplicate. *)
Theorem complaints_post_without_transformers (now : Z) (body : Body)
  (store : list Complaint) :
  (forall classify imagePath predictions p,
      mobilenet = Some classify -> classify imagePath = Returned predictions ->
      In p predictions -> is_nan (probability p) = false) ->
  required (body_description body) = true ->
  required (body_location body) = true ->
  str_or (body_category body) None = None ->
  exists complaint textClassification,
    fallbackTextClassification (body_description body)
    = Returned textClassification /\
    status (fst (complaints_post mobilenet None find_recent countDocuments
                   (schema_create now) body store)) = 201%nat /\
    snd (complaints_post mobilenet None find_recent countDocuments
           (schema_create now) body store) = store ++ [complaint] /\
    Some (category complaint) = predictedCategory textClassification /\
    aiSeverityLevel complaint <> "low"%string /\
    sd_isDuplicate (aiDuplicateCheck complaint) = false.
Proof.
  intros Hprob Hdesc Hloc Hcat.
  destruct (body_description body) as [text|] eqn:Ht; [|discriminate].
  destruct (fallbackTextClassification_cases text) as (r & Hr & _).
  assert (Hrange : exists c, predictedCategory r = Some c /\
                             one_of category_enum c = true /\ c <> ""%string).
  { destruct (fallbackTextClassification_cases text)
      as (r' & Hr' & _ & [(Hp & _)|(pre & entry & post & Hk & Hp & _)]);
      rewrite Hr in Hr'; injection Hr' as <-.
    - exists "Other"%string. repeat split; auto. discriminate.
    - exists (fst entry). split; [exact Hp|].
      assert (He : In entry keywords) by (rewrite Hk; apply in_elt).
      clear -He. repeat (destruct He as [<-|He]; [split; [reflexivity|discriminate]|]).
      destruct He. }
  destruct Hrange as (c & Hp & Hc & Hne).
  destruct (fallbackTextClassification_numbers text r Hr) as [Htc Hscores].
  set (priority := calculatePriority (Some c)
                     (countDocuments store (body_location body)) no_options).
  destruct (calculatePriority_enum_score c
              (countDocuments store (body_location body)) Hc) as [Hlo Hhi].
  destruct (calculatePriority_enum_breakdown c
              (countDocuments store (body_location body)) Hc)
    as (Hb1 & Hb2 & Hb3 & Hb4).
  fold priority in Hlo, Hhi, Hb1, Hb2, Hb3, Hb4.
  assert (Hfinal : str_or (body_category body) (Some c) = Some c).
  { unfold str_or in *. destruct (body_category body) as [s|]; [|reflexivity].
    destruct (String.eqb s ""); [reflexivity|discriminate]. }
  unfold complaints_post, post_complaint.
  rewrite Ht. cbn [option_map classifyText]. rewrite Hr.
  cbn [check_duplicate detectDuplicate fallbackDetectDuplicate isDuplicate andb
       similarity matchingComplaint matchedField generateEmbedding].
  unfold score_priority. rewrite Hp, Hfinal. fold priority.
  set (ic := classify_image _ body).
  assert (Hic : exists i,
             ic = Returned i /\
             cast_number (ic_confidence i) = true /\
             forallb (fun p => cast_number (snd p)) (allPredictions i) = true).
  { unfold ic, classify_image. destruct (is_some _).
    - eexists. split; [reflexivity|]. apply classifyImage_numbers.
      intros classify predictions p. apply Hprob.
    - exists no_image. repeat split. }
  destruct Hic as (i & -> & Hi1 & Hi2).
  unfold schema_create.
  assert (Hvalid : schema_valid
                     (new_complaint body i r fallbackDetectDuplicate priority None)
                   = true).
  { assert (Hs0 : ge (score priority) n0 = true).
    { unfold ge in *. apply (SFleb_trans _ n50); [reflexivity|assumption]. }
    assert (Hcast : cast_numbers
                      (new_complaint body i r fallbackDetectDuplicate priority None)
                    = true).
    { unfold cast_numbers, new_complaint.
      cbn [in_imageClassification in_textClassification in_embedding
           in_aiDuplicateCheck in_priorityScore in_priorityBreakdown
           sd_similarity].
      rewrite Hi1, Hi2, Htc, Hscores, Hb1, Hb2, Hb3, Hb4.
      unfold cast_number at 2. apply NumFacts.ge_spec in Hs0.
      destruct Hs0 as (-> & _). reflexivity. }
    unfold schema_valid. rewrite Hcast. unfold new_complaint.
    cbn [in_category in_description in_location in_priorityScore in_aiSeverityLevel].
    rewrite Hp, Hfinal.
    replace (str_or_default (Some c) "Other") with c.
    2:{ unfold str_or_default, str_or.
        destruct (String.eqb_spec c ""); [contradiction|reflexivity]. }
    rewrite Ht, Hc, Hdesc, Hloc, Hhi, Hs0. cbn [andb].
    unfold priority. rewrite calculatePriority_severity.
    apply severity_of_final_enum. }
  rewrite Hvalid.
  eexists. exists r. split; [reflexivity|].
  cbn [fst snd]. split; [reflexivity|]. split; [reflexivity|].
  cbn [category aiSeverityLevel aiDuplicateCheck new_complaint in_category
       in_aiSeverityLevel in_aiDuplicateCheck sd_isDuplicate].
  rewrite Hp, Hfinal.
  repeat split.
  - f_equal. unfold str_or_default, str_or.
    destruct (String.eqb_spec c ""); [contradiction|reflexivity].
  - unfold priority. rewrite calculatePriority_severity.
    apply severity_not_low. exact Hlo.
Qed.

End ComplaintsPost.

(** ** The report form and the page of complaints (app.js) *)

Section Report.

Variable classifyImage : string -> outcome ImageClassification.
Variable classifyText : option string -> outcome TextClassification.
Variable transformers : option (option string -> outcome vec).
Variable find_recent : list Complaint -> outcome (list Complaint).
Variable countDocuments : list Complaint -> option string -> outcome N.
Variable create : list Complaint -> ComplaintInput -> outcome Complaint.

(** The call of the form to the API, when the request goes through. *)
Local Abbreviation fetch :=
  (fun body store =>
     Returned
       (post_complaint classifyImage classifyText transformers find_recent
          countDocuments create body store)).


End Report.

(** X16: a complaint sent through the report form and accepted by the
    schema is listed, on the page of complaints, among the complaints of
    the user and not among the others. *)
Theorem report_then_complaints_page
  (classifyImage : string -> outcome ImageClassification)
  (classifyText : option string -> outcome TextClassification)
  (transformers : option (option string -> outcome vec))
  (find_recent : list Complaint -> outcome (list Complaint))
  (countDocuments : list Complaint -> option string -> outcome N)
  (now : Z) (form : Form) (file : option string) (store : list Complaint) :
  let submitted :=
    report
      (fun body store =>
         Returned
           (post_complaint classifyImage classifyText transformers find_recent
              countDocuments (schema_create now) body store))
      form file store in
  target (fst submitted) = "/complaints"%string ->
  exists complaint,
    snd submitted = store ++ [complaint] /\
    In complaint (fst (complaints_page (snd submitted))) /\
    ~ In complaint (snd (complaints_page (snd submitted))).
Proof.
  cbv zeta. unfold report, post_complaint.
  destruct (classify_image classifyImage _) as [imageClassification|];
    [|discriminate].
  cbn [body_description].
  destruct (classifyText (form_description form)) as [textClassification|];
    [|discriminate].
  destruct (isDuplicate _ && gt _ n0_85); [discriminate|].
  match goal with
  | |- context [schema_create now store ?i] =>
      destruct (schema_create now store i) as [complaint|] eqn:Hc; [|discriminate]
  end.
  intros _. exists complaint. cbn [fst snd]. split; [reflexivity|].
  assert (Hby : createdBy complaint = "Vanshika"%string).
  { unfold schema_create in Hc. destruct (schema_valid _); [|discriminate].
    injection Hc as <-. reflexivity. }
  unfold complaints_page. cbn [fst snd]. split.
  - apply filter_In. split; [apply in_elt|]. now rewrite Hby.
  - intros H. apply filter_In in H. destruct H as [_ H]. now rewrite Hby in H.
Qed.

(** ** Instances *)

Lemma classifyImage_best_prediction_witness :
  allPredictions (classifyImage (Some classify_street) "1.jpg")
  = map (fun p => (className p, probability p)) predictions_street.
Proof.
  apply (proj1 (classifyImage_best_prediction classify_street "1.jpg"
                  predictions_street eq_refl)).
Defined.

Lemma group_by_severity_sorted_concat_witness :
  g_critical (group_by_severity listing_sorted)
  ++ g_high (group_by_severity listing_sorted)
  ++ g_medium (group_by_severity listing_sorted)
  ++ g_low (group_by_severity listing_sorted)
  = listing_sorted.
Proof.
  apply (group_by_severity_sorted_concat listing_sorted).
  - repeat constructor.
  - intros c H. repeat (destruct H as [<-|H]; [reflexivity|]). destruct H.
Defined.

Lemma post_complaint_created_input_witness :
  exists input : ComplaintInput,
    sd_isDuplicate (in_aiDuplicateCheck input) = false /\
    in_createdBy input <> ""%string.
Proof.
  destruct (post_complaint_created_input classifyImage_plain classifyText_plain
              None find_all count_none (schema_create 0) body_complete [])
    as (input & complaint & _ & _ & Hd & _ & _ & _ & Hby & _).
  - vm_compute. reflexivity.
  - exists input. split; assumption.
Defined.

Lemma complaints_post_without_description_witness :
  exists message,
    complaints_post (Some classify_street) None find_all count_none
      (schema_create 0) body_without_description []
    = ({| status := 500; json := Failure "Error creating complaint" message |}, []).
Proof.
  apply (complaints_post_without_description (Some classify_street) find_all
           count_none (schema_create 0) body_without_description []).
  reflexivity.
Defined.

Lemma complaints_post_without_transformers_witness :
  exists complaint,
    snd (complaints_post (Some classify_street) None find_all count_none
           (schema_create 0) body_without_category [])
    = [complaint] /\
    aiSeverityLevel complaint <> "low"%string.
Proof.
  destruct (complaints_post_without_transformers (Some classify_street)
              find_all count_none 0 body_without_category [])
    as (complaint & textClassification & _ & _ & Hs & _ & Hl & _);
    try reflexivity.
  - intros classify imagePath predictions p [= <-] [= <-] Hp.
    repeat (destruct Hp as [<-|Hp]; [reflexivity|]). destruct Hp.
  - exists complaint. split; assumption.
Defined.

Lemma report_then_complaints_page_witness :
  exists complaint,
    snd (report
           (fun body store =>
              Returned
                (post_complaint classifyImage_plain classifyText_plain None
                   find_all count_none (schema_create 0) body store))
           form_complete None [])
    = [complaint] /\
    In complaint
      (fst (complaints_page
              (snd (report
                      (fun body store =>
                         Returned
                           (post_complaint classifyImage_plain classifyText_plain
                              None find_all count_none (schema_create 0) body store))
                      form_complete None [])))).
Proof.
  destruct (report_then_complaints_page classifyImage_plain classifyText_plain
              None find_all count_none 0 form_complete None [])
    as (complaint & Hs & Hin & _).
  - vm_compute. reflexivity.
  - exists complaint. split; assumption.
Defined.

(** ** Monotonicity of the priority score *)

Lemma SFleb_refl (x : number) : is_nan x = false -> SFleb x x = true.
Proof.
  intros H. change (ge x x = true). apply NumFacts.ge_spec.
  repeat split; auto. now right.
Qed.

Lemma positive_not_nan (x : number) : positive_number x -> is_nan x = false.
Proof. destruct x as [[]|[]| |[] m e]; intros H; try contradiction; reflexivity. Qed.

Lemma nonneg_not_nan (x : number) : nonneg x -> is_nan x = false.
Proof. destruct x as [[]|[]| |[] m e]; intros H; try contradiction; reflexivity. Qed.

Lemma positive_nonneg (x : number) : positive_number x -> nonneg x.
Proof. destruct x as [[]|[]| |[] m e]; intros H; try contradiction; exact H. Qed.

Lemma zero_le_nonneg (x : number) : nonneg x -> SFleb (S754_zero false) x = true.
Proof. destruct x as [[]|[]| |[] m e]; intros H; try contradiction; reflexivity. Qed.

Lemma inf_le (x : number) :
  positive_number x -> SFleb (S754_infinity false) x = true ->
  x = S754_infinity false.
Proof.
  destruct x as [[]|[]| |[] m e]; intros H; try contradiction; auto; discriminate.
Qed.

(** Multiplying by a normal positive constant keeps the order. *)
Lemma mul_mono (a x w : number) :
  positive_number a -> positive_number x -> normal w -> SFleb a x = true ->
  nonneg (mul a w) /\ nonneg (mul x w) /\ SFleb (mul a w) (mul x w) = true.
Proof.
  intros Pa Px Nw H.
  assert (Sa : nonneg (mul a w)).
  { apply mul_nonneg_normal; [|exact Nw].
    destruct a as [[]|[]| |[] m e]; try contradiction; exact I. }
  destruct a as [[]|[]| |[] m e]; try contradiction.
  - apply (inf_le x Px) in H. subst x. repeat split; auto.
    apply SFleb_refl. now apply nonneg_not_nan.
  - destruct (mul_ge x (S754_finite false m e) w Px Pa Nw H) as [Sx L].
    repeat split; assumption.
Qed.

Lemma add_ge_left (a y : number) :
  pos_finite a -> pos_finite y -> SFleb a (add a y) = true.
Proof.
  destruct a as [[]|[]| |[] ma ea]; try contradiction.
  destruct y as [[]|[]| |[] my ey]; try contradiction.
  cbn [pos_finite]. intros Ba By. rewrite add_finite.
  rewrite <- (rnd_valid_id ma ea Ba) at 1.
  set (b := Z.min ea ey).
  pose proof (pow2_pos (ey - b) ltac:(lia)).
  apply (rnd_mono _ _ _ _ b); try lia.
  rewrite Z.sub_diag, Z.pow_0_r. lia.
Qed.

(** Adding the same number that is not negative keeps the order. *)
Lemma add_mono_l (a x y : number) :
  pos_finite a -> positive_number x -> nonneg y -> SFleb a x = true ->
  positive_number (add a y) /\ positive_number (add x y) /\
  SFleb (add a y) (add x y) = true.
Proof.
  intros Fa Px Ny H.
  assert (Pa : positive_number a).
  { destruct a as [[]|[]| |[] m e]; try contradiction; exact Fa. }
  destruct y as [[]|[]| |[] my ey]; try contradiction.
  - (* y = 0 *)
    assert (Ea : add a (S754_zero false) = a).
    { destruct a as [[]|[]| |[] m e]; try contradiction; reflexivity. }
    assert (Ex : add x (S754_zero false) = x).
    { destruct x as [[]|[]| |[] m e]; try contradiction; reflexivity. }
    rewrite Ea, Ex. repeat split; assumption.
  - (* y = +infinity *)
    assert (Ea : add a (S754_infinity false) = S754_infinity false).
    { destruct a as [[]|[]| |[] m e]; try contradiction; reflexivity. }
    assert (Ex : add x (S754_infinity false) = S754_infinity false).
    { destruct x as [[]|[]| |[] m e]; try contradiction; reflexivity. }
    rewrite Ea, Ex. repeat split.
  - assert (Fy : pos_finite (S754_finite false my ey)) by exact Ny.
    assert (Ly : SFleb (S754_finite false my ey) (S754_finite false my ey) = true)
      by (apply SFleb_refl; reflexivity).
    assert (Py : positive_number (S754_finite false my ey)) by exact Ny.
    destruct (add_ge x _ a _ Px Py Fa Fy H Ly) as [Sx L].
    destruct (add_ge a _ a _ Pa Py Fa Fy (SFleb_refl a (positive_not_nan a Pa)) Ly)
      as [Sa _].
    pose proof (add_ge_left a _ Fa Fy) as La.
    repeat split.
    + apply (positive_of_ge _ a); assumption.
    + apply (positive_of_ge _ a); try assumption.
      apply (SFleb_trans _ _ _ La L).
    + exact L.
Qed.

(** [Math.round] of a valid positive number is a valid number that is not
    negative. *)
Lemma of_Z_pos (k : Z) : 0 < k -> of_Z k = to_float (rnd k 0).
Proof.
  intros H. destruct k as [|p|p]; try lia.
  unfold of_Z. cbn [binary_normalize]. apply binary_round_rnd.
Qed.

Lemma round_finite (m : positive) (e : Z) :
  e < 0 ->
  let k := (2 * Z.pos m + 2 ^ (- e)) / 2 ^ (- e + 1) in
  0 <= k /\
  round (S754_finite false m e)
  = if k =? 0 then S754_zero false else to_float (rnd k 0).
Proof.
  intros He k. unfold round.
  destruct (Z.leb_spec 0 e) as [?|_]; [lia|].
  rewrite Z.shiftr_div_pow2 by lia. fold k.
  pose proof (pow2_pos (- e) ltac:(lia)) as HA.
  pose proof (pow2_pos (- e + 1) ltac:(lia)) as HB.
  assert (Hk : 0 <= k) by (apply Z.div_pos; lia).
  split; [exact Hk|].
  destruct (Z.eqb_spec k 0); [reflexivity|]. apply of_Z_pos. lia.
Qed.

Lemma round_nonneg (x : number) : positive_number x -> nonneg (round x).
Proof.
  destruct x as [[]|[]| |[] m e]; intros H; try contradiction; [exact I|].
  destruct (Z.le_gt_cases 0 e) as [He|He].
  - unfold round. destruct (Z.leb_spec 0 e); [exact H|lia].
  - destruct (round_finite m e He) as [Hk ->].
    match goal with |- context [?k =? 0] => destruct (Z.eqb_spec k 0) end;
      [exact I|]. apply rnd_nonneg. lia.
Qed.

(** [Math.round] keeps the order of valid positive numbers. *)
Lemma round_mono (a x : number) :
  positive_number a -> positive_number x -> SFleb a x = true ->
  SFleb (round a) (round x) = true.
Proof.
  intros Pa Px H.
  pose proof (round_nonneg a Pa) as Na. pose proof (round_nonneg x Px) as Nx.
  destruct x as [[]|[]| |[] mx ex]; try contradiction.
  { now apply nonneg_le_inf. }
  destruct a as [[]|[]| |[] ma ea]; try contradiction; [discriminate|].
  cbn [positive_number] in Pa, Px.
  destruct (Z.le_gt_cases 0 ea) as [Hea|Hea], (Z.le_gt_cases 0 ex) as [Hex|Hex].
  - unfold round. destruct (Z.leb_spec 0 ea), (Z.leb_spec 0 ex); try lia. exact H.
  - (* a is an integer, x is not *)
    destruct (round_finite mx ex Hex) as [Hk Ex]. rewrite Ex. clear Ex.
    replace (round (S754_finite false ma ea)) with (S754_finite false ma ea)
      by (unfold round; destruct (Z.leb_spec 0 ea); [reflexivity|lia]).
    pose proof (valid_le_value ma ea mx ex ex Pa Px H ltac:(lia) ltac:(lia)) as V.
    rewrite Z.sub_diag, Z.pow_0_r, Z.mul_1_r in V.
    set (B := 2 ^ (- ex)) in *.
    assert (HB : 0 < B) by (apply pow2_pos; lia).
    assert (E2 : 2 ^ (- ex + 1) = 2 * B) by (unfold B; rewrite pow2_split by lia; ring).
    assert (Es : 2 ^ (ea - ex) = 2 ^ ea * B)
      by (unfold B; rewrite <- pow2_split by lia; f_equal; lia).
    rewrite E2 in *. rewrite Es in V.
    pose proof (pow2_pos ea Hea) as HA.
    set (k := (2 * Z.pos mx + B) / (2 * B)) in *.
    assert (Hle : Z.pos ma * 2 ^ ea <= k).
    { unfold k. apply Z.div_le_lower_bound; [lia|]. nia. }
    assert (Hk0 : 0 < k) by nia.
    destruct (Z.eqb_spec k 0); [lia|].
    rewrite <- (rnd_valid_id ma ea Pa).
    apply (rnd_mono _ _ _ _ 0); try lia.
    rewrite !Z.sub_0_r, Z.pow_0_r. lia.
  - (* x is an integer, a is not *)
    destruct (round_finite ma ea Hea) as [Hk Ea]. rewrite Ea. clear Ea.
    replace (round (S754_finite false mx ex)) with (S754_finite false mx ex)
      by (unfold round; destruct (Z.leb_spec 0 ex); [reflexivity|lia]).
    match goal with
    | |- context [?k =? 0] => destruct (Z.eqb_spec k 0) as [_|Hk0]
    end; [reflexivity|].
    pose proof (valid_le_value ma ea mx ex ea Pa Px H ltac:(lia) ltac:(lia)) as V.
    rewrite Z.sub_diag, Z.pow_0_r, Z.mul_1_r in V.
    set (A := 2 ^ (- ea)) in *.
    assert (HA : 0 < A) by (apply pow2_pos; lia).
    assert (E2 : 2 ^ (- ea + 1) = 2 * A) by (unfold A; rewrite pow2_split by lia; ring).
    assert (Es : 2 ^ (ex - ea) = 2 ^ ex * A)
      by (unfold A; rewrite <- pow2_split by lia; f_equal; lia).
    rewrite E2 in *. rewrite Es in V.
    pose proof (pow2_pos ex Hex) as HX.
    set (k := (2 * Z.pos ma + A) / (2 * A)) in *.
    assert (Hle : k <= Z.pos mx * 2 ^ ex).
    { unfold k. apply Z.lt_succ_r. apply Z.div_lt_upper_bound; [lia|]. nia. }
    rewrite <- (rnd_valid_id mx ex Px).
    apply (rnd_mono _ _ _ _ 0); try lia.
    rewrite !Z.sub_0_r, Z.pow_0_r. lia.
  - (* neither is an integer *)
    destruct (round_finite ma ea Hea) as [Hka Ea]. rewrite Ea. clear Ea.
    destruct (round_finite mx ex Hex) as [Hkx Ex]. rewrite Ex. clear Ex.
    pose proof (valid_le_value ma ea mx ex (ea + ex) Pa Px H ltac:(lia) ltac:(lia))
      as V.
    replace (ea - (ea + ex)) with (- ex) in V by lia.
    replace (ex - (ea + ex)) with (- ea) in V by lia.
    set (A := 2 ^ (- ea)) in *. set (B := 2 ^ (- ex)) in *.
    assert (HA : 0 < A) by (apply pow2_pos; lia).
    assert (HB : 0 < B) by (apply pow2_pos; lia).
    assert (EA : 2 ^ (- ea + 1) = 2 * A) by (unfold A; rewrite pow2_split by lia; ring).
    assert (EB : 2 ^ (- ex + 1) = 2 * B) by (unfold B; rewrite pow2_split by lia; ring).
    rewrite EA, EB in *.
    set (ka := (2 * Z.pos ma + A) / (2 * A)) in *.
    set (kx := (2 * Z.pos mx + B) / (2 * B)) in *.
    assert (Hle : ka <= kx).
    { unfold ka, kx.
      rewrite <- (Z.div_mul_cancel_r (2 * Z.pos ma + A) (2 * A) B) by lia.
      rewrite <- (Z.div_mul_cancel_r (2 * Z.pos mx + B) (2 * B) A) by lia.
      replace (2 * B * A) with (2 * A * B) by ring.
      apply Z.div_le_mono; nia. }
    destruct (Z.eqb_spec ka 0) as [_|Hne].
    + destruct (Z.eqb_spec kx 0); [reflexivity|].
      apply zero_le_nonneg, rnd_nonneg. lia.
    + destruct (Z.eqb_spec kx 0); [lia|].
      apply (rnd_mono _ _ _ _ 0); lia.
Qed.

(** [Math.min(x, 100)] keeps the order of numbers that are not negative. *)
Lemma min_100_mono (a x : number) :
  nonneg a -> nonneg x -> SFleb a x = true ->
  nonneg (min a n100) /\ nonneg (min x n100) /\
  SFleb (min a n100) (min x n100) = true /\ SFleb (min x n100) n100 = true.
Proof.
  intros Na Nx H.
  assert (Hmin : forall y, nonneg y ->
            min y n100 = if lt y n100 then y else n100).
  { intros y Ny. unfold min, lt, SFltb.
    destruct (SFcompare y n100) as [[]|] eqn:C; try reflexivity.
    - destruct y as [[]|[]| |[] m e]; try contradiction; reflexivity.
    - destruct y as [[]|[]| |[] m e]; try contradiction; discriminate. }
  rewrite (Hmin a Na), (Hmin x Nx).
  assert (H100 : SFleb n100 n100 = true) by reflexivity.
  destruct (lt a n100) eqn:La, (lt x n100) eqn:Lx.
  - repeat split; auto.
    apply NumFacts.lt_spec in Lx. change (ge n100 x = true).
    apply NumFacts.ge_spec. destruct Lx as (? & ? & ?). repeat split; auto. now left.
  - repeat split; auto.
    apply NumFacts.lt_spec in La. change (ge n100 a = true).
    apply NumFacts.ge_spec. destruct La as (? & ? & ?). repeat split; auto. now left.
  - exfalso.
    apply NumFacts.lt_spec in Lx. destruct Lx as (X1 & X2 & X3).
    change (ge x a = true) in H. apply NumFacts.ge_spec in H.
    destruct H as (_ & A1 & A2).
    assert (Hlt : lt a n100 = true).
    { apply NumFacts.lt_spec. repeat split; auto.
      eapply NumFacts.kle_klt_trans; eassumption. }
    congruence.
  - repeat split; auto.
Qed.

Lemma inf_le_nonneg (x : number) :
  nonneg x -> SFleb (S754_infinity false) x = true -> x = S754_infinity false.
Proof.
  destruct x as [[]|[]| |[] m e]; intros H; try contradiction; auto; discriminate.
Qed.

Lemma nonneg_cases (x : number) :
  nonneg x ->
  x = S754_zero false \/ x = S754_infinity false \/ pos_finite x.
Proof.
  destruct x as [[]|[]| |[] m e]; intros H; try contradiction; auto.
Qed.

Lemma pos_finite_positive (x : number) : pos_finite x -> positive_number x.
Proof. destruct x as [[]|[]| |[] m e]; intros H; try contradiction; exact H. Qed.

(** Multiplying numbers that are not negative by a normal positive constant
    keeps their order. *)
Lemma mul_mono_nonneg (a x w : number) :
  nonneg a -> nonneg x -> normal w -> SFleb a x = true ->
  nonneg (mul a w) /\ nonneg (mul x w) /\ SFleb (mul a w) (mul x w) = true.
Proof.
  intros Na Nx Nw H.
  assert (Sx : nonneg (mul x w)).
  { apply mul_nonneg_normal; [|exact Nw].
    destruct x as [[]|[]| |[] m e]; try contradiction; exact I. }
  destruct (nonneg_cases a Na) as [->|[->|Fa]].
  - assert (E : mul (S754_zero false) w = S754_zero false).
    { destruct w as [[]|[]| |[] m e]; try (destruct Nw; fail); reflexivity. }
    rewrite E. repeat split; auto. now apply zero_le_nonneg.
  - apply (inf_le_nonneg x Nx) in H. subst x. repeat split; auto.
    apply SFleb_refl. now apply nonneg_not_nan.
  - pose proof (positive_of_ge x a Nx Fa H) as Px.
    apply (mul_mono a x w); auto. now apply pos_finite_positive.
Qed.

Lemma add_zero_l (y : number) : nonneg y -> add (S754_zero false) y = y.
Proof. destruct y as [[]|[]| |[] m e]; intros H; try contradiction; reflexivity. Qed.

Lemma add_zero_r (x : number) : nonneg x -> add x (S754_zero false) = x.
Proof. destruct x as [[]|[]| |[] m e]; intros H; try contradiction; reflexivity. Qed.

Lemma add_inf_l (y : number) :
  nonneg y -> add (S754_infinity false) y = S754_infinity false.
Proof. destruct y as [[]|[]| |[] m e]; intros H; try contradiction; reflexivity. Qed.

Lemma add_inf_r (x : number) :
  nonneg x -> add x (S754_infinity false) = S754_infinity false.
Proof. destruct x as [[]|[]| |[] m e]; intros H; try contradiction; reflexivity. Qed.

(** A sum of numbers that are not negative is at least each of them. *)
Lemma add_nonneg_bounds (x y : number) :
  nonneg x -> nonneg y ->
  nonneg (add x y) /\ SFleb x (add x y) = true /\ SFleb y (add x y) = true.
Proof.
  intros Nx Ny.
  destruct (nonneg_cases y Ny) as [->|[->|Fy]].
  - rewrite add_zero_r by assumption. repeat split; auto.
    + apply SFleb_refl. now apply nonneg_not_nan.
    + now apply zero_le_nonneg.
  - rewrite add_inf_r by assumption. repeat split; auto.
    now apply nonneg_le_inf.
  - destruct (add_nonneg_ge x y Nx Fy) as [S L].
    repeat split; auto.
    destruct (nonneg_cases x Nx) as [->|[->|Fx]].
    + now apply zero_le_nonneg.
    + rewrite add_inf_l by assumption. reflexivity.
    + now apply add_ge_left.
Qed.

(** Addition keeps the order of numbers that are not negative, in both
    operands. *)
Lemma add_mono_nonneg (a b x y : number) :
  nonneg a -> nonneg b -> nonneg x -> nonneg y ->
  SFleb a x = true -> SFleb b y = true ->
  nonneg (add a b) /\ nonneg (add x y) /\ SFleb (add a b) (add x y) = true.
Proof.
  intros Na Nb Nx Ny Hax Hby.
  destruct (add_nonneg_bounds a b Na Nb) as (Sab & _ & _).
  destruct (add_nonneg_bounds x y Nx Ny) as (Sxy & Lx & Ly).
  split; [exact Sab|]. split; [exact Sxy|].
  destruct (nonneg_cases a Na) as [->|[->|Fa]].
  - rewrite add_zero_l by assumption. apply (SFleb_trans _ y); assumption.
  - apply (inf_le_nonneg x Nx) in Hax. subst x.
    rewrite !add_inf_l by assumption. reflexivity.
  - destruct (nonneg_cases b Nb) as [->|[->|Fb]].
    + rewrite add_zero_r by assumption. apply (SFleb_trans _ x); assumption.
    + apply (inf_le_nonneg y Ny) in Hby. subst y.
      rewrite !add_inf_r by assumption. reflexivity.
    + pose proof (positive_of_ge x a Nx Fa Hax) as Px.
      pose proof (positive_of_ge y b Ny Fb Hby) as Py.
      now apply add_ge.
Qed.

Lemma round_mono_nonneg (a x : number) :
  nonneg a -> nonneg x -> SFleb a x = true ->
  nonneg (round a) /\ nonneg (round x) /\ SFleb (round a) (round x) = true.
Proof.
  intros Na Nx H.
  assert (R : forall y, nonneg y -> nonneg (round y)).
  { intros y Ny. destruct (nonneg_cases y Ny) as [->|[->|Fy]]; try exact I.
    apply round_nonneg. now apply pos_finite_positive. }
  split; [now apply R|]. split; [now apply R|].
  destruct (nonneg_cases a Na) as [->|[->|Fa]].
  - apply zero_le_nonneg. now apply R.
  - apply (inf_le_nonneg x Nx) in H. subst x. reflexivity.
  - apply round_mono; auto; [now apply pos_finite_positive|].
    now apply (positive_of_ge x a).
Qed.

(** The effective value of an option that is a valid number and not
    negative. *)
Lemma or_default_nonneg (h d : number) :
  valid_binary prec emax h = true -> ge h n0 = true -> nonneg d ->
  nonneg (or_default h d).
Proof.
  intros V G Nd. unfold or_default.
  destruct h as [[]|[]| |[] m e]; try discriminate; cbn; auto.
Qed.

Lemma of_N_mono (n1 n2 : N) :
  (n1 <= n2)%N ->
  nonneg (of_Z (Z.of_N n1)) /\ nonneg (of_Z (Z.of_N n2)) /\
  SFleb (of_Z (Z.of_N n1)) (of_Z (Z.of_N n2)) = true.
Proof.
  intros H.
  assert (S : forall n, nonneg (of_Z (Z.of_N n))).
  { intros [|p]; [exact I|]. rewrite of_Z_pos by reflexivity.
    apply rnd_nonneg. reflexivity. }
  split; [apply S|]. split; [apply S|].
  destruct n1 as [|p1]; [apply zero_le_nonneg, S|].
  destruct n2 as [|p2]; [lia|].
  rewrite !of_Z_pos by reflexivity.
  apply (rnd_mono _ _ _ _ 0); lia.
Qed.

(** X17: the priority score never decreases when more complaints are
    reported at the same location or when the complaint has been pending
    for longer: for every category that names no inherited property, with
    the same area weight (a valid number that is not negative, or none),
    [k1 <= k2] complaints and [h1 <= h2] hours pending (valid numbers that
    are not negative), the score for [k2] and [h2] is at least the score for
    [k1] and [h1], in binary64 arithmetic. *)
Theorem calculatePriority_monotone (category : option string) (k1 k2 : N)
  (h1 h2 : number) (weight : option number) :
  inherited (property_key category) = false ->
  (k1 <= k2)%N ->
  valid_binary prec emax h1 = true -> valid_binary prec emax h2 = true ->
  ge h1 n0 = true -> ge h2 h1 = true ->
  (forall a, weight = Some a ->
     valid_binary prec emax a = true /\ ge a n0 = true) ->
  ge (score (calculatePriority category (Returned k2)
               {| hoursPending := Some h2; areaWeight := weight |}))
     (score (calculatePriority category (Returned k1)
               {| hoursPending := Some h1; areaWeight := weight |})) = true.
Proof.
  intros Hcat Hn V1 V2 G1 G21 Hw.
  destruct (calculatePriority_formula category k1
              {| hoursPending := Some h1; areaWeight := weight |} Hcat)
    as (Ec1 & Et1 & _ & Es1 & _).
  destruct (calculatePriority_formula category k2
              {| hoursPending := Some h2; areaWeight := weight |} Hcat)
    as (Ec2 & Et2 & _ & Es2 & _).
  rewrite Es1, Es2. unfold raw_score. rewrite Ec1, Ec2, Et1, Et2.
  cbn [breakdown calculatePriority areaWeightScore hoursPending areaWeight option_or].
  assert (N10 : normal n10) by (split; [reflexivity|discriminate]).
  assert (N2 : normal n2) by (split; [reflexivity|discriminate]).
  assert (N4 : normal n0_4) by (split; [reflexivity|discriminate]).
  assert (N3 : normal n0_3) by (split; [reflexivity|discriminate]).
  assert (S50 : nonneg n50) by reflexivity.
  assert (L50 : SFleb n50 n50 = true) by reflexivity.
  (* the count score *)
  destruct (of_N_mono k1 k2 Hn) as (Sx1 & Sx2 & Lx).
  destruct (mul_mono_nonneg _ _ n10 Sx1 Sx2 N10 Lx) as (Sm1 & Sm2 & Lm).
  destruct (add_mono_nonneg _ _ _ _ Sm1 S50 Sm2 S50 Lm L50) as (Sa1 & Sa2 & La).
  destruct (min_100_mono _ _ Sa1 Sa2 La) as (Sc1 & Sc2 & Lc & _).
  destruct (mul_mono_nonneg _ _ n0_4 Sc1 Sc2 N4 Lc) as (Su1 & Su2 & Lu).
  (* the time score *)
  assert (G2 : ge h2 n0 = true).
  { unfold ge in *. apply (SFleb_trans _ h1); assumption. }
  assert (St1 : nonneg (or_default h1 n0)) by (apply or_default_nonneg; auto; exact I).
  assert (St2 : nonneg (or_default h2 n0)) by (apply or_default_nonneg; auto; exact I).
  assert (Lh : SFleb (or_default h1 n0) (or_default h2 n0) = true).
  { unfold or_default.
    destruct (truthy h1) eqn:T1.
    - destruct (truthy h2) eqn:T2; [exact G21|].
      exfalso. clear -T1 T2 G21 G1 G2.
      destruct h2 as [[]|[]| |[] m2 e2]; try discriminate;
        destruct h1 as [[]|[]| |[] m1 e1]; discriminate.
    - destruct (truthy h2) eqn:T2; [|reflexivity].
      apply zero_le_nonneg.
      replace h2 with (or_default h2 n0) by (unfold or_default; now rewrite T2).
      exact St2. }
  destruct (mul_mono_nonneg _ _ n2 St1 St2 N2 Lh) as (Sh1 & Sh2 & Lh2).
  destruct (add_mono_nonneg _ _ _ _ Sh1 S50 Sh2 S50 Lh2 L50) as (Sb1 & Sb2 & Lb).
  destruct (min_100_mono _ _ Sb1 Sb2 Lb) as (Sd1 & Sd2 & Ld & _).
  destruct (mul_mono_nonneg _ _ n0_3 Sd1 Sd2 N3 Ld) as (Sv1 & Sv2 & Lv).
  (* the area weight score *)
  set (a := match weight with Some x => or_default x n50 | None => n50 end).
  assert (Sa : nonneg a).
  { unfold a. destruct weight as [x|]; [|reflexivity].
    destruct (Hw x eq_refl). apply or_default_nonneg; auto. }
  assert (Sw : nonneg (mul a n0_3)).
  { apply (mul_mono_nonneg a a n0_3 Sa Sa N3).
    apply SFleb_refl. now apply nonneg_not_nan. }
  assert (Lw : SFleb (mul a n0_3) (mul a n0_3) = true)
    by (apply SFleb_refl; now apply nonneg_not_nan).
  (* the raw score, the product, the rounding and the cap *)
  destruct (add_mono_nonneg _ _ _ _ Su1 Sv1 Su2 Sv2 Lu Lv) as (Ss1 & Ss2 & Ls).
  destruct (add_mono_nonneg _ _ _ _ Ss1 Sw Ss2 Sw Ls Lw) as (Sr1 & Sr2 & Lr).
  destruct (mul_mono_nonneg _ _ _ Sr1 Sr2 (normal_multiplier category) Lr)
    as (Sz1 & Sz2 & Lz).
  destruct (round_mono_nonneg _ _ Sz1 Sz2 Lz) as (Sk1 & Sk2 & Lk).
  destruct (min_100_mono _ _ Sk1 Sk2 Lk) as (_ & _ & L & _).
  exact L.
Qed.

(** ** Division returns valid numbers *)

(** The position of a remainder, as the division records it. *)
Lemma new_location_enc (q d r : Z) :
  0 <= q -> 0 < d -> 0 <= r < d ->
  enc (d * q + r) d (shr_record_of_loc q (new_location d r)).
Proof.
  intros Hq Hd Hr. unfold enc, new_location.
  assert (Hrem : forall m, d * q + r - d * shr_m (shr_record_of_loc q m) = r).
  { intros m. destruct m as [|[]]; cbn; ring. }
  assert (Hm : forall m, shr_m (shr_record_of_loc q m) = q).
  { intros m. destruct m as [|[]]; reflexivity. }
  cbv zeta. rewrite Hrem, Hm.
  split; [exact Hq|]. split; [exact Hr|].
  destruct (Z.even d) eqn:Ev.
  - unfold new_location_even. destruct (Z.eqb_spec r 0) as [->|Hne].
    + cbn [shr_record_of_loc shr_r shr_s]. split; split; intros H; try discriminate; first [lia | exfalso; lia].
    + destruct (Z.compare_spec (2 * r) d); cbn [shr_record_of_loc shr_r shr_s];
        split; split; intros H'; try discriminate; try reflexivity;
        first [lia | exfalso; lia].
  - unfold new_location_odd.
    assert (Hodd : 2 * r <> d).
    { intros E. rewrite <- E, Z.even_mul in Ev. discriminate. }
    destruct (Z.eqb_spec r 0) as [->|Hne].
    + cbn [shr_record_of_loc shr_r shr_s]. split; split; intros H; try discriminate; first [lia | exfalso; lia].
    + destruct (Z.compare_spec (2 * r + 1) d); cbn [shr_record_of_loc shr_r shr_s];
        split; split; intros H'; try discriminate; try reflexivity;
        first [lia | exfalso; lia].
Qed.

Lemma Zdigits2_nonneg (q : Z) :
  0 <= q -> 0 <= Zdigits2 q /\ q < 2 ^ Zdigits2 q /\
  (0 < q -> 2 ^ (Zdigits2 q - 1) <= q).
Proof.
  intros Hq. destruct q as [|p|p]; [cbn; lia| |lia].
  rewrite Zdigits2_LD. pose proof (LD_spec (Z.pos p) ltac:(lia)).
  unfold LD in *. pose proof (Z.log2_nonneg (Z.pos p)). repeat split; lia.
Qed.

(** The first shift of the rounding, from any position of the remainder. *)
Lemma shr_enc (N D : Z) (mrs : shr_record) (e k : Z) :
  0 < D -> 0 <= k -> enc N D mrs ->
  exists mrs', shr mrs e k = (mrs', e + k) /\ enc N (D * 2 ^ k) mrs'.
Proof.
  intros HD Hk He. destruct k as [|p|p]; try lia.
  - exists mrs. split; [cbn; f_equal; lia|]. now rewrite Z.pow_0_r, Z.mul_1_r.
  - exists (iter_pos shr_1 p mrs). split; [reflexivity|]. now apply enc_iter.
Qed.

(** The rounding of a quotient with at least 53 digits, or at an exponent
    below the subnormal range, is a valid number. *)
Lemma binary_round_aux_valid (s : bool) (q e : Z) (l : SpecFloat.location) (N D : Z) :
  0 < D -> 0 <= q -> enc N D (shr_record_of_loc q l) ->
  53 <= Zdigits2 q \/ e <= -1074 ->
  valid_binary prec emax (binary_round_aux prec emax s q e l) = true.
Proof.
  intros HD Hq Henc Hpre. unfold binary_round_aux.
  replace (shr_fexp prec emax q e l)
    with (shr (shr_record_of_loc q l) e (fx (Zdigits2 q + e) - e))
    by (unfold shr_fexp; now rewrite fexp_eq).
  destruct (Zdigits2_nonneg q Hq) as (Hd0 & Hup & Hlo).
  set (dq := Zdigits2 q) in *. set (ef := fx (dq + e)).
  pose proof (fx_ge (dq + e)) as [F G]. fold ef in F, G.
  assert (Hk : 0 <= ef - e) by lia.
  destruct (shr_enc N D _ e (ef - e) HD Hk Henc) as (mrs' & -> & Henc').
  replace (e + (ef - e)) with ef by lia.
  pose proof (pow2_pos (ef - e) Hk) as Hp.
  assert (HD' : 0 < D * 2 ^ (ef - e)) by lia.
  rewrite (enc_round _ _ _ HD' Henc').
  (* the quotient before and after the shift *)
  assert (Eq : shr_m (shr_record_of_loc q l) = q) by (destruct l as [|[]]; reflexivity).
  assert (Hqd : q = N / D).
  { destruct Henc as (_ & Hr & _). cbv zeta in Hr. rewrite Eq in Hr.
    apply (Z.div_unique N D q (N - D * q)); [lia|ring]. }
  assert (Hq' : N / (D * 2 ^ (ef - e)) = q / 2 ^ (ef - e)).
  { rewrite Hqd. now rewrite Z.div_div by lia. }
  pose proof (rne_bounds N (D * 2 ^ (ef - e)) HD') as [Rlo Rhi].
  rewrite Hq' in Rlo, Rhi.
  set (m := rne N (D * 2 ^ (ef - e))) in *.
  assert (Hq0 : 0 <= q / 2 ^ (ef - e)) by (apply Z.div_pos; lia).
  assert (Hm : 0 <= m <= 2 ^ 53).
  { split; [lia|].
    assert (q / 2 ^ (ef - e) < 2 ^ 53); [|lia].
    apply Z.div_lt_upper_bound; [lia|].
    rewrite <- pow2_split by lia.
    apply Z.lt_le_trans with (2 ^ dq); [exact Hup|].
    apply Z.pow_le_mono_r; lia. }
  assert (Hn : -1074 < ef -> 2 ^ 52 <= m).
  { intros Hn.
    assert (Eef : ef = dq + e - 53) by (unfold ef, fx in *; lia).
    assert (Hdq : 53 <= dq) by lia.
    assert (0 < q).
    { destruct (Z.eq_dec q 0) as [E0|]; [|lia]. exfalso.
      assert (dq = 0) by (unfold dq; rewrite E0; reflexivity). lia. }
    assert (2 ^ 52 <= q / 2 ^ (ef - e)); [|lia].
    apply Z.div_le_lower_bound; [lia|].
    rewrite <- pow2_split by lia.
    replace (ef - e + 52) with (dq - 1) by lia. now apply Hlo. }
  destruct (second_shift m ef F Hm) as (mrs2 & e2 & -> & Hc).
  assert (P52 : 2 ^ 52 = 4503599627370496) by reflexivity.
  assert (P53 : 2 ^ 53 = 9007199254740992) by reflexivity.
  unfold carry in Hc. destruct (Z.eqb_spec m (2 ^ 53)) as [E53|N53].
  - injection Hc as E1 E2.
    assert (E1' : shr_m mrs2 = 4503599627370496) by exact E1.
    rewrite E1', E2.
    change (emax - prec) with 971.
    destruct (Z.leb_spec (ef + 1) 971); [|reflexivity].
    cbn [valid_binary]. apply bounded_spec. split; [|assumption].
    change (LD 4503599627370496) with 53. unfold fx. lia.
  - injection Hc as E1 E2. rewrite E1, E2.
    destruct m as [|p|p]; [reflexivity| |lia].
    change (emax - prec) with 971.
    destruct (Z.leb_spec ef 971); [|reflexivity].
    cbn [valid_binary]. apply bounded_spec. split; [|assumption].
    assert (HL : LD (Z.pos p) <= 53) by (apply LD_lt_pow2; lia).
    destruct (Z.eq_dec ef (-1074)) as [Em|Em].
    + unfold fx. lia.
    + assert (HL' : 52 < LD (Z.pos p)) by (apply LD_le_pow2; lia).
      unfold fx. lia.
Qed.

(** Every quotient is a valid number. *)
Lemma div_valid (x y : number) : valid_binary prec emax (div x y) = true.
Proof.
  destruct x as [sx|sx| |sx mx ex], y as [sy|sy| |sy my ey]; try reflexivity.
  unfold div, SFdiv, SFdiv_core_binary. rewrite fexp_eq.
  rewrite !Zdigits2_LD.
  set (d1 := LD (Z.pos mx)). set (d2 := LD (Z.pos my)).
  fold (fx (d1 + ex - (d2 + ey))).
  set (e' := Z.min (fx (d1 + ex - (d2 + ey))) (ex - ey)).
  set (s := ex - ey - e').
  assert (Hs : 0 <= s) by (unfold s, e'; lia).
  set (m' := match s with
             | 0 => Z.pos mx
             | Z.pos _ => Z.shiftl (Z.pos mx) s
             | Z.neg _ => 0
             end).
  assert (Em : m' = Z.pos mx * 2 ^ s).
  { unfold m'. clearbody s. destruct s as [|p|p]; try lia.
    apply Z.shiftl_mul_pow2. lia. }
  pose proof (pow2_pos s Hs) as Hp.
  assert (Hm' : 0 < m') by (rewrite Em; lia).
  pose proof (Z_div_mod m' (Z.pos my) ltac:(lia)) as Hdm.
  destruct (Z.div_eucl m' (Z.pos my)) as [q r] eqn:Hqr.
  destruct Hdm as [Eqr Hr].
  assert (Hq : 0 <= q) by nia.
  apply (binary_round_aux_valid _ q e' _ m' (Z.pos my)); try lia.
  - rewrite Eqr. apply new_location_enc; lia.
  - destruct (Z.le_gt_cases e' (-1074)) as [Hle|Hgt]; [now right|left].
    pose proof (fx_ge (d1 + ex - (d2 + ey))) as [F G].
    assert (Hfx : fx (d1 + ex - (d2 + ey)) = d1 + ex - (d2 + ey) - 53)
      by (unfold e', fx in *; lia).
    assert (Hs53 : d2 - d1 + 53 <= s) by (unfold s, e'; lia).
    pose proof (LD_spec (Z.pos mx) ltac:(lia)) as [L1 _].
    pose proof (LD_spec (Z.pos my) ltac:(lia)) as [_ U2].
    fold d1 in L1. fold d2 in U2.
    assert (Hd1 : 1 <= d1) by (unfold d1, LD; pose proof (Z.log2_nonneg (Z.pos mx)); lia).
    assert (Hd2 : 1 <= d2) by (unfold d2, LD; pose proof (Z.log2_nonneg (Z.pos my)); lia).
    assert (Hbig : 2 ^ 52 <= q).
    { assert (Hq' : q = m' / Z.pos my).
      { apply (Z.div_unique m' (Z.pos my) q r); [lia|exact Eqr]. }
      rewrite Hq'. apply Z.div_le_lower_bound; [lia|].
      apply Z.le_trans with (2 ^ 52 * 2 ^ d2); [nia|].
      rewrite <- pow2_split by lia. rewrite Em.
      apply Z.le_trans with (2 ^ (d1 - 1) * 2 ^ s); [|nia].
      rewrite <- pow2_split by lia. apply Z.pow_le_mono_r; lia. }
    clear -Hbig.
    assert (P52 : 2 ^ 52 = 4503599627370496) by reflexivity.
    rewrite P52 in Hbig.
    destruct q as [|p|p]; try lia. rewrite Zdigits2_LD.
    assert (52 < LD (Z.pos p)) by (apply LD_le_pow2; lia). lia.
Qed.

(** ** The similarity the routes report *)

Lemma cosineSimilarity_valid (vecA vecB : vec) :
  valid_binary prec emax (cosineSimilarity vecA vecB) = true.
Proof.
  unfold cosineSimilarity. destruct vecA as [a|], vecB as [b|]; try reflexivity.
  destruct (negb _); [reflexivity|].
  destruct (cosine_loop a b (n0, n0, n0)) as [[d na] nb]. apply div_valid.
Qed.

Lemma valid_gt_positive (x c : number) :
  valid_binary prec emax x = true -> nonneg c -> gt x c = true ->
  positive_number x.
Proof.
  intros V Nc G.
  destruct c as [[]|[]| |[] mc ec]; try contradiction;
    destruct x as [[]|[]| |[] m e]; try discriminate; try exact I; exact V.
Qed.

(** What a reported duplicate carries: a valid similarity above the
    threshold, and a complaint of the window. *)
Lemma detectDuplicate_duplicate
  (transformers : option (option string -> outcome vec))
  (recentComplaints : outcome (list Complaint)) (text : option string) :
  let r := detectDuplicate transformers recentComplaints text in
  nonneg (similarity r) /\
  (isDuplicate r = true ->
   gt (similarity r) n0_85 = true /\
   exists window c,
     recentComplaints = Returned window /\ In c window /\ usable c = true /\
     matchingComplaint r = Some (_id c)).
Proof.
  unfold detectDuplicate.
  destruct transformers as [extractor|]; [|split; [exact I|discriminate]].
  destruct (extractor text) as [newEmbedding|]; [|split; [exact I|discriminate]].
  destruct recentComplaints as [window|]; [|split; [exact I|discriminate]].
  unfold detectDuplicate_window.
  destruct (Nat.eqb (List.length window) 0); [split; [exact I|discriminate]|].
  fold start.
  destruct (scan_result newEmbedding window start eq_refl)
    as [[-> _]|(pre & c & post & -> & Hu & -> & Hgt & _)];
    cbn [similarity matchingComplaint isDuplicate bm_similarity bm_complaint start
         option_map] in *.
  - split; [exact I|discriminate].
  - split.
    + apply positive_nonneg. apply (valid_gt_positive _ n0); auto; [|exact I].
      apply cosineSimilarity_valid.
    + intros H. split; [exact H|].
      exists (pre ++ c :: post), c. repeat split; auto. apply in_elt.
Qed.

(** The percentage reported for a similarity that is not negative is a
    number that is not negative, and at least 85 above the threshold. *)
Lemma percent_nonneg (x : number) :
  nonneg x ->
  nonneg (round (mul x n100)) /\
  (gt x n0_85 = true -> ge (round (mul x n100)) n85 = true).
Proof.
  intros Nx.
  assert (N100 : normal n100) by (split; [reflexivity|discriminate]).
  assert (N85 : nonneg n0_85) by reflexivity.
  destruct (mul_mono_nonneg x x n100 Nx Nx N100
              (SFleb_refl x (nonneg_not_nan x Nx))) as (Sm & _ & _).
  destruct (round_mono_nonneg _ _ Sm Sm (SFleb_refl _ (nonneg_not_nan _ Sm)))
    as (Sr & _ & _).
  split; [exact Sr|]. intros G.
  assert (L : SFleb n0_85 x = true).
  { change (ge x n0_85 = true). apply NumFacts.ge_spec.
    apply NumFacts.gt_spec in G. destruct G as (? & ? & ?).
    repeat split; auto. now left. }
  destruct (mul_mono_nonneg n0_85 x n100 N85 Nx N100 L) as (S1 & S2 & Lm).
  destruct (round_mono_nonneg _ _ S1 S2 Lm) as (_ & _ & Lr).
  exact Lr.
Qed.

Section DuplicateReports.

Variable classifyImage : string -> outcome ImageClassification.
Variable classifyText : option string -> outcome TextClassification.
Variable transformers : option (option string -> outcome vec).
Variable find_recent : list Complaint -> outcome (list Complaint).
Variable countDocuments : list Complaint -> option string -> outcome N.
Variable create : list Complaint -> ComplaintInput -> outcome Complaint.

(** X18: whenever POST /api/complaints answers 409, the similarity of the
    response is a percentage of at least 85, and the matching complaint is
    the identifier of a complaint, carrying an embedding, among the recent
    complaints the query returned. *)
Theorem post_complaint_conflict_similarity (body : Body) (store : list Complaint) :
  status (fst (post_complaint classifyImage classifyText transformers find_recent
                 countDocuments create body store)) = 409%nat ->
  exists similarity window c aiInsights,
    json (fst (post_complaint classifyImage classifyText transformers find_recent
                 countDocuments create body store))
    = DuplicateWarning "Potential duplicate complaint detected" similarity
        (Some (_id c)) aiInsights /\
    ge similarity n85 = true /\
    find_recent store = Returned window /\ In c window /\ usable c = true.
Proof.
  unfold post_complaint.
  destruct (classify_image classifyImage body) as [imageClassification|];
    [|discriminate].
  destruct (classifyText (body_description body)) as [textClassification|];
    [|discriminate].
  unfold check_duplicate.
  destruct (detectDuplicate_duplicate transformers (find_recent store)
              (body_description body)) as [Nn Hdup].
  cbv zeta in Nn, Hdup.
  destruct (isDuplicate _) eqn:Hd; cbn [andb].
  - destruct (Hdup eq_refl) as (G & window & c & Hw & Hin & Hu & Hm).
    rewrite G. intros _. cbn [fst json]. rewrite Hm.
    eexists _, window, c, _. split; [reflexivity|].
    split; [now apply percent_nonneg|]. repeat split; assumption.
  - match goal with
    | |- context [create store ?i] => destruct (create store i); discriminate
    end.
Qed.

(** X19: POST /api/complaints/duplicate-check refuses a request whose
    description is absent or empty with 400 and "Description required";
    otherwise it answers 200 with the result of the detector, where the
    similarity is a percentage that is a number, never negative; when the
    result is a duplicate the percentage is at least 85 and the matching
    complaint is present; when it is not, the percentage of a result
    without a match is 0. *)
Theorem duplicate_check_report (description : option string)
  (store : list Complaint) :
  (is_some (str_or description None) = false ->
   duplicate_check transformers find_recent description store
   = (400%nat, CheckRefused "Description required")) /\
  (is_some (str_or description None) = true ->
   exists report,
     duplicate_check transformers find_recent description store
     = (200%nat, CheckReport report) /\
     ge (sd_similarity report) n0 = true /\
     (sd_isDuplicate report = true ->
      ge (sd_similarity report) n85 = true /\
      exists id, sd_matchingComplaintId report = Some id) /\
     (sd_matchingComplaintId report = None ->
      sd_isDuplicate report = false /\ sd_similarity report = n0)).
Proof.
  unfold duplicate_check. split; intros H; rewrite H; [reflexivity|].
  eexists. split; [reflexivity|].
  cbn [sd_similarity sd_isDuplicate sd_matchingComplaintId].
  destruct (detectDuplicate_duplicate transformers (find_recent store) description)
    as [Nn Hdup]. cbv zeta in Nn, Hdup.
  destruct (percent_nonneg _ Nn) as [Np H85].
  repeat split.
  - change (SFleb n0 (round (mul (similarity
              (detectDuplicate transformers (find_recent store) description)) n100))
            = true).
    now apply zero_le_nonneg.
  - apply H85. now apply Hdup.
  - destruct (Hdup H0) as (_ & window & c & _ & _ & _ & Hm). now exists (_id c).
  - destruct (isDuplicate _) eqn:Hd; [|reflexivity].
    destruct (Hdup eq_refl) as (_ & window & c & _ & _ & _ & Hm). congruence.
  - (* with no match the scan kept its start *)
    revert H0. unfold detectDuplicate.
    destruct transformers as [extractor|]; [|reflexivity].
    destruct (extractor description) as [newEmbedding|]; [|reflexivity].
    destruct (find_recent store) as [window|]; [|reflexivity].
    unfold detectDuplicate_window.
    destruct (Nat.eqb (List.length window) 0); [reflexivity|].
    fold start.
    destruct (scan_result newEmbedding window start eq_refl)
      as [[-> _]|(pre & c & post & -> & Hu & -> & Hgt & _)];
      cbn [similarity matchingComplaint bm_similarity bm_complaint start option_map];
      [reflexivity|discriminate].
Qed.

End DuplicateReports.

(** ** The authentication routes *)

Lemma findOne_none (users : list User) (email : string) :
  findOne users email = None <-> ~ In email (map user_email users).
Proof.
  unfold findOne. induction users as [|u rest IH]; cbn; [tauto|].
  destruct (String.eqb_spec (user_email u) email) as [E|E].
  - split; [discriminate|]. intros H. exfalso. apply H. now left.
  - rewrite IH. tauto.
Qed.

Lemma findOne_app_new (users : list User) (user : User) :
  findOne users (user_email user) = None ->
  findOne (users ++ [user]) (user_email user) = Some user.
Proof.
  unfold findOne. induction users as [|u rest IH]; cbn.
  - now rewrite String.eqb_refl.
  - destruct (String.eqb (user_email u) (user_email user)); [discriminate|exact IH].
Qed.

Section AuthFacts.

Variable md5 : string -> string.
Variable sign : nat -> option string -> string.
Variable create_user :
  list User -> string -> string -> option string -> outcome User.

(** X20: registration keeps the emails of the collection distinct: when no
    two users share an email and the user model stores a new user under the
    email it is given, the collection after a registration, accepted or
    refused, still has no two users with the same email, and a refused
    registration (400) leaves the collection as it was. *)
Theorem register_keeps_emails_distinct (email : string) (name : option string)
  (password : string) (users users' : list User) (response : AuthResponse) :
  NoDup (map user_email users) ->
  (forall user, create_user users email (md5 password) name = Returned user ->
                user_email user = email) ->
  register md5 sign create_user email name password users
  = Returned (response, users') ->
  NoDup (map user_email users') /\
  (auth_status response = 400%nat <-> In email (map user_email users)) /\
  (auth_status response = 400%nat -> users' = users).
Proof.
  intros Hnd Hcreate. unfold register.
  destruct (findOne users email) as [u|] eqn:Hf.
  - intros [= <- <-]. cbn [auth_status]. repeat split; auto.
    intros _. destruct (in_dec string_dec email (map user_email users)) as [H|H];
      [exact H|]. apply findOne_none in H. congruence.
  - destruct (create_user users email (md5 password) name) as [user|] eqn:Hc;
      [|discriminate].
    intros [= <- <-]. cbn [auth_status].
    apply findOne_none in Hf. specialize (Hcreate user eq_refl).
    repeat split; try discriminate.
    + rewrite map_app. cbn [map]. rewrite Hcreate.
      apply NoDup_app; [exact Hnd|repeat constructor; intros []|].
      intros e He [<-|[]]. contradiction.
    + intros H. contradiction.
Qed.

(** X21: a registered user can log in: after a registration answered 201,
    with a user model that stores the email and the digest it is given,
    logging in with the same email and password answers 200 with the
    registered user and sets a cookie, and logging in with a password of
    another digest answers 401 and sets none. *)
Theorem register_then_login (email : string) (name : option string)
  (password : string) (users users' : list User) (response : AuthResponse) :
  (forall user, create_user users email (md5 password) name = Returned user ->
                user_email user = email /\ user_password user = md5 password) ->
  register md5 sign create_user email name password users
  = Returned (response, users') ->
  auth_status response = 201%nat ->
  auth_status (login md5 sign email password users') = 200%nat /\
  auth_user (login md5 sign email password users') = auth_user response /\
  auth_cookie (login md5 sign email password users') <> None /\
  (forall other, md5 other <> md5 password ->
     auth_status (login md5 sign email other users') = 401%nat /\
     auth_cookie (login md5 sign email other users') = None).
Proof.
  intros Hcreate. unfold register.
  destruct (findOne users email) as [u|] eqn:Hf; [intros [= <- <-]; discriminate|].
  destruct (create_user users email (md5 password) name) as [user|] eqn:Hc;
    [|discriminate].
  intros [= <- <-] _. cbn [auth_user].
  destruct (Hcreate user eq_refl) as [He Hp].
  assert (Hfind : findOne (users ++ [user]) email = Some user).
  { rewrite <- He. apply findOne_app_new. now rewrite He. }
  unfold login. rewrite Hfind, Hp, String.eqb_refl. cbn.
  repeat split; try discriminate;
    destruct (String.eqb_spec (md5 password) (md5 other)); try reflexivity;
    exfalso; auto.
Qed.

End AuthFacts.

(** ** When the text classifier raises *)

(** X23: [classifyText] raises exactly when the text is absent and the
    keyword classifier is reached, that is when the library is missing or
    its classifier raised on the absent text; for every text that is present
    it returns, with the answer of the keyword classifier when the library
    is missing or its classifier raises. *)
Theorem classifyText_raises_iff
  (transformers : option (option string -> outcome ZeroShot))
  (text : option string) :
  ((exists message, classifyText transformers text = Thrown message) <->
   text = None /\
   (transformers = None \/
    exists classifier message,
      transformers = Some classifier /\ classifier None = Thrown message)) /\
  (forall t, text = Some t ->
     exists r, classifyText transformers text = Returned r /\
       (transformers = None \/
        (exists classifier message,
           transformers = Some classifier /\ classifier text = Thrown message) ->
        fallbackTextClassification text = Returned r)).
Proof.
  split.
  - unfold classifyText. destruct transformers as [classifier|].
    + destruct text as [t|].
      * destruct (fallbackTextClassification_cases t) as (r & Hr & _).
        destruct (classifier (Some t)) as [[first others]|]; [|rewrite Hr];
          (split; [intros (m & H); discriminate|intros ([=] & _)]).
      * destruct (classifier None) as [[first others]|message] eqn:Hc; cbn.
        -- split; [intros (m & H); discriminate|].
           intros (_ & [H|(c & m & [= <-] & H)]); congruence.
        -- split; [|intros _; eexists; reflexivity].
           intros _. split; [reflexivity|]. right. now exists classifier, message.
    + destruct text as [t|].
      * destruct (fallbackTextClassification_cases t) as (r & Hr & _). rewrite Hr.
        split; [intros (m & H); discriminate|intros ([=] & _)].
      * cbn. split; [auto|intros _; eexists; reflexivity].
  - intros t ->. unfold classifyText.
    destruct (fallbackTextClassification_cases t) as (r & Hr & _).
    destruct transformers as [classifier|].
    + destruct (classifier (Some t)) as [[first others]|message] eqn:Hc.
      * eexists. split; [reflexivity|].
        intros [H|(c & m & [= <-] & H)]; congruence.
      * exists r. split; [exact Hr|]. intros _. exact Hr.
    + exists r. split; [exact Hr|]. intros _. exact Hr.
Qed.

(** ** More instances *)

Lemma calculatePriority_monotone_witness :
  ge (score (calculatePriority (Some "Garbage"%string) (Returned 3%N)
               {| hoursPending := Some n2; areaWeight := Some n60 |}))
     (score (calculatePriority (Some "Garbage"%string) (Returned 1%N)
               {| hoursPending := Some n1; areaWeight := Some n60 |})) = true.
Proof.
  apply (calculatePriority_monotone (Some "Garbage"%string) 1%N 3%N n1 n2 (Some n60));
    try reflexivity.
  - lia.
  - intros a [= <-]. split; reflexivity.
Defined.

Lemma post_complaint_conflict_similarity_witness :
  exists similarity c aiInsights,
    json (fst (post_complaint classifyImage_plain classifyText_plain
                 (Some (constant_extractor candidate_1)) find_all count_none
                 (schema_create 0) body_complete window_tie_after))
    = DuplicateWarning "Potential duplicate complaint detected" similarity
        (Some (_id c)) aiInsights /\
    ge similarity n85 = true /\ In c window_tie_after.
Proof.
  destruct (post_complaint_conflict_similarity classifyImage_plain
              classifyText_plain (Some (constant_extractor candidate_1)) find_all
              count_none (schema_create 0) body_complete window_tie_after)
    as (similarity & window & c & aiInsights & Hj & Hs & Hw & Hin & _).
  - vm_compute. reflexivity.
  - injection Hw as <-. exists similarity, c, aiInsights. auto.
Defined.

Lemma register_keeps_emails_distinct_witness :
  NoDup (map user_email [registered_user; second_user]) /\
  (auth_status refused_response = 400%nat /\
   In "a@b.c"%string (map user_email [registered_user])).
Proof.
  split.
  - apply (register_keeps_emails_distinct md5_example sign_example create_plain
             "d@e.f" (Some "D"%string) "hidden" [registered_user]
             [registered_user; second_user] second_response).
    + repeat constructor. intros [].
    + intros user [= <-]. reflexivity.
    + reflexivity.
  - split; [reflexivity|].
    apply (register_keeps_emails_distinct md5_example sign_example create_plain
             "a@b.c" None "other" [registered_user] [registered_user]
             refused_response).
    + repeat constructor. intros [].
    + intros user [= <-]. reflexivity.
    + reflexivity.
    + reflexivity.
Defined.

Lemma register_then_login_witness :
  auth_status (login md5_example sign_example "a@b.c" "secret" [registered_user])
  = 200%nat.
Proof.
  apply (register_then_login md5_example sign_example create_plain
           "a@b.c" None "secret" [] [registered_user] registered_response).
  - intros user [= <-]. split; reflexivity.
  - reflexivity.
  - reflexivity.
Defined.

(** ** The range of the scores and of the stored similarity *)

Lemma min_100_cases (x : number) :
  min x n100 = NaN \/ (min x n100 = x /\ lt x n100 = true) \/ min x n100 = n100.
Proof.
  unfold min, lt, SFltb.
  destruct (SFcompare x n100) as [[]|] eqn:C; auto.
  destruct x as [[]|[]| |[] m e]; auto; discriminate.
Qed.

(** X24: whatever the category, the count query and the options are, the
    score [calculatePriority] returns is NaN or at most 100; on the
    fallback path it is one of 50, 55, 60, 65, 70 and 85. *)
Theorem calculatePriority_score_capped (category : option string)
  (count : outcome N) (options : Options) :
  let r := calculatePriority category count options in
  (is_nan (score r) = true \/ ge n100 (score r) = true) /\
  (forall message, count = Thrown message ->
     In (score r) [n50; of_Z 55; n60; of_Z 65; of_Z 70; of_Z 85]).
Proof.
  cbv zeta. destruct count as [n|message]; split.
  - unfold calculatePriority. cbn [score].
    match goal with
    | |- context [min ?x n100] =>
        destruct (min_100_cases x) as [E|[[E H]|E]]; rewrite E
    end.
    + now left.
    + right. apply NumFacts.lt_spec in H. destruct H as (? & ? & ?).
      apply NumFacts.ge_spec. repeat split; auto. now left.
    + now right.
  - intros m [=].
  - replace (score (calculatePriority category (Thrown message) options))
      with (fb_score (fallbackCalculatePriority category)) by reflexivity.
    unfold fallbackCalculatePriority.
    repeat match goal with
      | |- context [if ?b then _ else _] => destruct b
      end; right; reflexivity.
  - intros ? _.
    replace (score (calculatePriority category (Thrown message) options))
      with (fb_score (fallbackCalculatePriority category)) by reflexivity.
    unfold fallbackCalculatePriority.
    repeat match goal with
      | |- context [if ?b then _ else _] => destruct b
      end; cbn; auto 10.
Qed.

Lemma min_100_nonneg (y : number) :
  nonneg y -> min y n100 = if lt y n100 then y else n100.
Proof.
  intros Ny. unfold min, lt, SFltb.
  destruct (SFcompare y n100) as [[]|] eqn:C; try reflexivity.
  - destruct y as [[]|[]| |[] m e]; try contradiction; reflexivity.
  - destruct y as [[]|[]| |[] m e]; try contradiction; discriminate.
Qed.

(** The rounded and capped product of a raw score of at least 50 by a
    multiplier of at least 1 is an integer from 50 to 100. *)
Lemma final_score_integer (raw m : number) :
  positive_number raw -> SFleb n50 raw = true -> normal m ->
  SFleb n50 (mul n50 m) = true ->
  exists k, 50 <= k <= 100 /\ min (round (mul raw m)) n100 = of_Z k.
Proof.
  intros Pr Hr Nm Hm.
  destruct (mul_ge raw n50 m Pr ltac:(reflexivity) Nm Hr) as [Q L].
  pose proof (SFleb_trans _ _ _ Hm L) as L'.
  pose proof (positive_of_ge _ n50 Q ltac:(reflexivity) L') as P.
  destruct (round_ge50 _ P L') as [P' L''].
  set (z := mul raw m) in *.
  assert (Hcap : forall k, 100 <= k -> min (of_Z k) n100 = n100).
  { intros k Hk.
    assert (G : ge (of_Z k) n100 = true).
    { unfold ge. rewrite of_Z_pos by lia. change n100 with (of_Z 100).
      rewrite (of_Z_pos 100) by lia. apply (rnd_mono _ _ _ _ 0); lia. }
    rewrite min_100_nonneg by (rewrite of_Z_pos by lia; apply rnd_nonneg; lia).
    pose proof G as G'. apply NumFacts.ge_spec in G'. destruct G' as (Hn & H100 & _).
    rewrite (NumFacts.ge_negb_lt _ _ Hn H100) in G.
    apply negb_true_iff in G. now rewrite G. }
  destruct z as [[]|[]| |[] mz ez] eqn:Ez; try contradiction.
  - exists 100. split; [lia|]. reflexivity.
  - cbn [positive_number] in P.
    destruct (Z.le_gt_cases 0 ez) as [Hez|Hez].
    + (* an integer of at least 2^52 *)
      exists 100. split; [lia|].
      unfold round. destruct (Z.leb_spec 0 ez); [|lia].
      unfold min, SFcompare, n100.
      destruct (Z.compare_spec ez (-46)); try lia. reflexivity.
    + destruct (round_finite mz ez Hez) as [Hk Er]. rewrite Er in *.
      set (k := (2 * Z.pos mz + 2 ^ (- ez)) / 2 ^ (- ez + 1)) in *.
      destruct (Z.eqb_spec k 0) as [E0|N0]; [contradiction|].
      rewrite <- of_Z_pos in * by lia.
      assert (H50 : 50 <= k).
      { destruct (Z.le_gt_cases 50 k) as [?|Hlt]; [assumption|exfalso].
        assert (G : SFleb (of_Z k) (of_Z 49) = true).
        { rewrite !of_Z_pos by lia. apply (rnd_mono _ _ _ _ 0); lia. }
        pose proof (SFleb_trans _ _ _ L'' G) as Bad. vm_compute in Bad.
        discriminate. }
      destruct (Z.le_gt_cases 100 k) as [Hge|Hlt].
      * exists 100. split; [lia|]. now apply Hcap.
      * exists k. split; [lia|].
        assert (G : SFleb (of_Z k) (of_Z 99) = true).
        { rewrite !of_Z_pos by lia. apply (rnd_mono _ _ _ _ 0); lia. }
        change (ge (of_Z 99) (of_Z k) = true) in G.
        apply NumFacts.ge_spec in G. destruct G as (_ & Hn & Hle).
        assert (Hlt' : lt (of_Z k) n100 = true).
        { apply NumFacts.lt_spec. repeat split; auto.
          eapply NumFacts.kle_klt_trans; [exact Hle|].
          vm_compute. auto. }
        rewrite min_100_nonneg by (rewrite of_Z_pos by lia; apply rnd_nonneg; lia).
        now rewrite Hlt'.
Qed.

(** X25: under the conditions of the floor of the score (a category that
    names no inherited property, hours pending that are not negative, an
    effective area weight that is a valid number of at least 50), the score
    [calculatePriority] returns is a whole number from 50 to 100, on the
    main path and on the fallback path. *)
Theorem calculatePriority_score_integer (category : option string)
  (count : outcome N) (options : Options) :
  inherited (property_key category) = false ->
  (forall h, hoursPending options = Some h -> ge h n0 = true) ->
  (forall a, areaWeight options = Some a -> valid_binary prec emax a = true) ->
  ge (option_or (areaWeight options) n50) n50 = true ->
  exists k : Z,
    50 <= k <= 100 /\ score (calculatePriority category count options) = of_Z k.
Proof.
  intros Hcat Hh Ha La. destruct count as [n|message].
  - destruct (calculatePriority_formula category n options Hcat)
      as (Ec & Et & Em & Es & Esev).
    set (r := calculatePriority category (Returned n) options) in *.
    set (b := breakdown r) in *.
    assert (N10 : normal n10) by (split; [reflexivity|discriminate]).
    assert (N2 : normal n2) by (split; [reflexivity|discriminate]).
    destruct (sub_score_range (of_Z (Z.of_N n)) n10 (of_N_shape n) N10)
      as (Pc & Lc & Uc).
    rewrite <- Ec in Pc, Lc, Uc.
    assert (Hshape : match option_or (hoursPending options) n0 with
                     | S754_zero false | S754_infinity false
                     | S754_finite false _ _ => True
                     | _ => False
                     end).
    { unfold option_or. destruct (hoursPending options) as [h|] eqn:E; [|exact I].
      apply or_default_shape. now apply Hh. }
    destruct (sub_score_range _ n2 Hshape N2) as (Pt & Lt & Ut).
    rewrite <- Et in Pt, Lt, Ut.
    assert (Eb : areaWeightScore b = option_or (areaWeight options) n50)
      by reflexivity.
    assert (Pa : positive_number (areaWeightScore b)).
    { rewrite Eb. unfold option_or in *.
      destruct (areaWeight options) as [a|] eqn:E; [|reflexivity].
      unfold or_default in *. destruct (truthy a) eqn:T; [|reflexivity].
      specialize (Ha a eq_refl).
      destruct a as [[]|[]| |[] ma ea]; try discriminate; [exact I|exact Ha]. }
    rewrite <- Eb in La.
    destruct (raw_score_floor _ _ _ Pc Pt Pa Lc Lt La) as [Pr Lr].
    fold (raw_score b) in Pr, Lr.
    rewrite Es.
    apply final_score_integer; auto.
    + apply normal_multiplier.
    + apply multiplier_at_least_one.
  - replace (score (calculatePriority category (Thrown message) options))
      with (fb_score (fallbackCalculatePriority category)) by reflexivity.
    unfold fallbackCalculatePriority.
    repeat match goal with
      | |- context [if ?b then _ else _] => destruct b
      end; cbn [fb_score];
      [exists 85|exists 70|exists 65|exists 60|exists 55|exists 50];
      (split; [lia|reflexivity]).
Qed.

Lemma calculatePriority_score_integer_witness :
  exists k : Z,
    50 <= k <= 100 /\
    score (calculatePriority (Some "Garbage"%string) (Returned 3%N)
             {| hoursPending := Some n2; areaWeight := Some n60 |}) = of_Z k.
Proof.
  apply (calculatePriority_score_integer (Some "Garbage"%string) (Returned 3%N)
           {| hoursPending := Some n2; areaWeight := Some n60 |}).
  - reflexivity.
  - intros h [= <-]. reflexivity.
  - intros a [= <-]. reflexivity.
  - reflexivity.
Defined.

(** ** Entries without an embedding *)

Lemma scan_filter_usable (newEmbedding : vec) (window : list Complaint)
  (b : BestMatch) :
  scan newEmbedding (filter usable window) b = scan newEmbedding window b.
Proof.
  unfold scan. revert b. induction window as [|c rest IH]; intros b; [reflexivity|].
  cbn [filter fold_left]. unfold usable at 1.
  destruct (no_embedding c) eqn:E; cbn [negb].
  - rewrite IH. unfold scan_step. now rewrite E.
  - cbn [fold_left]. apply IH.
Qed.

(** X26: the entries of the window that carry no embedding change nothing:
    the detector reports the same duplicate flag, the same similarity and
    the same matching complaint on the window and on the window without
    them (only [matchedField] tells an emptied window from an empty
    one). *)
Theorem detectDuplicate_ignores_entries_without_embedding
  (transformers : option (option string -> outcome vec))
  (window : list Complaint) (text : option string) :
  let r := detectDuplicate transformers (Returned window) text in
  let r' := detectDuplicate transformers (Returned (filter usable window)) text in
  isDuplicate r = isDuplicate r' /\
  similarity r = similarity r' /\
  matchingComplaint r = matchingComplaint r' /\
  (matchedField r <> matchedField r' ->
   window <> [] /\ filter usable window = []).
Proof.
  cbv zeta. unfold detectDuplicate.
  destruct transformers as [extractor|]; [|repeat split; congruence].
  destruct (extractor text) as [newEmbedding|]; [|repeat split; congruence].
  unfold detectDuplicate_window.
  destruct window as [|c rest]; [cbn; repeat split; congruence|].
  cbn [List.length Nat.eqb].
  rewrite <- (scan_filter_usable newEmbedding (c :: rest)).
  destruct (filter usable (c :: rest)) as [|c' rest'] eqn:F.
  - cbn. repeat split; congruence.
  - cbn [List.length Nat.eqb isDuplicate similarity matchingComplaint matchedField].
    repeat split; congruence.
Qed.

(** ** The similarity a stored complaint carries *)

Lemma percent_at_most_85 (x : number) :
  nonneg x -> gt x n0_85 = false -> ge n85 (round (mul x n100)) = true.
Proof.
  intros Nx G.
  assert (N100 : normal n100) by (split; [reflexivity|discriminate]).
  assert (N85 : nonneg n0_85) by reflexivity.
  assert (L : SFleb x n0_85 = true).
  { change (ge n0_85 x = true).
    rewrite (NumFacts.ge_negb_lt n0_85 x eq_refl (nonneg_not_nan x Nx)).
    unfold lt. unfold gt in G. now rewrite G. }
  destruct (mul_mono_nonneg x n0_85 n100 Nx N85 N100 L) as (S1 & S2 & Lm).
  destruct (round_mono_nonneg _ _ S1 S2 Lm) as (_ & _ & Lr).
  exact Lr.
Qed.

(** X27: whenever POST /api/complaints answers 201, the duplicate check
    handed to [Complaint.create] carries a similarity that is a percentage
    from 0 to 85, and the percentage is 0 when it names no matching
    complaint. *)
Theorem post_complaint_created_similarity
  (classifyImage : string -> outcome ImageClassification)
  (classifyText : option string -> outcome TextClassification)
  (transformers : option (option string -> outcome vec))
  (find_recent : list Complaint -> outcome (list Complaint))
  (countDocuments : list Complaint -> option string -> outcome N)
  (create : list Complaint -> ComplaintInput -> outcome Complaint)
  (body : Body) (store : list Complaint) :
  status (fst (post_complaint classifyImage classifyText transformers find_recent
                 countDocuments create body store)) = 201%nat ->
  exists input complaint,
    create store input = Returned complaint /\
    ge (sd_similarity (in_aiDuplicateCheck input)) n0 = true /\
    ge n85 (sd_similarity (in_aiDuplicateCheck input)) = true /\
    (sd_matchingComplaintId (in_aiDuplicateCheck input) = None ->
     sd_similarity (in_aiDuplicateCheck input) = n0).
Proof.
  unfold post_complaint.
  destruct (classify_image classifyImage body) as [imageClassification|];
    [|discriminate].
  destruct (classifyText (body_description body)) as [textClassification|];
    [|discriminate].
  unfold check_duplicate.
  set (d := detectDuplicate transformers (find_recent store) (body_description body)).
  destruct (detectDuplicate_duplicate transformers (find_recent store)
              (body_description body)) as [Nn Hdup].
  cbv zeta in Nn, Hdup. fold d in Nn, Hdup.
  destruct (isDuplicate d && gt (similarity d) n0_85) eqn:Hd; [discriminate|].
  match goal with
  | |- context [create store ?i] =>
      set (inp := i); destruct (create store inp) as [c|] eqn:Hc; [|discriminate]
  end.
  intros _. exists inp, c. split; [exact Hc|].
  assert (Hgt : gt (similarity d) n0_85 = false).
  { destruct (isDuplicate d) eqn:E; [|].
    - destruct (Hdup eq_refl) as [G _]. rewrite G in Hd. discriminate.
    - destruct (gt (similarity d) n0_85) eqn:G; [|reflexivity].
      exfalso. clear -E G. unfold d, detectDuplicate in *.
      destruct transformers as [extractor|]; [|discriminate].
      destruct (extractor (body_description body)); [|discriminate].
      destruct (find_recent store) as [window|]; [|discriminate].
      unfold detectDuplicate_window in *.
      destruct (Nat.eqb (List.length window) 0); [discriminate|].
      cbn [isDuplicate similarity] in *. unfold DUPLICATE_THRESHOLD in E.
      congruence. }
  unfold inp, new_complaint. cbn [in_aiDuplicateCheck sd_similarity sd_matchingComplaintId].
  destruct (percent_nonneg _ Nn) as [Np _].
  repeat split.
  - change (SFleb n0 (round (mul (similarity d) n100)) = true).
    now apply zero_le_nonneg.
  - now apply percent_at_most_85.
  - unfold d, detectDuplicate.
    destruct transformers as [extractor|]; [|reflexivity].
    destruct (extractor (body_description body)) as [newEmbedding|]; [|reflexivity].
    destruct (find_recent store) as [window|]; [|reflexivity].
    unfold detectDuplicate_window.
    destruct (Nat.eqb (List.length window) 0); [reflexivity|].
    fold start.
    destruct (scan_result newEmbedding window start eq_refl)
      as [[-> _]|(pre & c0 & post & -> & Hu & -> & Hg & _)];
      cbn [similarity matchingComplaint bm_similarity bm_complaint start option_map];
      [reflexivity|discriminate].
Qed.

Lemma post_complaint_created_similarity_witness :
  exists input : ComplaintInput,
    ge n85 (sd_similarity (in_aiDuplicateCheck input)) = true.
Proof.
  destruct (post_complaint_created_similarity classifyImage_plain
              classifyText_plain None find_all count_none (schema_create 0)
              body_complete [])
    as (input & complaint & _ & _ & H & _).
  - vm_compute. reflexivity.
  - exists input. exact H.
Defined.

(** ** Complaints stored without an embedding *)

Lemma detectDuplicate_fields_usable
  (transformers : option (option string -> outcome vec))
  (window window' : list Complaint) (text : option string) :
  filter usable window = filter usable window' ->
  let r := detectDuplicate transformers (Returned window) text in
  let r' := detectDuplicate transformers (Returned window') text in
  isDuplicate r = isDuplicate r' /\ similarity r = similarity r' /\
  matchingComplaint r = matchingComplaint r'.
Proof.
  intros Hf. cbv zeta. unfold detectDuplicate.
  destruct transformers as [extractor|]; [|repeat split].
  destruct (extractor text) as [newEmbedding|]; [|repeat split].
  assert (H : forall w,
            let d := detectDuplicate_window newEmbedding w in
            isDuplicate d = gt (bm_similarity (scan newEmbedding (filter usable w) start))
                              DUPLICATE_THRESHOLD /\
            similarity d = bm_similarity (scan newEmbedding (filter usable w) start) /\
            matchingComplaint d
            = option_map _id (bm_complaint (scan newEmbedding (filter usable w) start))).
  { intros w. cbv zeta. rewrite scan_filter_usable. unfold detectDuplicate_window.
    destruct w; repeat split. }
  destruct (H window) as (-> & -> & ->). destruct (H window') as (-> & -> & ->).
  rewrite Hf. repeat split.
Qed.

(** X29: a complaint stored while the embedding library was missing is
    never found again by the duplicate detector: the route stores it with
    no embedding, and from then on, wherever it stands in a window, the
    detector reports the same duplicate flag, similarity and matching
    complaint as on the window without it. *)
Theorem complaints_post_without_library_never_matched
  (mobilenet : option (string -> outcome (list Prediction)))
  (find_recent : list Complaint -> outcome (list Complaint))
  (countDocuments : list Complaint -> option string -> outcome N)
  (now : Z) (body : Body) (store : list Complaint) :
  status (fst (complaints_post mobilenet None find_recent countDocuments
                 (schema_create now) body store)) = 201%nat ->
  exists complaint,
    snd (complaints_post mobilenet None find_recent countDocuments
           (schema_create now) body store) = store ++ [complaint] /\
    embedding complaint = None /\
    forall (transformers : option (option string -> outcome vec))
           (before after : list Complaint) (text : option string),
      let r := detectDuplicate transformers
                 (Returned (before ++ complaint :: after)) text in
      let r' := detectDuplicate transformers (Returned (before ++ after)) text in
      isDuplicate r = isDuplicate r' /\ similarity r = similarity r' /\
      matchingComplaint r = matchingComplaint r'.
Proof.
  unfold complaints_post, post_complaint.
  destruct (classify_image _ body) as [imageClassification|]; [|discriminate].
  destruct (classifyText _ (body_description body)) as [textClassification|];
    [|discriminate].
  cbn [option_map check_duplicate detectDuplicate fallbackDetectDuplicate
       isDuplicate andb generateEmbedding].
  match goal with
  | |- context [schema_create now store ?i] =>
      destruct (schema_create now store i) as [complaint|] eqn:Hc; [|discriminate]
  end.
  intros _. exists complaint. split; [reflexivity|].
  assert (He : embedding complaint = None).
  { unfold schema_create in Hc. destruct (schema_valid _); [|discriminate].
    injection Hc as <-. reflexivity. }
  split; [exact He|].
  intros transformers before after text.
  apply detectDuplicate_fields_usable.
  rewrite !filter_app. cbn [filter]. unfold usable at 2, no_embedding.
  now rewrite He.
Qed.

Lemma complaints_post_without_library_never_matched_witness :
  exists complaint,
    snd (complaints_post None None find_all count_none (schema_create 0)
           body_complete []) = [complaint] /\
    embedding complaint = None.
Proof.
  destruct (complaints_post_without_library_never_matched None find_all
              count_none 0 body_complete [])
    as (complaint & Hs & He & _).
  - vm_compute. reflexivity.
  - exists complaint. split; assumption.
Defined.

(** ** From a stored complaint to the priority listing *)

(** X30: a complaint stored by POST /api/complaints, under the validation
    of the schema, is listed by GET /api/complaints/priority in the group
    that carries its own severity level, and in no other group. *)
Theorem post_complaint_then_listing
  (classifyImage : string -> outcome ImageClassification)
  (classifyText : option string -> outcome TextClassification)
  (transformers : option (option string -> outcome vec))
  (find_recent : list Complaint -> outcome (list Complaint))
  (countDocuments : list Complaint -> option string -> outcome N)
  (now : Z) (body : Body) (store : list Complaint) :
  let posted :=
    post_complaint classifyImage classifyText transformers find_recent
      countDocuments (schema_create now) body store in
  status (fst posted) = 201%nat ->
  exists complaint,
    snd posted = store ++ [complaint] /\
    forall level,
      In complaint (group_named (group_by_severity (snd posted)) level) <->
      level = aiSeverityLevel complaint.
Proof.
  cbv zeta. unfold post_complaint.
  destruct (classify_image classifyImage body) as [imageClassification|];
    [|discriminate].
  destruct (classifyText (body_description body)) as [textClassification|];
    [|discriminate].
  destruct (isDuplicate _ && gt _ n0_85); [discriminate|].
  match goal with
  | |- context [schema_create now store ?i] =>
      set (input := i);
      destruct (schema_create now store input) as [complaint|] eqn:Hc;
      [|discriminate]
  end.
  intros _. exists complaint. cbn [fst snd]. split; [reflexivity|].
  pose proof (created_score _ _ _ _ Hc) as Hn.
  assert (Hsev : aiSeverityLevel complaint
                 = severity_of_final (priorityScore complaint)).
  { unfold schema_create in Hc. destruct (schema_valid input); [|discriminate].
    injection Hc as <-. cbn [aiSeverityLevel priorityScore].
    unfold input, new_complaint. cbn [in_aiSeverityLevel in_priorityScore].
    unfold score_priority. apply calculatePriority_severity. }
  intros level. rewrite group_named_filter, filter_In.
  rewrite (in_level_severity level _ Hn), Hsev.
  split; [intros [_ H]; now symmetry|].
  intros ->. split; [apply in_elt|reflexivity].
Qed.

Lemma post_complaint_then_listing_witness :
  exists complaint,
    snd (post_complaint classifyImage_plain classifyText_plain None find_all
           count_none (schema_create 0) body_complete []) = [complaint] /\
    In complaint
      (group_named
         (group_by_severity
            (snd (post_complaint classifyImage_plain classifyText_plain None
                    find_all count_none (schema_create 0) body_complete [])))
         (aiSeverityLevel complaint)).
Proof.
  destruct (post_complaint_then_listing classifyImage_plain classifyText_plain
              None find_all count_none 0 body_complete [])
    as (complaint & Hs & Hl).
  - vm_compute. reflexivity.
  - exists complaint. split; [exact Hs|]. now apply Hl.
Defined.

